(** * viben-ring: the combat and boss-AI core

    A shallow embedding of the simulation core of the game.

    The program:
    - [BehaviorTree]                  : src/app/utils/behaviorTree.ts
    - [Vector3], [Euler], [Matrix4]   : the operations of three.js it calls
    - [Collision]                     : src/app/utils/collision.ts
    - [Global], [GameState]           : src/app/context/GameState.tsx
    - [BossAI]                        : the boss policy (utils/bossAI)
    - [World]                         : the running game (store, refs of the
                                        components, timers, clock)
    - [Boss]                          : src/app/components/Boss.tsx
    - [Character]                     : the character controller that
                                        resolves the player's attacks
    - [DebugPanel]                    : the hitbox visualisation
    - [Events]                        : the event loop that drives them

    Then its properties.

    JavaScript numbers are idealised as real numbers ([R]); readings of the
    clock ([Date.now()], [performance.now()]) are integers ([Z],
    milliseconds).  A React [setState(prev => ...)] is applied at once, and
    a tick reads the React state of the render it runs in. *)

From Stdlib Require Import String.
From Stdlib Require Import List Bool Arith ZArith Reals Lia Lra.
Import ListNotations.

Set Warnings "-register-all".

(** Replace the element at index [i]; out of range the list is unchanged
    (the code only writes through an index it has just read). *)
Fixpoint update {A : Type} (i : nat) (x : A) (l : list A) : list A :=
  match l, i with
  | [], _ => []
  | _ :: t, O => x :: t
  | h :: t, S j => h :: update j x t
  end.

(* ================================================================= *)
(** ** behaviorTree.ts *)

Module BehaviorTree.

Inductive NodeType := SELECTOR | SEQUENCE | ACTION | CONDITION.

Inductive NodeStatus := SUCCESS | FAILURE | RUNNING.

Section Nodes.

Context {W : Type}.

(** A node object.  [W] is everything the leaves' closures read and write;
    [currentChild] is the mutable field of a composite, so executing a node
    returns the node as it is afterwards. *)
Inductive BehaviorNode : Type :=
| LeafNode (type : NodeType) (action : W -> NodeStatus * W)
| CompositeNode (type : NodeType) (children : list BehaviorNode)
                (currentChild : nat).

Section Loops.

Variable N : Type.
Variable exec : N -> W -> NodeStatus * N * W.

(** The selector's [while (this.currentChild < this.children.length)].
    [cs] is [children] from index [i] on; children before [currentChild]
    are passed over untouched, the one at [currentChild] is executed.
    Result: status, the children afterwards, [currentChild] afterwards. *)
Fixpoint selector_loop (cs : list N) (i currentChild : nat) (w : W)
  : NodeStatus * list N * nat * W :=
  match cs with
  | [] => (FAILURE, [], 0, w)
  | c :: rest =>
      if i <? currentChild then
        let '(status, rest', cur', w') :=
          selector_loop rest (S i) currentChild w in
        (status, c :: rest', cur', w')
      else
        let '(status, c', w') := exec c w in
        match status with
        | RUNNING => (RUNNING, c' :: rest, currentChild, w')
        | SUCCESS => (SUCCESS, c' :: rest, 0, w')
        | FAILURE =>
            let '(status', rest', cur', w'') :=
              selector_loop rest (S i) (S currentChild) w' in
            (status', c' :: rest', cur', w'')
        end
  end.

(** The sequence's loop: the same walk, stopping on FAILURE. *)
Fixpoint sequence_loop (cs : list N) (i currentChild : nat) (w : W)
  : NodeStatus * list N * nat * W :=
  match cs with
  | [] => (SUCCESS, [], 0, w)
  | c :: rest =>
      if i <? currentChild then
        let '(status, rest', cur', w') :=
          sequence_loop rest (S i) currentChild w in
        (status, c :: rest', cur', w')
      else
        let '(status, c', w') := exec c w in
        match status with
        | RUNNING => (RUNNING, c' :: rest, currentChild, w')
        | FAILURE => (FAILURE, c' :: rest, 0, w')
        | SUCCESS =>
            let '(status', rest', cur', w'') :=
              sequence_loop rest (S i) (S currentChild) w' in
            (status', c' :: rest', cur', w'')
        end
  end.

(** What a tick of a selector is, read off the loop one child at a time:
    [selector_run cs i w r] says that evaluating [cs] from cursor [i] in
    world [w] ends in [r]. *)
Inductive selector_run
  : list N -> nat -> W -> NodeStatus * list N * nat * W -> Prop :=
| sel_running cs i w c c' w' :
    nth_error cs i = Some c -> exec c w = (RUNNING, c', w') ->
    selector_run cs i w (RUNNING, update i c' cs, i, w')
| sel_success cs i w c c' w' :
    nth_error cs i = Some c -> exec c w = (SUCCESS, c', w') ->
    selector_run cs i w (SUCCESS, update i c' cs, 0, w')
| sel_failure cs i w c c' w' r :
    nth_error cs i = Some c -> exec c w = (FAILURE, c', w') ->
    selector_run (update i c' cs) (S i) w' r ->
    selector_run cs i w r
| sel_all_failed cs i w :
    length cs <= i ->
    selector_run cs i w (FAILURE, cs, 0, w).

Inductive sequence_run
  : list N -> nat -> W -> NodeStatus * list N * nat * W -> Prop :=
| seq_running cs i w c c' w' :
    nth_error cs i = Some c -> exec c w = (RUNNING, c', w') ->
    sequence_run cs i w (RUNNING, update i c' cs, i, w')
| seq_failure cs i w c c' w' :
    nth_error cs i = Some c -> exec c w = (FAILURE, c', w') ->
    sequence_run cs i w (FAILURE, update i c' cs, 0, w')
| seq_success cs i w c c' w' r :
    nth_error cs i = Some c -> exec c w = (SUCCESS, c', w') ->
    sequence_run (update i c' cs) (S i) w' r ->
    sequence_run cs i w r
| seq_all_succeeded cs i w :
    length cs <= i ->
    sequence_run cs i w (SUCCESS, cs, 0, w).

End Loops.

(** [CompositeNode.execute] and [LeafNode.execute]. *)
Fixpoint execute (n : BehaviorNode) (w : W) : NodeStatus * BehaviorNode * W :=
  match n with
  | LeafNode type action =>
      let '(status, w') := action w in (status, LeafNode type action, w')
  | CompositeNode type children currentChild =>
      let currentChild :=
        if length children <=? currentChild then 0 else currentChild in
      match type with
      | SELECTOR =>
          let '(status, children', cur', w') :=
            selector_loop BehaviorNode execute children 0 currentChild w in
          (status, CompositeNode type children' cur', w')
      | SEQUENCE =>
          let '(status, children', cur', w') :=
            sequence_loop BehaviorNode execute children 0 currentChild w in
          (status, CompositeNode type children' cur', w')
      | _ => (FAILURE, CompositeNode type children currentChild, w)
      end
  end.

(** The cursor a tick starts from: [currentChild], or 0 when it is past the
    last child. *)
Definition entry_cursor (children : list BehaviorNode) (currentChild : nat) :=
  if length children <=? currentChild then 0 else currentChild.

End Nodes.

Arguments BehaviorNode W : clear implicits.

(** A test double for children: child [i] reports [reports[i]] and records
    that it was evaluated. *)
Record Probe := { reports : list NodeStatus; evaluated : list nat }.

Definition probe (i : nat) : BehaviorNode Probe :=
  LeafNode ACTION (fun p =>
    (nth i (reports p) FAILURE,
     {| reports := reports p; evaluated := evaluated p ++ [i] |})).

Definition probes3 : list (BehaviorNode Probe) := [probe 0; probe 1; probe 2].

End BehaviorTree.

(* ================================================================= *)
(** ** Numbers *)

(** Comparisons of numbers as booleans ([<=], [<] of JavaScript). *)
Definition Rleb (a b : R) : bool := if Rle_dec a b then true else false.

Definition Rltb (a b : R) : bool := if Rlt_dec a b then true else false.

(** [Math.sign]. *)
Definition Math_sign (a : R) : R :=
  if Rlt_dec 0 a then 1%R else if Rlt_dec a 0 then (-1)%R else 0%R.

(** [Math.atan2(y, x)], from its definition in the language standard: the
    angle of the point [(x, y)], in [(-PI, PI]], and 0 at the origin. *)
Definition Math_atan2 (y x : R) : R :=
  if Rlt_dec 0 x then atan (y / x)
  else if Rlt_dec x 0 then
         (if Rle_dec 0 y then atan (y / x) + PI else atan (y / x) - PI)%R
  else if Rlt_dec 0 y then (PI / 2)%R
  else if Rlt_dec y 0 then (- PI / 2)%R
  else 0%R.

(* ================================================================= *)
(** ** three.js: the vector, Euler-angle and matrix operations used *)

Module Vector3.

Record t := new { x : R; y : R; z : R }.

Definition distanceToSquared (a v : t) : R :=
  let dx := (x a - x v)%R in
  let dy := (y a - y v)%R in
  let dz := (z a - z v)%R in
  (dx * dx + dy * dy + dz * dz)%R.

Definition distanceTo (a v : t) : R := sqrt (distanceToSquared a v).

Definition length (v : t) : R := sqrt (x v * x v + y v * y v + z v * z v).

Definition multiplyScalar (v : t) (s : R) : t :=
  new (x v * s) (y v * s) (z v * s).

Definition divideScalar (v : t) (s : R) : t := multiplyScalar v (1 / s).

(** [normalize()] is [divideScalar(length() || 1)]. *)
Definition normalize (v : t) : t :=
  divideScalar v (if Req_dec_T (length v) 0 then 1%R else length v).

Definition add (a v : t) : t := new (x a + x v) (y a + y v) (z a + z v).

End Vector3.

Module Euler.

(** Euler angles in the default order XYZ; [y] is the yaw. *)
Record t := new { x : R; y : R; z : R }.

Definition set_y (e : t) (v : R) : t := new (x e) v (z e).

End Euler.

Module Matrix4.

(** The sixteen [elements], column-major. *)
Record t := { elements : list R }.

Definition el (m : t) (i : nat) : R := nth i (elements m) 0%R.

(** [makeRotationFromEuler], order XYZ. *)
Definition makeRotationFromEuler (euler : Euler.t) : t :=
  let a := cos (Euler.x euler) in let b := sin (Euler.x euler) in
  let c := cos (Euler.y euler) in let d := sin (Euler.y euler) in
  let e := cos (Euler.z euler) in let f := sin (Euler.z euler) in
  let ae := (a * e)%R in let af := (a * f)%R in
  let be := (b * e)%R in let bf := (b * f)%R in
  {| elements :=
       [ (c * e)%R; (af + be * d)%R; (bf - ae * d)%R; 0%R;
         (- c * f)%R; (ae - bf * d)%R; (be + af * d)%R; 0%R;
         d; (- b * c)%R; (a * c)%R; 0%R;
         0%R; 0%R; 0%R; 1%R ] |}.

(** [Vector3.applyMatrix4]. *)
Definition applyMatrix4 (v : Vector3.t) (m : t) : Vector3.t :=
  let x := Vector3.x v in let y := Vector3.y v in let z := Vector3.z v in
  let w := (1 / (el m 3 * x + el m 7 * y + el m 11 * z + el m 15))%R in
  Vector3.new ((el m 0 * x + el m 4 * y + el m 8 * z + el m 12) * w)
              ((el m 1 * x + el m 5 * y + el m 9 * z + el m 13) * w)
              ((el m 2 * x + el m 6 * y + el m 10 * z + el m 14) * w).

End Matrix4.

(* ================================================================= *)
(** ** collision.ts *)

Module Collision.

Definition didSpheresCollide (sphere1Center : Vector3.t) (sphere1Radius : R)
  (sphere2Center : Vector3.t) (sphere2Radius : R) : bool :=
  let center1 := sphere1Center in
  let center2 := sphere2Center in
  let distance := Vector3.distanceTo center1 center2 in
  let collides := Rleb distance (sphere1Radius + sphere2Radius) in
  collides.

End Collision.

(* ================================================================= *)
(** ** GameState.tsx: the state store and its window-scoped mirror *)

Module Global.

(** [window.vibenRingGlobalState] (camera fields left out). *)
Record t := mk {
  playerPosition : Vector3.t;
  playerRotation : Euler.t;
  playerCollisionSphereOffset : Vector3.t;
  playerCollisionSphereRadius : R;
  playerAttackSphereOffset : Vector3.t;
  playerAttackSphereRadius : R;
  bossPosition : Vector3.t;
  bossRotation : Euler.t;
  bossCollisionSphereOffset : Vector3.t;
  bossCollisionSphereRadius : R;
  bossAttackSphereOffset : Vector3.t;
  bossAttackSphereRadius : R;
  playerHp : R;
  bossHp : R
}.

Definition with_playerHp (v : R) (s : t) : t :=
  mk
    (playerPosition s) (playerRotation s) (playerCollisionSphereOffset s)
    (playerCollisionSphereRadius s) (playerAttackSphereOffset s)
    (playerAttackSphereRadius s) (bossPosition s) (bossRotation s)
    (bossCollisionSphereOffset s) (bossCollisionSphereRadius s)
    (bossAttackSphereOffset s) (bossAttackSphereRadius s) v (bossHp s).

Definition with_playerPosition (v : Vector3.t) (s : t) : t :=
  mk
    v (playerRotation s) (playerCollisionSphereOffset s)
    (playerCollisionSphereRadius s) (playerAttackSphereOffset s)
    (playerAttackSphereRadius s) (bossPosition s) (bossRotation s)
    (bossCollisionSphereOffset s) (bossCollisionSphereRadius s)
    (bossAttackSphereOffset s) (bossAttackSphereRadius s) (playerHp s)
    (bossHp s).

Definition with_playerRotation (v : Euler.t) (s : t) : t :=
  mk
    (playerPosition s) v (playerCollisionSphereOffset s)
    (playerCollisionSphereRadius s) (playerAttackSphereOffset s)
    (playerAttackSphereRadius s) (bossPosition s) (bossRotation s)
    (bossCollisionSphereOffset s) (bossCollisionSphereRadius s)
    (bossAttackSphereOffset s) (bossAttackSphereRadius s) (playerHp s)
    (bossHp s).

Definition with_bossPosition (v : Vector3.t) (s : t) : t :=
  mk
    (playerPosition s) (playerRotation s) (playerCollisionSphereOffset s)
    (playerCollisionSphereRadius s) (playerAttackSphereOffset s)
    (playerAttackSphereRadius s) v (bossRotation s)
    (bossCollisionSphereOffset s) (bossCollisionSphereRadius s)
    (bossAttackSphereOffset s) (bossAttackSphereRadius s) (playerHp s)
    (bossHp s).

Definition with_bossRotation (v : Euler.t) (s : t) : t :=
  mk
    (playerPosition s) (playerRotation s) (playerCollisionSphereOffset s)
    (playerCollisionSphereRadius s) (playerAttackSphereOffset s)
    (playerAttackSphereRadius s) (bossPosition s) v
    (bossCollisionSphereOffset s) (bossCollisionSphereRadius s)
    (bossAttackSphereOffset s) (bossAttackSphereRadius s) (playerHp s)
    (bossHp s).

End Global.

Module GameState.

(** [GameStateType] (camera fields left out). *)
Record GameStateType := mkGameState {
  bossHp : R;
  playerHp : R;
  playerStamina : R;
  playerPosition : Vector3.t;
  playerRotation : Euler.t;
  bossPosition : Vector3.t;
  bossRotation : Euler.t;
  playerCollisionSphereOffset : Vector3.t;
  playerCollisionSphereRadius : R;
  playerAttackSphereOffset : Vector3.t;
  playerAttackSphereRadius : R;
  bossCollisionSphereOffset : Vector3.t;
  bossCollisionSphereRadius : R;
  bossAttackSphereOffset : Vector3.t;
  bossAttackSphereRadius : R;
  isDebugMode : bool
}.

Definition with_bossHp (v : R) (s : GameStateType) : GameStateType :=
  mkGameState
    v (playerHp s) (playerStamina s) (playerPosition s) (playerRotation s)
    (bossPosition s) (bossRotation s) (playerCollisionSphereOffset s)
    (playerCollisionSphereRadius s) (playerAttackSphereOffset s)
    (playerAttackSphereRadius s) (bossCollisionSphereOffset s)
    (bossCollisionSphereRadius s) (bossAttackSphereOffset s)
    (bossAttackSphereRadius s) (isDebugMode s).

Definition with_playerHp (v : R) (s : GameStateType) : GameStateType :=
  mkGameState
    (bossHp s) v (playerStamina s) (playerPosition s) (playerRotation s)
    (bossPosition s) (bossRotation s) (playerCollisionSphereOffset s)
    (playerCollisionSphereRadius s) (playerAttackSphereOffset s)
    (playerAttackSphereRadius s) (bossCollisionSphereOffset s)
    (bossCollisionSphereRadius s) (bossAttackSphereOffset s)
    (bossAttackSphereRadius s) (isDebugMode s).

Definition with_playerStamina (v : R) (s : GameStateType) : GameStateType :=
  mkGameState
    (bossHp s) (playerHp s) v (playerPosition s) (playerRotation s)
    (bossPosition s) (bossRotation s) (playerCollisionSphereOffset s)
    (playerCollisionSphereRadius s) (playerAttackSphereOffset s)
    (playerAttackSphereRadius s) (bossCollisionSphereOffset s)
    (bossCollisionSphereRadius s) (bossAttackSphereOffset s)
    (bossAttackSphereRadius s) (isDebugMode s).

Definition with_playerPosition (v : Vector3.t) (s : GameStateType) : GameStateType :=
  mkGameState
    (bossHp s) (playerHp s) (playerStamina s) v (playerRotation s)
    (bossPosition s) (bossRotation s) (playerCollisionSphereOffset s)
    (playerCollisionSphereRadius s) (playerAttackSphereOffset s)
    (playerAttackSphereRadius s) (bossCollisionSphereOffset s)
    (bossCollisionSphereRadius s) (bossAttackSphereOffset s)
    (bossAttackSphereRadius s) (isDebugMode s).

Definition with_playerRotation (v : Euler.t) (s : GameStateType) : GameStateType :=
  mkGameState
    (bossHp s) (playerHp s) (playerStamina s) (playerPosition s) v
    (bossPosition s) (bossRotation s) (playerCollisionSphereOffset s)
    (playerCollisionSphereRadius s) (playerAttackSphereOffset s)
    (playerAttackSphereRadius s) (bossCollisionSphereOffset s)
    (bossCollisionSphereRadius s) (bossAttackSphereOffset s)
    (bossAttackSphereRadius s) (isDebugMode s).

Definition with_bossPosition (v : Vector3.t) (s : GameStateType) : GameStateType :=
  mkGameState
    (bossHp s) (playerHp s) (playerStamina s) (playerPosition s)
    (playerRotation s) v (bossRotation s) (playerCollisionSphereOffset s)
    (playerCollisionSphereRadius s) (playerAttackSphereOffset s)
    (playerAttackSphereRadius s) (bossCollisionSphereOffset s)
    (bossCollisionSphereRadius s) (bossAttackSphereOffset s)
    (bossAttackSphereRadius s) (isDebugMode s).

Definition with_bossRotation (v : Euler.t) (s : GameStateType) : GameStateType :=
  mkGameState
    (bossHp s) (playerHp s) (playerStamina s) (playerPosition s)
    (playerRotation s) (bossPosition s) v (playerCollisionSphereOffset s)
    (playerCollisionSphereRadius s) (playerAttackSphereOffset s)
    (playerAttackSphereRadius s) (bossCollisionSphereOffset s)
    (bossCollisionSphereRadius s) (bossAttackSphereOffset s)
    (bossAttackSphereRadius s) (isDebugMode s).

Definition with_isDebugMode (v : bool) (s : GameStateType) : GameStateType :=
  mkGameState
    (bossHp s) (playerHp s) (playerStamina s) (playerPosition s)
    (playerRotation s) (bossPosition s) (bossRotation s)
    (playerCollisionSphereOffset s) (playerCollisionSphereRadius s)
    (playerAttackSphereOffset s) (playerAttackSphereRadius s)
    (bossCollisionSphereOffset s) (bossCollisionSphereRadius s)
    (bossAttackSphereOffset s) (bossAttackSphereRadius s) v.

Definition defaultGameState : GameStateType :=
  {| bossHp := 2000;
     playerHp := 100;
     playerStamina := 100;
     playerPosition := Vector3.new 0 0 0;
     playerRotation := Euler.new 0 0 0;
     bossPosition := Vector3.new 0 0 20;
     bossRotation := Euler.new 0 PI 0;
     playerCollisionSphereOffset := Vector3.new 0 1 0;
     playerCollisionSphereRadius := 6 / 10;
     playerAttackSphereOffset := Vector3.new 0 1 (15 / 10);
     playerAttackSphereRadius := 8 / 10;
     bossCollisionSphereOffset := Vector3.new 0 2 0;
     bossCollisionSphereRadius := 15 / 10;
     bossAttackSphereOffset := Vector3.new 0 (15 / 10) 10;
     bossAttackSphereRadius := 12 / 10;
     isDebugMode := false |}.

(** The provider: the React state and the mirror on [window], which is
    absent until the provider's mount effect has run. *)
Record Store := {
  state : GameStateType;
  vibenRingGlobalState : option Global.t
}.

Definition setState (f : GameStateType -> GameStateType) (s : Store) : Store :=
  {| state := f (state s); vibenRingGlobalState := vibenRingGlobalState s |}.

(** [if (typeof window !== 'undefined' && window.vibenRingGlobalState)]. *)
Definition onGlobal (f : Global.t -> Global.t) (s : Store) : Store :=
  {| state := state s;
     vibenRingGlobalState := option_map f (vibenRingGlobalState s) |}.

(** The mount effect: the mirror starts from fresh vectors and the default
    radii and hit points. *)
Definition initialGlobalState : Global.t :=
  {| Global.playerPosition := Vector3.new 0 0 0;
     Global.playerRotation := Euler.new 0 0 0;
     Global.playerCollisionSphereOffset := Vector3.new 0 0 0;
     Global.playerCollisionSphereRadius :=
       playerCollisionSphereRadius defaultGameState;
     Global.playerAttackSphereOffset := Vector3.new 0 0 0;
     Global.playerAttackSphereRadius :=
       playerAttackSphereRadius defaultGameState;
     Global.bossPosition := Vector3.new 0 0 0;
     Global.bossRotation := Euler.new 0 0 0;
     Global.bossCollisionSphereOffset := Vector3.new 0 0 0;
     Global.bossCollisionSphereRadius :=
       bossCollisionSphereRadius defaultGameState;
     Global.bossAttackSphereOffset := Vector3.new 0 0 0;
     Global.bossAttackSphereRadius := bossAttackSphereRadius defaultGameState;
     Global.playerHp := playerHp defaultGameState;
     Global.bossHp := bossHp defaultGameState |}.

(** The effect that copies the sphere parameters of the state to the mirror. *)
Definition syncCollisionParameters (s : Store) : Store :=
  onGlobal (fun g =>
    {| Global.playerPosition := Global.playerPosition g;
       Global.playerRotation := Global.playerRotation g;
       Global.playerCollisionSphereOffset :=
         playerCollisionSphereOffset (state s);
       Global.playerCollisionSphereRadius :=
         playerCollisionSphereRadius (state s);
       Global.playerAttackSphereOffset := playerAttackSphereOffset (state s);
       Global.playerAttackSphereRadius := playerAttackSphereRadius (state s);
       Global.bossPosition := Global.bossPosition g;
       Global.bossRotation := Global.bossRotation g;
       Global.bossCollisionSphereOffset := bossCollisionSphereOffset (state s);
       Global.bossCollisionSphereRadius := bossCollisionSphereRadius (state s);
       Global.bossAttackSphereOffset := bossAttackSphereOffset (state s);
       Global.bossAttackSphereRadius := bossAttackSphereRadius (state s);
       Global.playerHp := Global.playerHp g;
       Global.bossHp := Global.bossHp g |}) s.

Definition mount : Store :=
  syncCollisionParameters
    {| state := defaultGameState;
       vibenRingGlobalState := Some initialGlobalState |}.

Definition setBossHp (hp : R) (s : Store) : Store :=
  setState (with_bossHp hp) s.

Definition applyDmgToBoss (dmg : R) (s : Store) : Store :=
  setState (fun prev => with_bossHp (Rmax (bossHp prev - dmg) 0) prev) s.

Definition setPlayerHp (hp : R) (s : Store) : Store :=
  onGlobal (Global.with_playerHp hp) (setState (with_playerHp hp) s).

Definition setPlayerStamina (stamina : R) (s : Store) : Store :=
  setState (with_playerStamina stamina) s.

Definition setPlayerPosition (position : Vector3.t) (s : Store) : Store :=
  onGlobal (Global.with_playerPosition position)
           (setState (with_playerPosition position) s).

Definition setPlayerRotation (rotation : Euler.t) (s : Store) : Store :=
  onGlobal (Global.with_playerRotation rotation)
           (setState (with_playerRotation rotation) s).

Definition setBossPosition (position : Vector3.t) (s : Store) : Store :=
  onGlobal (Global.with_bossPosition position)
           (setState (with_bossPosition position) s).

Definition setBossRotation (rotation : Euler.t) (s : Store) : Store :=
  onGlobal (Global.with_bossRotation rotation)
           (setState (with_bossRotation rotation) s).

Definition toggleDebugMode (s : Store) : Store :=
  setState (fun prev => with_isDebugMode (negb (isDebugMode prev)) prev) s.

Definition resetGameState (s : Store) : Store :=
  setState (fun _ => defaultGameState) s.

End GameState.

(* ================================================================= *)
(** ** bossAI: the boss policy *)

Module BossAI.

Import BehaviorTree.

Record BossAIState := mkBossAIState {
  isAttacking : bool;
  lastAttackTime : Z;
  attackCooldown : Z;
  attackRange : R;
  moveSpeed : R;
  turnSpeed : R;
  currentAction : string
}.

Definition with_isAttacking (v : bool) (s : BossAIState) : BossAIState :=
  mkBossAIState v (lastAttackTime s) (attackCooldown s) (attackRange s)
    (moveSpeed s) (turnSpeed s) (currentAction s).

Definition with_lastAttackTime (v : Z) (s : BossAIState) : BossAIState :=
  mkBossAIState (isAttacking s) v (attackCooldown s) (attackRange s)
    (moveSpeed s) (turnSpeed s) (currentAction s).

Definition with_currentAction (v : string) (s : BossAIState) : BossAIState :=
  mkBossAIState (isAttacking s) (lastAttackTime s) (attackCooldown s)
    (attackRange s) (moveSpeed s) (turnSpeed s) v.

Definition initBossAIState : BossAIState :=
  {| isAttacking := false;
     lastAttackTime := 0;
     attackCooldown := 2000;
     attackRange := 10;
     moveSpeed := 35 / 10;
     turnSpeed := 25 / 10;
     currentAction := "idle" |}.

Definition distanceToPlayer (bossPosition playerPosition : Vector3.t) : R :=
  Vector3.distanceTo bossPosition playerPosition.

Definition directionToPlayer (bossPosition playerPosition : Vector3.t)
  : Vector3.t :=
  let direction :=
    Vector3.new (Vector3.x playerPosition - Vector3.x bossPosition)
                0
                (Vector3.z playerPosition - Vector3.z bossPosition) in
  Vector3.normalize direction.

Definition angleToFacePlayer (bossPosition playerPosition : Vector3.t) : R :=
  let direction := directionToPlayer bossPosition playerPosition in
  Math_atan2 (Vector3.x direction) (Vector3.z direction).

(** [while (angleDiff > Math.PI) angleDiff -= Math.PI * 2], at most [n]
    rounds. *)
Fixpoint wrap_down (n : nat) (angleDiff : R) : R :=
  if Rlt_dec PI angleDiff then
    match n with
    | O => angleDiff
    | S m => wrap_down m (angleDiff - PI * 2)
    end
  else angleDiff.

(** [while (angleDiff < -Math.PI) angleDiff += Math.PI * 2], at most [n]
    rounds. *)
Fixpoint wrap_up (n : nat) (angleDiff : R) : R :=
  if Rlt_dec angleDiff (- PI) then
    match n with
    | O => angleDiff
    | S m => wrap_up m (angleDiff + PI * 2)
    end
  else angleDiff.

(** A number of rounds after which either loop has left: more than
    [|a| / 2 PI]. *)
Definition rounds (a : R) : nat := Z.to_nat (up (Rabs a / (2 * PI))).

(** The two loops in a row ("handling wrap-around"). *)
Definition wrapAngle (angleDiff : R) : R :=
  let angleDiff := wrap_down (rounds angleDiff) angleDiff in
  wrap_up (rounds angleDiff) angleDiff.

Definition isFacingPlayer (bossRotation : Euler.t)
  (bossPosition playerPosition : Vector3.t) (threshold : R) : bool :=
  let targetAngle := angleToFacePlayer bossPosition playerPosition in
  let currentAngle := Euler.y bossRotation in
  let angleDiff := wrapAngle (targetAngle - currentAngle) in
  Rltb (Rabs angleDiff) threshold.

Section Tree.

(** [W] is the world the closures of the tree act on.  The [bossAIState]
    object they share lives in it: [bossAIState] reads it, [modify] writes
    to it, and [Date_now] reads the clock. *)
Context {W : Type}.
Variable bossAIState : W -> BossAIState.
Variable modify : (BossAIState -> BossAIState) -> W -> W.
Variable Date_now : W -> Z.

Section Leaves.

Variable gameState : GameState.GameStateType.
Variable setBossPosition : Vector3.t -> W -> W.
Variable setBossRotation : Euler.t -> W -> W.
Variable triggerBossAttack : W -> W.
Variable delta : R.

Definition inAttackRange : BehaviorNode W :=
  LeafNode CONDITION (fun w =>
    let distance :=
      distanceToPlayer (GameState.bossPosition gameState)
                       (GameState.playerPosition gameState) in
    (if Rleb distance (attackRange (bossAIState w)) then SUCCESS else FAILURE,
     w)).

Definition attackOffCooldown : BehaviorNode W :=
  LeafNode CONDITION (fun w =>
    let now := Date_now w in
    (if (attackCooldown (bossAIState w)
           <=? now - lastAttackTime (bossAIState w))%Z
     then SUCCESS else FAILURE,
     w)).

Definition performAttack : BehaviorNode W :=
  LeafNode ACTION (fun w =>
    if negb (isAttacking (bossAIState w)) then
      let w := modify (with_isAttacking true) w in
      let w := modify (with_lastAttackTime (Date_now w)) w in
      let w := modify (with_currentAction "attack") w in
      let w := triggerBossAttack w in
      (SUCCESS, w)
    else (RUNNING, w)).

Definition isFacingPlayerNode : BehaviorNode W :=
  LeafNode CONDITION (fun w =>
    (if isFacingPlayer (GameState.bossRotation gameState)
                       (GameState.bossPosition gameState)
                       (GameState.playerPosition gameState)
                       (2 / 10)
     then SUCCESS else FAILURE,
     w)).

Definition turnTowardsPlayer : BehaviorNode W :=
  LeafNode ACTION (fun w =>
    let targetAngle :=
      angleToFacePlayer (GameState.bossPosition gameState)
                        (GameState.playerPosition gameState) in
    let currentRotation := GameState.bossRotation gameState in
    let angleDiff := wrapAngle (targetAngle - Euler.y currentRotation) in
    let rotationAmount :=
      (Math_sign angleDiff
       * Rmin (Rabs angleDiff) (turnSpeed (bossAIState w) * delta))%R in
    let currentRotation :=
      Euler.set_y currentRotation (Euler.y currentRotation + rotationAmount) in
    let w := setBossRotation currentRotation w in
    let w := modify (with_currentAction "turning") w in
    (if Rltb (Rabs angleDiff) (1 / 10) then SUCCESS else RUNNING, w)).

Definition moveTowardsPlayer : BehaviorNode W :=
  LeafNode ACTION (fun w =>
    if isAttacking (bossAIState w) then (FAILURE, w)
    else
      let direction :=
        directionToPlayer (GameState.bossPosition gameState)
                          (GameState.playerPosition gameState) in
      let distance :=
        distanceToPlayer (GameState.bossPosition gameState)
                         (GameState.playerPosition gameState) in
      if Rleb distance (attackRange (bossAIState w)) then
        (SUCCESS, modify (with_currentAction "idle") w)
      else
        let moveDistance := (moveSpeed (bossAIState w) * delta)%R in
        let newPosition :=
          Vector3.add (GameState.bossPosition gameState)
                      (Vector3.multiplyScalar direction moveDistance) in
        let w := setBossPosition newPosition w in
        let w := modify (with_currentAction "moving") w in
        (if Rleb distance (attackRange (bossAIState w))
         then SUCCESS else RUNNING,
         w)).

Definition attackSequence : BehaviorNode W :=
  CompositeNode SEQUENCE [inAttackRange; attackOffCooldown; performAttack] 0.

Definition chaseSequence : BehaviorNode W :=
  CompositeNode SEQUENCE
    [CompositeNode SELECTOR [isFacingPlayerNode; turnTowardsPlayer] 0;
     moveTowardsPlayer] 0.

(** The root the function returns: freshly built nodes, every
    [currentChild] at 0. *)
Definition createBossBehaviorTree : BehaviorNode W :=
  CompositeNode SELECTOR [attackSequence; chaseSequence] 0.

End Leaves.

End Tree.

End BossAI.

(* ================================================================= *)
(** ** The running game: store, component refs, timers and clock *)

Module World.

(** The callbacks handed to [setTimeout]. *)
Inductive Timeout :=
| BossDamage                      (* Boss.tsx, 1200 ms after the trigger *)
| PlayerDamage                    (* character, 500 ms after the click *)
| PlayerBackup (listener : Z).    (* character, 700 ms after the click *)

Record Game := mkGame {
  store : GameState.Store    (* the provider of GameState.tsx *);
  bossAIRef : BossAI.BossAIState    (* Boss.tsx: bossAIRef.current *);
  bossAttackLoaded : bool
    (* Boss.tsx: mixerRef.current && actionsRef.current.attack *);
  bossFinishedListeners : nat    (* 'finished' listeners on the boss's mixer *);
  lastAIUpdateTimeRef : Z    (* Boss.tsx *);
  isAttackingRef : bool    (* character: isAttackingRef.current *);
  lastAttackTimeRef : Z    (* character: lastAttackTimeRef.current *);
  playerAttackLoaded : bool
    (* character: mixerRef.current && actionsRef.current.attack *);
  playerFinishedListeners : list Z
    (* 'finished' listeners on the character's mixer, by attack *);
  characterState : GameState.GameStateType
    (* the [state] the character's click handler closed over *);
  timeouts : list (Z * Timeout)
    (* pending setTimeout callbacks, earliest first *);
  clock : Z    (* performance.now() *);
  timeOrigin : Z    (* Date.now() - performance.now() *);
  random : nat -> R    (* the values Math.random() returns, call by call *);
  randomCalls : nat    (* calls of Math.random() so far *)
}.

Definition with_store (v : GameState.Store) (w : Game) : Game :=
  mkGame
    v (bossAIRef w) (bossAttackLoaded w) (bossFinishedListeners w)
    (lastAIUpdateTimeRef w) (isAttackingRef w) (lastAttackTimeRef w)
    (playerAttackLoaded w) (playerFinishedListeners w) (characterState w)
    (timeouts w) (clock w) (timeOrigin w) (random w) (randomCalls w).

Definition with_bossAIRef (v : BossAI.BossAIState) (w : Game) : Game :=
  mkGame
    (store w) v (bossAttackLoaded w) (bossFinishedListeners w)
    (lastAIUpdateTimeRef w) (isAttackingRef w) (lastAttackTimeRef w)
    (playerAttackLoaded w) (playerFinishedListeners w) (characterState w)
    (timeouts w) (clock w) (timeOrigin w) (random w) (randomCalls w).

Definition with_bossFinishedListeners (v : nat) (w : Game) : Game :=
  mkGame
    (store w) (bossAIRef w) (bossAttackLoaded w) v (lastAIUpdateTimeRef w)
    (isAttackingRef w) (lastAttackTimeRef w) (playerAttackLoaded w)
    (playerFinishedListeners w) (characterState w) (timeouts w) (clock w)
    (timeOrigin w) (random w) (randomCalls w).

Definition with_lastAIUpdateTimeRef (v : Z) (w : Game) : Game :=
  mkGame
    (store w) (bossAIRef w) (bossAttackLoaded w) (bossFinishedListeners w) v
    (isAttackingRef w) (lastAttackTimeRef w) (playerAttackLoaded w)
    (playerFinishedListeners w) (characterState w) (timeouts w) (clock w)
    (timeOrigin w) (random w) (randomCalls w).

Definition with_isAttackingRef (v : bool) (w : Game) : Game :=
  mkGame
    (store w) (bossAIRef w) (bossAttackLoaded w) (bossFinishedListeners w)
    (lastAIUpdateTimeRef w) v (lastAttackTimeRef w) (playerAttackLoaded w)
    (playerFinishedListeners w) (characterState w) (timeouts w) (clock w)
    (timeOrigin w) (random w) (randomCalls w).

Definition with_lastAttackTimeRef (v : Z) (w : Game) : Game :=
  mkGame
    (store w) (bossAIRef w) (bossAttackLoaded w) (bossFinishedListeners w)
    (lastAIUpdateTimeRef w) (isAttackingRef w) v (playerAttackLoaded w)
    (playerFinishedListeners w) (characterState w) (timeouts w) (clock w)
    (timeOrigin w) (random w) (randomCalls w).

Definition with_playerFinishedListeners (v : list Z) (w : Game) : Game :=
  mkGame
    (store w) (bossAIRef w) (bossAttackLoaded w) (bossFinishedListeners w)
    (lastAIUpdateTimeRef w) (isAttackingRef w) (lastAttackTimeRef w)
    (playerAttackLoaded w) v (characterState w) (timeouts w) (clock w)
    (timeOrigin w) (random w) (randomCalls w).

Definition with_timeouts (v : list (Z * Timeout)) (w : Game) : Game :=
  mkGame
    (store w) (bossAIRef w) (bossAttackLoaded w) (bossFinishedListeners w)
    (lastAIUpdateTimeRef w) (isAttackingRef w) (lastAttackTimeRef w)
    (playerAttackLoaded w) (playerFinishedListeners w) (characterState w) v
    (clock w) (timeOrigin w) (random w) (randomCalls w).

Definition with_clock (v : Z) (w : Game) : Game :=
  mkGame
    (store w) (bossAIRef w) (bossAttackLoaded w) (bossFinishedListeners w)
    (lastAIUpdateTimeRef w) (isAttackingRef w) (lastAttackTimeRef w)
    (playerAttackLoaded w) (playerFinishedListeners w) (characterState w)
    (timeouts w) v (timeOrigin w) (random w) (randomCalls w).

Definition with_randomCalls (v : nat) (w : Game) : Game :=
  mkGame
    (store w) (bossAIRef w) (bossAttackLoaded w) (bossFinishedListeners w)
    (lastAIUpdateTimeRef w) (isAttackingRef w) (lastAttackTimeRef w)
    (playerAttackLoaded w) (playerFinishedListeners w) (characterState w)
    (timeouts w) (clock w) (timeOrigin w) (random w) v.

Definition Date_now (w : Game) : Z := (timeOrigin w + clock w)%Z.

Definition Math_random (w : Game) : R * Game :=
  (random w (randomCalls w), with_randomCalls (S (randomCalls w)) w).

(** Timers fire in order of their time, and in order of creation among
    equal times. *)
Fixpoint enqueue (due : Z) (k : Timeout) (q : list (Z * Timeout))
  : list (Z * Timeout) :=
  match q with
  | [] => [(due, k)]
  | (d, k') :: q' =>
      if (d <=? due)%Z then (d, k') :: enqueue due k q' else (due, k) :: q
  end.

(** The queue is kept in order of time. *)
Fixpoint ordered (q : list (Z * Timeout)) : Prop :=
  match q with
  | [] => True
  | (d, _) :: q' => Forall (fun e => (d <= fst e)%Z) q' /\ ordered q'
  end.

Definition setTimeout (k : Timeout) (delay : Z) (w : Game) : Game :=
  with_timeouts (enqueue (clock w + delay) k (timeouts w)) w.

Definition onStore (f : GameState.Store -> GameState.Store) (w : Game) : Game :=
  with_store (f (store w)) w.

End World.

(* ================================================================= *)
(** ** Boss.tsx: the attack trigger, its callbacks and the AI frame *)

Module Boss.

Import BehaviorTree World.

Definition ATTACK_DAMAGE : R := 10.

Definition AI_UPDATE_INTERVAL : Z := 50.

(** The attack sphere of the boss as the damage callback places it. *)
Definition bossAttackSpherePosition (g : Global.t) : Vector3.t :=
  let bossAttackOffset := Global.bossAttackSphereOffset g in
  let bossRotationMatrix :=
    Matrix4.makeRotationFromEuler (Global.bossRotation g) in
  let bossAttackOffset :=
    Matrix4.applyMatrix4 bossAttackOffset bossRotationMatrix in
  Vector3.new
    (Vector3.x (Global.bossPosition g) + Vector3.x bossAttackOffset)
    (Vector3.y (Global.bossPosition g) + Vector3.y bossAttackOffset)
    (Vector3.z (Global.bossPosition g) - Vector3.z bossAttackOffset).

Definition playerCollisionSpherePosition (g : Global.t) : Vector3.t :=
  Vector3.new
    (Vector3.x (Global.playerPosition g)
     + Vector3.x (Global.playerCollisionSphereOffset g))
    (Vector3.y (Global.playerPosition g)
     + Vector3.y (Global.playerCollisionSphereOffset g))
    (Vector3.z (Global.playerPosition g)
     + Vector3.z (Global.playerCollisionSphereOffset g)).

Definition collision (g : Global.t) : bool :=
  Collision.didSpheresCollide
    (bossAttackSpherePosition g) (Global.bossAttackSphereRadius g)
    (playerCollisionSpherePosition g) (Global.playerCollisionSphereRadius g).

(** The callback of [setTimeout(..., 1200)]. *)
Definition damageCallback (w : Game) : Game :=
  match GameState.vibenRingGlobalState (store w) with
  | Some g =>
      if collision g && Rltb 0 (Global.playerHp g) then
        let newPlayerHp := Rmax 0 (Global.playerHp g - ATTACK_DAMAGE) in
        onStore (GameState.setPlayerHp newPlayerHp) w
      else w
  | None => w
  end.

(** One [onFinished] listener, called with the attack action's event (the
    calls that drive the animation are left out, here and below). *)
Definition onFinished (w : Game) : Game :=
  let w :=
    with_bossAIRef (BossAI.with_lastAttackTime (Date_now w) (bossAIRef w)) w in
  let w := with_bossAIRef (BossAI.with_isAttacking false (bossAIRef w)) w in
  let w := with_bossAIRef (BossAI.with_currentAction "idle" (bossAIRef w)) w in
  with_bossFinishedListeners (pred (bossFinishedListeners w)) w.

(** The mixer's 'finished' event for the attack action: every listener
    registered at that moment is called. *)
Definition dispatchFinished (w : Game) : Game :=
  Nat.iter (bossFinishedListeners w) onFinished w.

(** [triggerBossAttack]: nothing when the mixer or the attack action is
    missing; otherwise the damage callback is scheduled and [onFinished] is
    registered. *)
Definition triggerBossAttack (w : Game) : Game :=
  if negb (bossAttackLoaded w) then w
  else
    let w := setTimeout BossDamage 1200 w in
    with_bossFinishedListeners (S (bossFinishedListeners w)) w.

Definition modifyAI (f : BossAI.BossAIState -> BossAI.BossAIState) (w : Game)
  : Game :=
  with_bossAIRef (f (bossAIRef w)) w.

(** The tree as [useFrame] builds it. *)
Definition behaviorTree (w : Game) (delta : R) : BehaviorNode Game :=
  BossAI.createBossBehaviorTree bossAIRef modifyAI Date_now
    (GameState.state (store w))
    (fun position => onStore (GameState.setBossPosition position))
    (fun rotation => onStore (GameState.setBossRotation rotation))
    triggerBossAttack
    (delta * (IZR AI_UPDATE_INTERVAL / (1667 / 100))).

(** The AI part of the [useFrame] callback. *)
Definition useFrame (delta : R) (w : Game) : Game :=
  let now := clock w in
  if (AI_UPDATE_INTERVAL <? now - lastAIUpdateTimeRef w)%Z then
    let w := with_lastAIUpdateTimeRef now w in
    if Rltb 0 (GameState.playerHp (GameState.state (store w))) then
      snd (execute (behaviorTree w delta) w)
    else w
  else w.

End Boss.

(* ================================================================= *)
(** ** The character controller: the click handler and its callbacks *)

Module Character.

Import World.

Definition ATTACK_COOLDOWN : Z := 600.

Definition MIN_ATTACK_DAMAGE : R := 69.

Definition MAX_ATTACK_DAMAGE : R := 120.

(** The attack sphere of the player as the damage callback places it, from
    the position, rotation and offset it is given. *)
Definition playerAttackSpherePosition (playerPosition : Vector3.t)
  (playerRotation : Euler.t) (playerAttackSphereOffset : Vector3.t)
  : Vector3.t :=
  let playerAttackOffset := playerAttackSphereOffset in
  let playerRotationMatrix := Matrix4.makeRotationFromEuler playerRotation in
  let playerAttackOffset :=
    Matrix4.applyMatrix4 playerAttackOffset playerRotationMatrix in
  Vector3.new (Vector3.x playerPosition + Vector3.x playerAttackOffset)
              (Vector3.y playerPosition + Vector3.y playerAttackOffset)
              (Vector3.z playerPosition + Vector3.z playerAttackOffset).

Definition bossCollisionSpherePosition
  (bossPosition bossCollisionSphereOffset : Vector3.t) : Vector3.t :=
  Vector3.new
    (Vector3.x bossPosition + Vector3.x bossCollisionSphereOffset)
    (Vector3.y bossPosition + Vector3.y bossCollisionSphereOffset)
    (Vector3.z bossPosition + Vector3.z bossCollisionSphereOffset).

(** The test of the branch that reads the mirror. *)
Definition collision (g : Global.t) : bool :=
  Collision.didSpheresCollide
    (playerAttackSpherePosition (Global.playerPosition g)
       (Global.playerRotation g) (Global.playerAttackSphereOffset g))
    (Global.playerAttackSphereRadius g)
    (bossCollisionSpherePosition (Global.bossPosition g)
       (Global.bossCollisionSphereOffset g))
    (Global.bossCollisionSphereRadius g).

(** The test of the fallback branch, on the React state of the closure. *)
Definition collisionOfState (s : GameState.GameStateType) : bool :=
  Collision.didSpheresCollide
    (playerAttackSpherePosition (GameState.playerPosition s)
       (GameState.playerRotation s) (GameState.playerAttackSphereOffset s))
    (GameState.playerAttackSphereRadius s)
    (bossCollisionSpherePosition (GameState.bossPosition s)
       (GameState.bossCollisionSphereOffset s))
    (GameState.bossCollisionSphereRadius s).

Definition hit (w : Game) : Game :=
  let '(r, w) := Math_random w in
  let dmg :=
    (r * (MAX_ATTACK_DAMAGE - MIN_ATTACK_DAMAGE) + MIN_ATTACK_DAMAGE)%R in
  onStore (GameState.applyDmgToBoss dmg) w.

(** The callback of [setTimeout(..., 500)]. *)
Definition damageCallback (w : Game) : Game :=
  match GameState.vibenRingGlobalState (store w) with
  | Some g =>
      if collision g && Rltb 0 (Global.bossHp g) then hit w else w
  | None =>
      let state := characterState w in
      if collisionOfState state && Rltb 0 (GameState.bossHp state)
      then hit w else w
  end.

Definition removeEventListener (listener : Z) (w : Game) : Game :=
  with_playerFinishedListeners
    (filter (fun l => negb (l =? listener)%Z) (playerFinishedListeners w)) w.

(** The [onFinished] listener of the attack started at [listener], called
    with the attack action's event. *)
Definition onFinished (listener : Z) (w : Game) : Game :=
  let w := with_isAttackingRef false w in
  removeEventListener listener w.

(** The mixer's 'finished' event for the attack action. *)
Definition dispatchFinished (w : Game) : Game :=
  fold_left (fun w l => onFinished l w) (playerFinishedListeners w) w.

(** The callback of [setTimeout(..., 700)]. *)
Definition backupTimeout (listener : Z) (w : Game) : Game :=
  if negb (isAttackingRef w) then w
  else
    let w := removeEventListener listener w in
    with_isAttackingRef false w.

(** [handleMouseClick]: the listener registered and the backup timeout are
    named by the time of the click. *)
Definition handleMouseClick (button : Z) (w : Game) : Game :=
  if negb (button =? 0)%Z then w
  else
    let now := Date_now w in
    if isAttackingRef w
       || (now - lastAttackTimeRef w <? ATTACK_COOLDOWN)%Z
       || negb (playerAttackLoaded w)
    then w
    else
      let w := with_isAttackingRef true w in
      let w := with_lastAttackTimeRef now w in
      let w := setTimeout PlayerDamage 500 w in
      let w := with_playerFinishedListeners
                 (playerFinishedListeners w ++ [now]) w in
      setTimeout (PlayerBackup now) 700 w.

End Character.

(* ================================================================= *)
(** ** The debug panel: where the hitboxes are drawn *)

Module DebugPanel.

(** The position of the yellow sphere (the boss's attack sphere) in
    [CollisionSpheres]. *)
Definition bossAttackSpherePosition (state : GameState.GameStateType)
  : Vector3.t :=
  let bossAttackOffset := GameState.bossAttackSphereOffset state in
  let bossRotationMatrix :=
    Matrix4.makeRotationFromEuler (GameState.bossRotation state) in
  let bossAttackOffset :=
    Matrix4.applyMatrix4 bossAttackOffset bossRotationMatrix in
  Vector3.new
    (Vector3.x (GameState.bossPosition state) + Vector3.x bossAttackOffset)
    (Vector3.y (GameState.bossPosition state) + Vector3.y bossAttackOffset)
    (Vector3.z (GameState.bossPosition state) + Vector3.z bossAttackOffset).

End DebugPanel.

(* ================================================================= *)
(** ** The event loop *)

Module Events.

Import World.

Inductive Event :=
| Elapse (t : Z)            (* time passes until [t]; due timers fire *)
| BossFrame (delta : R)     (* a frame of Boss.tsx *)
| MouseDown (button : Z)    (* a 'mousedown' on the window *)
| BossAttackFinished        (* 'finished' of the boss's attack action *)
| PlayerAttackFinished.     (* 'finished' of the character's attack action *)

Definition fire (k : Timeout) (w : Game) : Game :=
  match k with
  | BossDamage => Boss.damageCallback w
  | PlayerDamage => Character.damageCallback w
  | PlayerBackup listener => Character.backupTimeout listener w
  end.

(** Fire the timers that are due by [t], earliest first; [n] bounds the
    number of timers fired. *)
Fixpoint fireDue (n : nat) (t : Z) (w : Game) : Game :=
  match n with
  | O => w
  | S m =>
      match timeouts w with
      | (due, k) :: q =>
          if (due <=? t)%Z then
            let w := with_timeouts q w in
            let w := with_clock (Z.max (clock w) due) w in
            fireDue m t (fire k w)
          else w
      | [] => w
      end
  end.

(** No callback sets a timer, so the timers pending at the start bound the
    ones that fire. *)
Definition elapse (t : Z) (w : Game) : Game :=
  let w := fireDue (List.length (timeouts w)) t w in
  with_clock (Z.max (clock w) t) w.

Definition step (e : Event) (w : Game) : Game :=
  match e with
  | Elapse t => elapse t w
  | BossFrame delta => Boss.useFrame delta w
  | MouseDown button => Character.handleMouseClick button w
  | BossAttackFinished => Boss.dispatchFinished w
  | PlayerAttackFinished => Character.dispatchFinished w
  end.

Definition run (es : list Event) (w : Game) : Game :=
  fold_left (fun w e => step e w) es w.

(** The events of a history that ends before time [d]: time does not pass
    beyond [d]. *)
Definition before (d : Z) (e : Event) : Prop :=
  match e with
  | Elapse t => (t < d)%Z
  | _ => True
  end.

(** What the attack callbacks rely on: the mirror is there, its [bossHp] is
    the one the mount effect wrote, its [playerHp] is the player's health,
    the boss's health is not negative, and [Math.random()] answers in
    [0, 1). *)
Definition coherent (w : Game) : Prop :=
  (forall n, 0 <= random w n < 1)%R
  /\ exists g : Global.t,
       GameState.vibenRingGlobalState (store w) = Some g
       /\ Global.bossHp g = 2000%R
       /\ Global.playerHp g = GameState.playerHp (GameState.state (store w))
       /\ (0 <= GameState.bossHp (GameState.state (store w)))%R.

(** A game in which both models are loaded and the provider has mounted. *)
Definition start (timeOrigin : Z) (random : nat -> R) : Game :=
  {| store := GameState.mount;
     bossAIRef := BossAI.initBossAIState;
     bossAttackLoaded := true;
     bossFinishedListeners := 0;
     lastAIUpdateTimeRef := 0;
     isAttackingRef := false;
     lastAttackTimeRef := 0;
     playerAttackLoaded := true;
     playerFinishedListeners := [];
     characterState := GameState.defaultGameState;
     timeouts := [];
     clock := 0;
     timeOrigin := timeOrigin;
     random := random;
     randomCalls := 0 |}.

End Events.

(* ================================================================= *)
(** ** The words of the specification, for comparison with the code *)

Module Spec.

(** The Euclidean distance between two points. *)
Definition euclideanDistance (a b : Vector3.t) : R :=
  sqrt ((Vector3.x a - Vector3.x b) ^ 2 + (Vector3.y a - Vector3.y b) ^ 2
        + (Vector3.z a - Vector3.z b) ^ 2).

(** The planar (XZ) distance between two points: the Y components are
    ignored. *)
Definition planarDistance (a b : Vector3.t) : R :=
  sqrt ((Vector3.x a - Vector3.x b) ^ 2 + (Vector3.z a - Vector3.z b) ^ 2).

(** A vector of the owner's local frame turned by the owner's yaw (a
    rotation about the Y axis). *)
Definition rotateByYaw (yaw : R) (v : Vector3.t) : Vector3.t :=
  Vector3.new (Vector3.x v * cos yaw + Vector3.z v * sin yaw)
              (Vector3.y v)
              (Vector3.z v * cos yaw - Vector3.x v * sin yaw).

(** "Owner position + yaw-rotated offset", component by component. *)
Definition attackSphereWorldPosition (position : Vector3.t) (yaw : R)
  (offset : Vector3.t) : Vector3.t :=
  Vector3.add position (rotateByYaw yaw offset).

(** Section 4.1: two spheres overlap when the distance between their
    centres is at most the sum of their radii. *)
Definition spheresOverlap (centerA : Vector3.t) (radiusA : R)
  (centerB : Vector3.t) (radiusB : R) : Prop :=
  (euclideanDistance centerA centerB <= radiusA + radiusB)%R.

(** The test of [resolveAttack]: the attacker's attack sphere, at its
    position plus the yaw-rotated offset, against the defender's collision
    sphere, at its position plus the offset. *)
Definition attackOverlaps (attacker : Vector3.t) (yaw : R)
  (attackOffset : Vector3.t) (attackRadius : R)
  (defender collisionOffset : Vector3.t) (collisionRadius : R) : Prop :=
  spheresOverlap (attackSphereWorldPosition attacker yaw attackOffset)
    attackRadius (Vector3.add defender collisionOffset) collisionRadius.

(** The same on the simulation state, the player attacking the boss. *)
Definition playerAttackOverlaps (s : GameState.GameStateType) : Prop :=
  attackOverlaps (GameState.playerPosition s)
    (Euler.y (GameState.playerRotation s))
    (GameState.playerAttackSphereOffset s)
    (GameState.playerAttackSphereRadius s)
    (GameState.bossPosition s) (GameState.bossCollisionSphereOffset s)
    (GameState.bossCollisionSphereRadius s).

(** The same, the boss attacking the player. *)
Definition bossAttackOverlaps (s : GameState.GameStateType) : Prop :=
  attackOverlaps (GameState.bossPosition s)
    (Euler.y (GameState.bossRotation s))
    (GameState.bossAttackSphereOffset s)
    (GameState.bossAttackSphereRadius s)
    (GameState.playerPosition s) (GameState.playerCollisionSphereOffset s)
    (GameState.playerCollisionSphereRadius s).

End Spec.

(* ================================================================= *)
(** ** Names for what a tick of the boss's tree decides on *)

Module Decisions.

Import BehaviorTree.

Section Tick.

Context {W : Type}.
Variable bossAIState : W -> BossAI.BossAIState.
Variable modify : (BossAI.BossAIState -> BossAI.BossAIState) -> W -> W.
Variable Date_now : W -> Z.
Variable gameState : GameState.GameStateType.

(** The test of [inAttackRange] (and of [moveTowardsPlayer]). *)
Definition inRange (w : W) : bool :=
  Rleb (BossAI.distanceToPlayer (GameState.bossPosition gameState)
          (GameState.playerPosition gameState))
       (BossAI.attackRange (bossAIState w)).

(** The test of [attackOffCooldown]. *)
Definition offCooldown (w : W) : bool :=
  (BossAI.attackCooldown (bossAIState w)
   <=? Date_now w - BossAI.lastAttackTime (bossAIState w))%Z.

(** The test of [isFacingPlayerNode]. *)
Definition facing : bool :=
  BossAI.isFacingPlayer (GameState.bossRotation gameState)
    (GameState.bossPosition gameState) (GameState.playerPosition gameState)
    (2 / 10).

(** The world [performAttack] hands to the trigger. *)
Definition attacking (w : W) : W :=
  let w := modify (BossAI.with_isAttacking true) w in
  let w := modify (BossAI.with_lastAttackTime (Date_now w)) w in
  modify (BossAI.with_currentAction "attack") w.

End Tick.

(** Status and world of an execution, the node left aside. *)
Definition outcome {W : Type} (r : NodeStatus * BehaviorNode W * W)
  : NodeStatus * W :=
  (fst (fst r), snd r).

End Decisions.

(* ================================================================= *)
(** ** Concrete situations used below *)

Module Scenario.

Import GameState.

(** The boss at the origin and the player 20 units straight above it. *)
Definition playerOverhead : GameStateType :=
  with_playerPosition (Vector3.new 0 20 0)
    (with_bossPosition (Vector3.new 0 0 0) defaultGameState).

(** The mirror once the boss has reported its spawn position and its
    spawn rotation (it faces the player, yaw PI). *)
Definition mirrorAtSpawn : Global.t :=
  Global.with_bossRotation (Euler.new 0 PI 0)
    (Global.with_bossPosition (Vector3.new 0 0 20)
       match vibenRingGlobalState mount with
       | Some g => g
       | None => initialGlobalState
       end).

(** The boss 5 units from the player and facing it, everything loaded, the
    clock of the page at 0. *)
Definition inReach : World.Game :=
  World.onStore (setBossPosition (Vector3.new 0 0 5))
    (Events.start 1700000000000 (fun _ => 0%R)).

Definition frameDelta : R := 16 / 1000.

(** The world after one tick of the tree in [inReach]. *)
Definition attackStarted : World.Game :=
  snd (BehaviorTree.execute (Boss.behaviorTree inReach frameDelta) inReach).

(** 60 ms later, the attack still in progress. *)
Definition nextTick : World.Game := Events.elapse 60 attackStarted.

(** The boss 10 units from the player, the mirror still holding the
    rotation it was created with (yaw 0): the boss's attack sphere, as the
    callback places it, is on the player. *)
Definition bossStrikes : World.Game :=
  World.onStore (setBossPosition (Vector3.new 0 0 10))
    (Events.start 1700000000000 (fun _ => 0%R)).

(** The player's attack sphere and the boss's collision sphere with their
    centres 5 apart: at (0, 1, 1.5) and at (0, 1, 6.5).  The boss's sphere
    has radius 2, the player's is given. *)
Definition fiveApart (playerAttackSphereRadius : R) : World.Game :=
  World.with_store
    {| state := defaultGameState;
       vibenRingGlobalState :=
         Some {| Global.playerPosition := Vector3.new 0 0 0;
                 Global.playerRotation := Euler.new 0 0 0;
                 Global.playerCollisionSphereOffset := Vector3.new 0 1 0;
                 Global.playerCollisionSphereRadius := 6 / 10;
                 Global.playerAttackSphereOffset := Vector3.new 0 1 (15 / 10);
                 Global.playerAttackSphereRadius := playerAttackSphereRadius;
                 Global.bossPosition := Vector3.new 0 (-1) (65 / 10);
                 Global.bossRotation := Euler.new 0 PI 0;
                 Global.bossCollisionSphereOffset := Vector3.new 0 2 0;
                 Global.bossCollisionSphereRadius := 2;
                 Global.bossAttackSphereOffset := Vector3.new 0 (15 / 10) 10;
                 Global.bossAttackSphereRadius := 12 / 10;
                 Global.playerHp := 100;
                 Global.bossHp := 2000 |} |}
    (Events.start 1700000000000 (fun _ => (1 / 2)%R)).

(** The boss 10 units in front of the player and facing it (yaw PI), the
    mirror told of both. *)
Definition bossFacing : World.Game :=
  World.onStore (setBossRotation (Euler.new 0 PI 0))
    (World.onStore (setBossPosition (Vector3.new 0 0 10))
       (Events.start 1700000000000 (fun _ => 0%R))).

(** The game at its start, [Math.random()] answering 1 / 2: the boss has
    not moved yet, so the mirror has not been told where it is. *)
Definition atStart : World.Game :=
  Events.start 1700000000000 (fun _ => (1 / 2)%R).

End Scenario.

(* ================================================================= *)
(** ** Trees: shapes and the mirror image of a tree *)

Module TreeShape.

Import BehaviorTree.

(** SUCCESS and FAILURE exchanged. *)
Definition swap (s : NodeStatus) : NodeStatus :=
  match s with
  | SUCCESS => FAILURE
  | FAILURE => SUCCESS
  | RUNNING => RUNNING
  end.

Definition swapType (t : NodeType) : NodeType :=
  match t with
  | SELECTOR => SEQUENCE
  | SEQUENCE => SELECTOR
  | ACTION => ACTION
  | CONDITION => CONDITION
  end.

Section Shapes.

Context {W : Type}.

(** The mirror image of a tree: selectors and sequences exchanged, every
    leaf answering the opposite. *)
Fixpoint mirror (n : BehaviorNode W) : BehaviorNode W :=
  match n with
  | LeafNode type action =>
      LeafNode type (fun w => let '(status, w') := action w in (swap status, w'))
  | CompositeNode type children currentChild =>
      CompositeNode (swapType type) (map mirror children) currentChild
  end.

(** Every composite of the tree is a selector or a sequence. *)
Fixpoint wellTyped (n : BehaviorNode W) : Prop :=
  match n with
  | LeafNode _ _ => True
  | CompositeNode type children _ =>
      (type = SELECTOR \/ type = SEQUENCE)
      /\ (fix all (l : list (BehaviorNode W)) : Prop :=
            match l with
            | [] => True
            | c :: l' => wellTyped c /\ all l'
            end) children
  end.

(** A tree as the constructors leave it: every [currentChild] is 0. *)
Fixpoint fresh (n : BehaviorNode W) : Prop :=
  match n with
  | LeafNode _ _ => True
  | CompositeNode _ children currentChild =>
      currentChild = 0
      /\ (fix all (l : list (BehaviorNode W)) : Prop :=
            match l with
            | [] => True
            | c :: l' => fresh c /\ all l'
            end) children
  end.

(** No leaf of the tree ever answers RUNNING. *)
Fixpoint instant (n : BehaviorNode W) : Prop :=
  match n with
  | LeafNode _ action => forall w, fst (action w) <> RUNNING
  | CompositeNode _ children _ =>
      (fix all (l : list (BehaviorNode W)) : Prop :=
         match l with
         | [] => True
         | c :: l' => instant c /\ all l'
         end) children
  end.

(** What a tick keeps of a composite: the number of children, the children
    before the cursor it started from, and a cursor that is 0 after SUCCESS
    or FAILURE and on a child, at or after the one it started from, after
    RUNNING. *)
Definition keepsShape (type : NodeType) (children : list (BehaviorNode W))
  (currentChild : nat) (w : W) : Prop :=
  exists status children' currentChild' w',
    execute (CompositeNode type children currentChild) w
    = (status, CompositeNode type children' currentChild', w')
    /\ length children' = length children
    /\ firstn (entry_cursor children currentChild) children'
       = firstn (entry_cursor children currentChild) children
    /\ (status = RUNNING ->
        entry_cursor children currentChild <= currentChild'
        /\ currentChild' < length children
        /\ skipn (S currentChild') children'
           = skipn (S currentChild') children)
    /\ (status <> RUNNING -> currentChild' = 0).

(** The same for the loop over the children [cs], the first of which has
    index [i], started with the cursor at [cur]. *)
Definition loopShape {N : Type} (cs : list N) (i cur : nat)
  (r : NodeStatus * list N * nat * W) : Prop :=
  let '(status, cs', cur', _) := r in
  length cs' = length cs
  /\ firstn (cur - i) cs' = firstn (cur - i) cs
  /\ (status = RUNNING ->
      cur <= cur' /\ cur' < i + length cs
      /\ skipn (S (cur' - i)) cs' = skipn (S (cur' - i)) cs)
  /\ (status <> RUNNING -> cur' = 0).

(** A node that answers SUCCESS or FAILURE and is left as it was. *)
Definition settles (n : BehaviorNode W) : Prop :=
  forall w, exists status w',
    execute n w = (status, n, w') /\ status <> RUNNING.

(** A node whose mirror image answers the opposite and leaves the mirror
    image of what the node leaves. *)
Definition mirrors (n : BehaviorNode W) : Prop :=
  forall w,
    execute (mirror n) w
    = (let '(status, n', w') := execute n w in (swap status, mirror n', w')).

End Shapes.

End TreeShape.

(* ================================================================= *)
(** ** GameState.tsx: the operations of the store as data, and the
       persisted debug flag *)

Module StoreOps.

Import GameState.

(** The functions the provider hands out, and the effect that copies the
    sphere parameters. *)
Inductive Op :=
| SetBossHp (hp : R)
| ApplyDmgToBoss (dmg : R)
| SetPlayerHp (hp : R)
| SetPlayerStamina (stamina : R)
| SetPlayerPosition (position : Vector3.t)
| SetPlayerRotation (rotation : Euler.t)
| SetBossPosition (position : Vector3.t)
| SetBossRotation (rotation : Euler.t)
| ToggleDebugMode
| ResetGameState
| SyncCollisionParameters.

Definition apply (s : Store) (op : Op) : Store :=
  match op with
  | SetBossHp hp => setBossHp hp s
  | ApplyDmgToBoss dmg => applyDmgToBoss dmg s
  | SetPlayerHp hp => setPlayerHp hp s
  | SetPlayerStamina stamina => setPlayerStamina stamina s
  | SetPlayerPosition position => setPlayerPosition position s
  | SetPlayerRotation rotation => setPlayerRotation rotation s
  | SetBossPosition position => setBossPosition position s
  | SetBossRotation rotation => setBossRotation rotation s
  | ToggleDebugMode => toggleDebugMode s
  | ResetGameState => resetGameState s
  | SyncCollisionParameters => syncCollisionParameters s
  end.

Definition applyAll (ops : list Op) (s : Store) : Store :=
  fold_left apply ops s.

(** The item 'vibenRingDebugMode' of [localStorage]: absent, or a string. *)
Definition Storage := option string.

(** [String(b)]. *)
Definition String_of_bool (b : bool) : string :=
  if b then "true" else "false".

(** [toggleDebugMode] with the write to [localStorage] it makes. *)
Definition toggleDebugModeStored (s : Store) (saved : Storage)
  : Store * Storage :=
  let newDebugMode := negb (isDebugMode (state s)) in
  (toggleDebugMode s, Some (String_of_bool newDebugMode)).

(** The end of the mount effect: the saved flag, when there is one, is put
    in the state. *)
Definition loadDebugMode (saved : Storage) (s : Store) : Store :=
  match saved with
  | Some savedDebugMode =>
      setState (with_isDebugMode (String.eqb savedDebugMode "true")) s
  | None => s
  end.

End StoreOps.

(* ================================================================= *)
(** ** The character controller: keys and movement *)

Module Movement.

Import World.

(** [movementRef.current]. *)
Record Keys := mkKeys {
  forward : bool;
  backward : bool;
  left : bool;
  right : bool
}.

Definition released : Keys := mkKeys false false false false.

Definition setKey (code : string) (v : bool) (m : Keys) : Keys :=
  if String.eqb code "KeyW" then mkKeys v (backward m) (left m) (right m)
  else if String.eqb code "KeyS" then mkKeys (forward m) v (left m) (right m)
  else if String.eqb code "KeyA" then mkKeys (forward m) (backward m) v (right m)
  else if String.eqb code "KeyD" then mkKeys (forward m) (backward m) (left m) v
  else if String.eqb code "ArrowUp"
       then mkKeys v (backward m) (left m) (right m)
  else if String.eqb code "ArrowDown"
       then mkKeys (forward m) v (left m) (right m)
  else if String.eqb code "ArrowLeft"
       then mkKeys (forward m) (backward m) v (right m)
  else if String.eqb code "ArrowRight"
       then mkKeys (forward m) (backward m) (left m) v
  else m.

(** The [switch (e.code)] of the 'keydown' listener. *)
Definition handleKeyDown (code : string) (m : Keys) : Keys := setKey code true m.

(** The [switch (e.code)] of the 'keyup' listener. *)
Definition handleKeyUp (code : string) (m : Keys) : Keys := setKey code false m.

(** [characterRef.current]: the object's position and rotation. *)
Record Body := mkBody {
  position : Vector3.t;
  rotation : Euler.t
}.

(** The movement part of the [useFrame] callback (the animation calls are
    left out). *)
Definition useFrame (delta : R) (m : Keys) (body : Body) (w : Game)
  : Body * Game :=
  let isAttacking := isAttackingRef w in
  if negb isAttacking then
    let speed := (5 * delta)%R in
    let position := position body in
    let forwardSpeed := speed in
    let backwardSpeed := (speed * (6 / 10))%R in
    let strafeSpeed := (speed * (7 / 10))%R in
    let position :=
      if forward m
      then Vector3.new (Vector3.x position) (Vector3.y position)
             (Vector3.z position + forwardSpeed)
      else position in
    let position :=
      if backward m
      then Vector3.new (Vector3.x position) (Vector3.y position)
             (Vector3.z position - backwardSpeed)
      else position in
    let position :=
      if left m
      then Vector3.new (Vector3.x position + strafeSpeed) (Vector3.y position)
             (Vector3.z position)
      else position in
    let position :=
      if right m
      then Vector3.new (Vector3.x position - strafeSpeed) (Vector3.y position)
             (Vector3.z position)
      else position in
    let '(rotation, w) :=
      if forward m || backward m || left m || right m then
        let direction := Vector3.new 0 0 0 in
        let direction :=
          if forward m
          then Vector3.new (Vector3.x direction) (Vector3.y direction)
                 (Vector3.z direction + 1)
          else direction in
        let direction :=
          if backward m
          then Vector3.new (Vector3.x direction) (Vector3.y direction)
                 (Vector3.z direction - 1)
          else direction in
        let direction :=
          if left m
          then Vector3.new (Vector3.x direction + 1) (Vector3.y direction)
                 (Vector3.z direction)
          else direction in
        let direction :=
          if right m
          then Vector3.new (Vector3.x direction - 1) (Vector3.y direction)
                 (Vector3.z direction)
          else direction in
        let direction := Vector3.normalize direction in
        let angle := Math_atan2 (Vector3.x direction) (Vector3.z direction) in
        let newRotation := Euler.new 0 angle 0 in
        (newRotation, onStore (GameState.setPlayerRotation newRotation) w)
      else (rotation body, w) in
    (mkBody position rotation,
     onStore (GameState.setPlayerPosition position) w)
  else (body, w).

End Movement.

(* ================================================================= *)
(** ** More concrete situations *)

Module Samples.

Import BehaviorTree World.

(** The two conditions that guard the boss's attack, as a sequence. *)
Definition attackGuard (gameState : GameState.GameStateType)
  : BehaviorNode Game :=
  CompositeNode SEQUENCE
    [BossAI.inAttackRange bossAIRef gameState;
     BossAI.attackOffCooldown bossAIRef Date_now] 0.

(** The game at its start with the boss's attack animation not loaded yet
    and the boss already next to the player. *)
Definition notLoaded : Game :=
  {| store := store Scenario.inReach;
     bossAIRef := BossAI.initBossAIState;
     bossAttackLoaded := false;
     bossFinishedListeners := 0;
     lastAIUpdateTimeRef := 0;
     isAttackingRef := false;
     lastAttackTimeRef := 0;
     playerAttackLoaded := true;
     playerFinishedListeners := [];
     characterState := GameState.defaultGameState;
     timeouts := [];
     clock := 0;
     timeOrigin := 1700000000000;
     random := fun _ => 0%R;
     randomCalls := 0 |}.

(** The game at its start with the player's health at 0. *)
Definition playerDead : Game :=
  onStore (GameState.setPlayerHp 0) (Events.start 1700000000000 (fun _ => 0%R)).

End Samples.

(* ================================================================= *)
(** ** What histories of events keep *)

Module Invariants.

Import World Events.

(** The game is coherent, the player's health is between 0 and
    [playerMax], and the boss's health is at most [bossMax]. *)
Definition healthWithin (playerMax bossMax : R) (w : Game) : Prop :=
  coherent w
  /\ (0 <= GameState.playerHp (GameState.state (store w)) <= playerMax)%R
  /\ (GameState.bossHp (GameState.state (store w)) <= bossMax)%R.

(** What is left of [w0] in [w] when the boss's AI has not run in between:
    the player's health, the boss's position and rotation, no more
    'finished' listeners than before, and no attack in progress unless one
    was. *)
Definition leftAlone (w0 w : Game) : Prop :=
  coherent w
  /\ GameState.playerHp (GameState.state (store w))
     = GameState.playerHp (GameState.state (store w0))
  /\ GameState.bossPosition (GameState.state (store w))
     = GameState.bossPosition (GameState.state (store w0))
  /\ GameState.bossRotation (GameState.state (store w))
     = GameState.bossRotation (GameState.state (store w0))
  /\ bossFinishedListeners w <= bossFinishedListeners w0
  /\ (BossAI.isAttacking (bossAIRef w0) = false ->
      BossAI.isAttacking (bossAIRef w) = false).

(** The boss's flag is set, nothing listens for the end of its attack, and
    the boss is where it is in [w0]. *)
Definition stuck (w0 w : Game) : Prop :=
  BossAI.isAttacking (bossAIRef w) = true
  /\ bossFinishedListeners w = 0
  /\ GameState.bossPosition (GameState.state (store w))
     = GameState.bossPosition (GameState.state (store w0)).

(** The boss is idle and its cooldown, counted from [since], has not
    elapsed. *)
Definition cooling (origin cooldown since : Z) (w : Game) : Prop :=
  timeOrigin w = origin
  /\ BossAI.attackCooldown (bossAIRef w) = cooldown
  /\ BossAI.lastAttackTime (bossAIRef w) = since
  /\ BossAI.isAttacking (bossAIRef w) = false
  /\ bossFinishedListeners w = 0
  /\ (Date_now w - since < cooldown)%Z.

(** The player's last attack started at [since], less than
    [ATTACK_COOLDOWN] ago. *)
Definition recentClick (origin since : Z) (w : Game) : Prop :=
  timeOrigin w = origin
  /\ lastAttackTimeRef w = since
  /\ (Date_now w - since < Character.ATTACK_COOLDOWN)%Z.

(** The mirror is there and holds the player's health and the positions
    and rotations of the state. *)
Definition inStep (s : GameState.Store) : Prop :=
  exists g : Global.t,
    GameState.vibenRingGlobalState s = Some g
    /\ Global.playerHp g = GameState.playerHp (GameState.state s)
    /\ Global.playerPosition g = GameState.playerPosition (GameState.state s)
    /\ Global.playerRotation g = GameState.playerRotation (GameState.state s)
    /\ Global.bossPosition g = GameState.bossPosition (GameState.state s)
    /\ Global.bossRotation g = GameState.bossRotation (GameState.state s).

End Invariants.

(* ================================================================= *)
(** * Properties *)

(* ================================================================= *)
(** ** The behavior-tree engine *)

Module BehaviorTreeProps.

Import BehaviorTree.

Lemma update_app_here {A : Type} (pre : list A) (c x : A) (rest : list A) :
  update (length pre) x (pre ++ c :: rest) = pre ++ x :: rest.
Proof.
  induction pre as [|p pre IH]; simpl; [reflexivity|now rewrite IH].
Qed.

Lemma nth_error_app_here {A : Type} (pre : list A) (c : A) (rest : list A) :
  nth_error (pre ++ c :: rest) (length pre) = Some c.
Proof.
  induction pre as [|p pre IH]; simpl; [reflexivity|exact IH].
Qed.

Lemma length_snoc {A : Type} (pre : list A) (c : A) :
  length (pre ++ [c]) = S (length pre).
Proof. rewrite length_app; simpl; lia. Qed.

Lemma app_snoc {A : Type} (pre : list A) (c : A) (rest : list A) :
  (pre ++ [c]) ++ rest = pre ++ c :: rest.
Proof. now rewrite <- app_assoc. Qed.

Section Loops.

Context {W N : Type}.
Variable exec : N -> W -> NodeStatus * N * W.

(** The loop, entered with the children before index [length pre] already
    walked past, does what [selector_run] says of the whole list. *)
Lemma selector_loop_run (cs pre : list N) :
  forall (cur : nat) (w : W),
    length pre <= cur ->
    exists status cs' cur' w',
      selector_loop N exec cs (length pre) cur w = (status, cs', cur', w')
      /\ selector_run N exec (pre ++ cs) cur w (status, pre ++ cs', cur', w').
Proof.
  revert pre.
  induction cs as [|c rest IH]; intros pre cur w Hle.
  - exists FAILURE, [], 0, w. split; [reflexivity|].
    apply sel_all_failed. rewrite app_nil_r. exact Hle.
  - cbn [selector_loop].
    destruct (length pre <? cur) eqn:Hlt.
    + apply Nat.ltb_lt in Hlt.
      destruct (IH (pre ++ [c]) cur w) as (st & cs' & cur' & w' & Hloop & Hrun).
      { rewrite length_snoc. lia. }
      rewrite length_snoc in Hloop. rewrite Hloop.
      exists st, (c :: cs'), cur', w'. split; [reflexivity|].
      rewrite !app_snoc in Hrun. exact Hrun.
    + apply Nat.ltb_ge in Hlt.
      assert (cur = length pre) as -> by lia.
      destruct (exec c w) as [[st c'] w'] eqn:Hexec.
      destruct st.
      * exists SUCCESS, (c' :: rest), 0, w'. split; [reflexivity|].
        rewrite <- (update_app_here pre c c' rest).
        eapply sel_success; [apply nth_error_app_here|exact Hexec].
      * destruct (IH (pre ++ [c']) (S (length pre)) w')
          as (st & cs' & cur' & w'' & Hloop & Hrun).
        { rewrite length_snoc. lia. }
        rewrite length_snoc in Hloop. rewrite Hloop.
        exists st, (c' :: cs'), cur', w''. split; [reflexivity|].
        rewrite !app_snoc in Hrun.
        eapply sel_failure; [apply nth_error_app_here|exact Hexec|].
        rewrite update_app_here. exact Hrun.
      * exists RUNNING, (c' :: rest), (length pre), w'. split; [reflexivity|].
        rewrite <- (update_app_here pre c c' rest).
        eapply sel_running; [apply nth_error_app_here|exact Hexec].
Qed.

Lemma sequence_loop_run (cs pre : list N) :
  forall (cur : nat) (w : W),
    length pre <= cur ->
    exists status cs' cur' w',
      sequence_loop N exec cs (length pre) cur w = (status, cs', cur', w')
      /\ sequence_run N exec (pre ++ cs) cur w (status, pre ++ cs', cur', w').
Proof.
  revert pre.
  induction cs as [|c rest IH]; intros pre cur w Hle.
  - exists SUCCESS, [], 0, w. split; [reflexivity|].
    apply seq_all_succeeded. rewrite app_nil_r. exact Hle.
  - cbn [sequence_loop].
    destruct (length pre <? cur) eqn:Hlt.
    + apply Nat.ltb_lt in Hlt.
      destruct (IH (pre ++ [c]) cur w) as (st & cs' & cur' & w' & Hloop & Hrun).
      { rewrite length_snoc. lia. }
      rewrite length_snoc in Hloop. rewrite Hloop.
      exists st, (c :: cs'), cur', w'. split; [reflexivity|].
      rewrite !app_snoc in Hrun. exact Hrun.
    + apply Nat.ltb_ge in Hlt.
      assert (cur = length pre) as -> by lia.
      destruct (exec c w) as [[st c'] w'] eqn:Hexec.
      destruct st.
      * destruct (IH (pre ++ [c']) (S (length pre)) w')
          as (st & cs' & cur' & w'' & Hloop & Hrun).
        { rewrite length_snoc. lia. }
        rewrite length_snoc in Hloop. rewrite Hloop.
        exists st, (c' :: cs'), cur', w''. split; [reflexivity|].
        rewrite !app_snoc in Hrun.
        eapply seq_success; [apply nth_error_app_here|exact Hexec|].
        rewrite update_app_here. exact Hrun.
      * exists FAILURE, (c' :: rest), 0, w'. split; [reflexivity|].
        rewrite <- (update_app_here pre c c' rest).
        eapply seq_failure; [apply nth_error_app_here|exact Hexec].
      * exists RUNNING, (c' :: rest), (length pre), w'. split; [reflexivity|].
        rewrite <- (update_app_here pre c c' rest).
        eapply seq_running; [apply nth_error_app_here|exact Hexec].
Qed.

(** A tick has one outcome: the description by [selector_run] (and by
    [sequence_run]) leaves no choice. *)
Lemma selector_run_functional cs i w r1 r2 :
  selector_run N exec cs i w r1 -> selector_run N exec cs i w r2 -> r1 = r2.
Proof.
  intros H1; revert r2.
  induction H1 as [cs i w c c' w' Hn He|cs i w c c' w' Hn He
                  |cs i w c c' w' r Hn He _ IH|cs i w Hlen];
    intros r2 H2; inversion H2; subst;
    try match goal with
        | H : length _ <= _ |- _ => apply nth_error_None in H
        end;
    try congruence.
  apply IH.
  match goal with
  | Hb : exec ?b w = (FAILURE, ?b1, ?w2),
    Hr : selector_run _ _ (update i ?b1 cs) (S i) ?w2 r2 |- _ =>
      assert (c' = b1 /\ w' = w2) as [E1 E2] by (split; congruence);
      rewrite E1, E2; exact Hr
  end.
Qed.

End Loops.

(** C1.  A tick of a Selector, for every list of children, every cursor and
    every world, is the walk [selector_run] describes, started at the
    remembered cursor: a RUNNING child ends the tick with RUNNING and the
    cursor on that child; a SUCCESS child ends it with SUCCESS and the
    cursor at 0; a FAILURE child moves the cursor to the next child; past
    the last child the tick ends with FAILURE and the cursor at 0.  With
    children reporting [FAILURE, RUNNING, SUCCESS] the first tick returns
    RUNNING, the cursor stays on the second child and the third child is
    not evaluated; when the second child then reports SUCCESS, the next
    tick evaluates that child only, returns SUCCESS and resets the cursor
    to 0. *)
Theorem selector_tick :
  (forall (W : Type) (children : list (BehaviorNode W)) (currentChild : nat)
          (w : W),
      exists status children' currentChild' w',
        execute (CompositeNode SELECTOR children currentChild) w
        = (status, CompositeNode SELECTOR children' currentChild', w')
        /\ selector_run (BehaviorNode W) execute
             children (entry_cursor children currentChild) w
             (status, children', currentChild', w'))
  /\ execute (CompositeNode SELECTOR probes3 0)
             {| reports := [FAILURE; RUNNING; SUCCESS]; evaluated := [] |}
     = (RUNNING, CompositeNode SELECTOR probes3 1,
        {| reports := [FAILURE; RUNNING; SUCCESS]; evaluated := [0; 1] |})
  /\ execute (CompositeNode SELECTOR probes3 1)
             {| reports := [FAILURE; SUCCESS; SUCCESS]; evaluated := [0; 1] |}
     = (SUCCESS, CompositeNode SELECTOR probes3 0,
        {| reports := [FAILURE; SUCCESS; SUCCESS]; evaluated := [0; 1; 1] |}).
Proof.
  split; [|split; reflexivity].
  intros W children currentChild w.
  destruct (selector_loop_run (@execute W) children []
              (entry_cursor children currentChild) w (Nat.le_0_l _))
    as (status & cs' & cur' & w' & Hloop & Hrun).
  exists status, cs', cur', w'. split; [|exact Hrun].
  cbn [execute]. fold (entry_cursor children currentChild).
  simpl length in Hloop. rewrite Hloop. reflexivity.
Qed.

(** C2.  A tick of a Sequence, for every list of children, every cursor and
    every world, is the walk [sequence_run] describes: the cursor moves
    past a SUCCESS child; a RUNNING child ends the tick with RUNNING and the
    cursor on that child; a FAILURE child ends it with FAILURE and the
    cursor at 0; past the last child the tick ends with SUCCESS and the
    cursor at 0.  With children reporting [SUCCESS, FAILURE, SUCCESS] one
    tick returns FAILURE, has evaluated the first two children and not the
    third, and leaves the cursor at 0. *)
Theorem sequence_tick :
  (forall (W : Type) (children : list (BehaviorNode W)) (currentChild : nat)
          (w : W),
      exists status children' currentChild' w',
        execute (CompositeNode SEQUENCE children currentChild) w
        = (status, CompositeNode SEQUENCE children' currentChild', w')
        /\ sequence_run (BehaviorNode W) execute
             children (entry_cursor children currentChild) w
             (status, children', currentChild', w'))
  /\ execute (CompositeNode SEQUENCE probes3 0)
             {| reports := [SUCCESS; FAILURE; SUCCESS]; evaluated := [] |}
     = (FAILURE, CompositeNode SEQUENCE probes3 0,
        {| reports := [SUCCESS; FAILURE; SUCCESS]; evaluated := [0; 1] |}).
Proof.
  split; [|reflexivity].
  intros W children currentChild w.
  destruct (sequence_loop_run (@execute W) children []
              (entry_cursor children currentChild) w (Nat.le_0_l _))
    as (status & cs' & cur' & w' & Hloop & Hrun).
  exists status, cs', cur', w'. split; [|exact Hrun].
  cbn [execute]. fold (entry_cursor children currentChild).
  simpl length in Hloop. rewrite Hloop. reflexivity.
Qed.

End BehaviorTreeProps.

(* ================================================================= *)
(** ** Numbers and geometry *)

Module GeometryProps.

Lemma Rleb_true (a b : R) : Rleb a b = true <-> (a <= b)%R.
Proof.
  unfold Rleb. destruct (Rle_dec a b); split; intros; try easy; discriminate.
Qed.

Lemma Rleb_false (a b : R) : Rleb a b = false <-> (b < a)%R.
Proof.
  unfold Rleb. destruct (Rle_dec a b); split; intros; try easy; try lra.
Qed.

Lemma Rltb_true (a b : R) : Rltb a b = true <-> (a < b)%R.
Proof.
  unfold Rltb. destruct (Rlt_dec a b); split; intros; try easy; discriminate.
Qed.

Lemma Rltb_false (a b : R) : Rltb a b = false <-> (b <= a)%R.
Proof.
  unfold Rltb. destruct (Rlt_dec a b); split; intros; try easy; try lra.
Qed.

Lemma distanceTo_euclidean (a b : Vector3.t) :
  Vector3.distanceTo a b = Spec.euclideanDistance a b.
Proof.
  unfold Vector3.distanceTo, Vector3.distanceToSquared, Spec.euclideanDistance.
  f_equal. ring.
Qed.

(** C5.  For all centres and radii, [didSpheresCollide] answers true
    exactly when the Euclidean distance between the centres is at most the
    sum of the radii; at a distance equal to the sum it answers true, at
    any greater distance false. *)
Theorem didSpheresCollide_closed_ball :
  forall (A : Vector3.t) (rA : R) (B : Vector3.t) (rB : R),
    (Collision.didSpheresCollide A rA B rB = true
     <-> (Spec.euclideanDistance A B <= rA + rB)%R)
    /\ (Spec.euclideanDistance A B = (rA + rB)%R ->
        Collision.didSpheresCollide A rA B rB = true)
    /\ ((rA + rB < Spec.euclideanDistance A B)%R ->
        Collision.didSpheresCollide A rA B rB = false).
Proof.
  intros A rA B rB. unfold Collision.didSpheresCollide.
  rewrite distanceTo_euclidean. repeat split.
  - apply Rleb_true.
  - apply Rleb_true.
  - intros H. apply Rleb_true. lra.
  - intros H. apply Rleb_false. exact H.
Qed.

(** Two spheres 5 apart: radii 2 and 3 touch, radii 2 and 2 do not. *)
Lemma didSpheresCollide_witness :
  Collision.didSpheresCollide (Vector3.new 0 0 0) 2 (Vector3.new 5 0 0) 3
  = true
  /\ Collision.didSpheresCollide (Vector3.new 0 0 0) 2 (Vector3.new 5 0 0) 2
     = false.
Proof.
  assert (Spec.euclideanDistance (Vector3.new 0 0 0) (Vector3.new 5 0 0)
          = 5%R) as H5.
  { unfold Spec.euclideanDistance; cbn [Vector3.x Vector3.y Vector3.z].
    replace ((0 - 5) ^ 2 + (0 - 0) ^ 2 + (0 - 0) ^ 2)%R with (5 * 5)%R by ring.
    apply sqrt_square. lra. }
  split.
  - apply (proj1 (proj2 (didSpheresCollide_closed_ball
                           (Vector3.new 0 0 0) 2 (Vector3.new 5 0 0) 3))).
    rewrite H5. ring.
  - apply (proj2 (proj2 (didSpheresCollide_closed_ball
                           (Vector3.new 0 0 0) 2 (Vector3.new 5 0 0) 2))).
    rewrite H5. lra.
Defined.

End GeometryProps.

(* ================================================================= *)
(** ** The state store *)

Module GameStateProps.

Import GameState.

(** C8 as stated fails for a negative amount: from full health, a damage
    of -1 leaves the boss above its maximum of 2000. *)
Lemma applyDmgToBoss_negative_damage :
  (0 <= bossHp (state mount) <= 2000)%R
  /\ (2000 < bossHp (state (applyDmgToBoss (-1) mount)))%R.
Proof.
  cbn. unfold Rmax. destruct (Rle_dec (2000 - -1) 0); lra.
Qed.

(** C8, amended.  From a [bossHp] in [0, 2000], [applyDmgToBoss dmg] never
    leaves [bossHp] negative, whatever [dmg] is; it leaves exactly 0 when
    [dmg >= bossHp]; and for [dmg >= 0] it leaves [bossHp] at most what it
    was, hence within [0, 2000]. *)
Theorem applyDmgToBoss_clamp :
  forall (s : Store) (dmg : R),
    (0 <= bossHp (state s) <= 2000)%R ->
    (0 <= bossHp (state (applyDmgToBoss dmg s)))%R
    /\ ((bossHp (state s) <= dmg)%R ->
        bossHp (state (applyDmgToBoss dmg s)) = 0%R)
    /\ ((0 <= dmg)%R ->
        (bossHp (state (applyDmgToBoss dmg s)) <= bossHp (state s) <= 2000)%R).
Proof.
  intros s dmg H. cbn. unfold Rmax.
  destruct (Rle_dec (bossHp (state s) - dmg) 0); repeat split; intros; lra.
Qed.

Lemma applyDmgToBoss_clamp_witness :
  (0 <= bossHp (state (applyDmgToBoss 2500 mount)))%R
  /\ bossHp (state (applyDmgToBoss 2500 mount)) = 0%R.
Proof.
  assert (0 <= bossHp (state mount) <= 2000)%R as H by (cbn; lra).
  destruct (applyDmgToBoss_clamp mount 2500 H) as (H0 & Hz & _).
  split; [exact H0|]. apply Hz. cbn. lra.
Defined.

(** C10.  [setPlayerHp v] stores [v] as it is, in the state and in the
    mirror, for every [v]: nothing in the store clamps it, so -5 and 150
    are stored and lie outside [0, 100].  The value is kept non-negative
    where the boss's damage callback calls it: on a hit it passes
    [max(0, playerHp - 10)]. *)
Theorem setPlayerHp_verbatim :
  forall (v : R) (s : Store),
    playerHp (state (setPlayerHp v s)) = v
    /\ option_map Global.playerHp (vibenRingGlobalState (setPlayerHp v s))
       = option_map (fun _ => v) (vibenRingGlobalState s)
    /\ (playerHp (state (setPlayerHp (-5) s)) < 0)%R
    /\ (100 < playerHp (state (setPlayerHp 150 s)))%R
    /\ (forall (w : World.Game) (g : Global.t),
          vibenRingGlobalState (World.store w) = Some g ->
          Boss.collision g = true ->
          (0 < Global.playerHp g)%R ->
          Boss.damageCallback w
          = World.onStore
              (setPlayerHp (Rmax 0 (Global.playerHp g - 10))) w).
Proof.
  intros v s. split; [reflexivity|]. split.
  { cbn. destruct (vibenRingGlobalState s); reflexivity. }
  split; [cbn; lra|]. split; [cbn; lra|].
  intros w g Hg Hc Hp. unfold Boss.damageCallback. rewrite Hg, Hc.
  apply GeometryProps.Rltb_true in Hp. rewrite Hp. reflexivity.
Qed.

End GameStateProps.

(* ================================================================= *)
(** ** Square roots and rotations at concrete values *)

Module Evaluate.

Lemma sqrt_le_of_sq (a b : R) :
  (0 <= b)%R -> (a <= b * b)%R -> (sqrt a <= b)%R.
Proof.
  intros Hb Hab. rewrite <- (sqrt_square b Hb).
  apply sqrt_le_1_alt. exact Hab.
Qed.

Lemma sqrt_gt_of_sq (a b : R) :
  (0 <= b)%R -> (b * b < a)%R -> (b < sqrt a)%R.
Proof.
  intros Hb Hab. rewrite <- (sqrt_square b Hb) at 1.
  apply sqrt_lt_1_alt. split; [nra|exact Hab].
Qed.

(** The rotation matrix of a yaw-only Euler angle applied to a vector. *)
Lemma applyMatrix4_yaw (yaw : R) (v : Vector3.t) :
  Matrix4.applyMatrix4 v (Matrix4.makeRotationFromEuler (Euler.new 0 yaw 0))
  = Spec.rotateByYaw yaw v.
Proof.
  unfold Matrix4.applyMatrix4, Matrix4.makeRotationFromEuler, Matrix4.el,
    Spec.rotateByYaw.
  cbn [Matrix4.elements nth Euler.x Euler.y Euler.z].
  rewrite cos_0, sin_0. f_equal; field.
Qed.

End Evaluate.

(* ================================================================= *)
(** ** Where the attack spheres are placed *)

Module AttackSphereProps.

(** C6.  The player's attack sphere is at the player's position plus the
    offset turned by the player's yaw, in all three components, and so is
    the boss's attack sphere where the debug panel draws it.  Where the
    boss's damage callback tests it, it is not: the X and Y components are
    the position plus the turned offset, the Z component is the position
    minus the turned offset's Z.  At the spawn (position (0, 0, 20), yaw PI,
    offset (0, 1.5, 10)) the callback places the sphere at (0, 1.5, 30);
    position plus turned offset, and the panel, give (0, 1.5, 10). *)
Theorem bossAttackSphere_z_mirrored :
  (forall (position : Vector3.t) (yaw : R) (offset : Vector3.t),
      Character.playerAttackSpherePosition position (Euler.new 0 yaw 0) offset
      = Spec.attackSphereWorldPosition position yaw offset)
  /\ (forall (state : GameState.GameStateType) (yaw : R),
        GameState.bossRotation state = Euler.new 0 yaw 0 ->
        DebugPanel.bossAttackSpherePosition state
        = Spec.attackSphereWorldPosition (GameState.bossPosition state) yaw
            (GameState.bossAttackSphereOffset state))
  /\ (forall (g : Global.t) (yaw : R),
        Global.bossRotation g = Euler.new 0 yaw 0 ->
        let turned := Spec.rotateByYaw yaw (Global.bossAttackSphereOffset g) in
        Boss.bossAttackSpherePosition g
        = Vector3.new
            (Vector3.x (Global.bossPosition g) + Vector3.x turned)
            (Vector3.y (Global.bossPosition g) + Vector3.y turned)
            (Vector3.z (Global.bossPosition g) - Vector3.z turned))
  /\ Boss.bossAttackSpherePosition Scenario.mirrorAtSpawn
     = Vector3.new 0 (15 / 10) 30
  /\ Spec.attackSphereWorldPosition
       (Global.bossPosition Scenario.mirrorAtSpawn) PI
       (Global.bossAttackSphereOffset Scenario.mirrorAtSpawn)
     = Vector3.new 0 (15 / 10) 10
  /\ DebugPanel.bossAttackSpherePosition GameState.defaultGameState
     = Vector3.new 0 (15 / 10) 10.
Proof.
  split; [|split; [|split; [|split; [|split]]]].
  - intros position yaw offset.
    unfold Character.playerAttackSpherePosition.
    rewrite Evaluate.applyMatrix4_yaw. reflexivity.
  - intros state yaw Hrot. unfold DebugPanel.bossAttackSpherePosition.
    rewrite Hrot, Evaluate.applyMatrix4_yaw. reflexivity.
  - intros g yaw Hrot. unfold Boss.bossAttackSpherePosition.
    rewrite Hrot, Evaluate.applyMatrix4_yaw. reflexivity.
  - unfold Boss.bossAttackSpherePosition.
    replace (Global.bossRotation Scenario.mirrorAtSpawn)
      with (Euler.new 0 PI 0) by reflexivity.
    rewrite Evaluate.applyMatrix4_yaw.
    unfold Spec.rotateByYaw. cbn. rewrite cos_PI, sin_PI. f_equal; lra.
  - unfold Spec.attackSphereWorldPosition, Spec.rotateByYaw, Vector3.add.
    cbn. rewrite cos_PI, sin_PI. f_equal; lra.
  - unfold DebugPanel.bossAttackSpherePosition.
    replace (GameState.bossRotation GameState.defaultGameState)
      with (Euler.new 0 PI 0) by reflexivity.
    rewrite Evaluate.applyMatrix4_yaw.
    unfold Spec.rotateByYaw. cbn. rewrite cos_PI, sin_PI. f_equal; lra.
Qed.

Lemma bossAttackSphere_witness :
  Boss.bossAttackSpherePosition Scenario.mirrorAtSpawn
  = Vector3.new
      (0 + Vector3.x (Spec.rotateByYaw PI (Vector3.new 0 (15 / 10) 10)))
      (0 + Vector3.y (Spec.rotateByYaw PI (Vector3.new 0 (15 / 10) 10)))
      (20 - Vector3.z (Spec.rotateByYaw PI (Vector3.new 0 (15 / 10) 10))).
Proof.
  exact (proj1 (proj2 (proj2 bossAttackSphere_z_mirrored))
           Scenario.mirrorAtSpawn PI eq_refl).
Defined.

End AttackSphereProps.

(* ================================================================= *)
(** ** The leaves of the boss's tree *)

Module BossAIProps.

Import BehaviorTree.

(** C7 as stated fails: with the player 20 units straight above the boss
    the planar distance is 0, within the range of 10, and the leaf answers
    FAILURE. *)
Lemma inAttackRange_planar_counterexample :
  (Spec.planarDistance (GameState.bossPosition Scenario.playerOverhead)
                       (GameState.playerPosition Scenario.playerOverhead)
   <= BossAI.attackRange BossAI.initBossAIState)%R
  /\ fst (fst (execute
                 (BossAI.inAttackRange (fun _ : unit => BossAI.initBossAIState)
                                       Scenario.playerOverhead) tt))
     = FAILURE.
Proof.
  split.
  - unfold Spec.planarDistance. cbn.
    apply Evaluate.sqrt_le_of_sq; lra.
  - cbn. unfold BossAI.distanceToPlayer.
    replace (Rleb _ _) with false; [reflexivity|].
    symmetry. apply GeometryProps.Rleb_false.
    unfold Vector3.distanceTo, Vector3.distanceToSquared. cbn.
    apply Evaluate.sqrt_gt_of_sq; lra.
Qed.

(** C7, amended.  The leaf answers SUCCESS exactly when the Euclidean
    distance in space between boss and player, Y components included, is at
    most [attackRange], and FAILURE otherwise; it changes nothing.  When
    boss and player are at the same height this is the planar distance. *)
Theorem inAttackRange_euclidean :
  forall (W : Type) (bossAIState : W -> BossAI.BossAIState)
         (gameState : GameState.GameStateType) (w : W),
    let boss := GameState.bossPosition gameState in
    let player := GameState.playerPosition gameState in
    let result := execute (BossAI.inAttackRange bossAIState gameState) w in
    (fst (fst result) = SUCCESS
     <-> (Spec.euclideanDistance boss player
          <= BossAI.attackRange (bossAIState w))%R)
    /\ (fst (fst result) = FAILURE
        <-> (BossAI.attackRange (bossAIState w)
             < Spec.euclideanDistance boss player)%R)
    /\ snd result = w
    /\ (Vector3.y boss = Vector3.y player ->
        Spec.euclideanDistance boss player = Spec.planarDistance boss player).
Proof.
  intros W bossAIState gameState w boss player result.
  subst result. cbn. unfold BossAI.distanceToPlayer.
  rewrite GeometryProps.distanceTo_euclidean. fold boss player.
  destruct (Rleb (Spec.euclideanDistance boss player)
                 (BossAI.attackRange (bossAIState w))) eqn:E.
  - apply GeometryProps.Rleb_true in E.
    repeat split; intros; try easy; try lra.
    unfold Spec.euclideanDistance, Spec.planarDistance.
    f_equal. replace (Vector3.y boss) with (Vector3.y player) by easy. ring.
  - apply GeometryProps.Rleb_false in E.
    repeat split; intros; try easy; try lra.
    unfold Spec.euclideanDistance, Spec.planarDistance.
    f_equal. replace (Vector3.y boss) with (Vector3.y player) by easy. ring.
Qed.

(** At the spawn boss and player stand at the same height. *)
Lemma inAttackRange_witness :
  Spec.euclideanDistance
    (GameState.bossPosition GameState.defaultGameState)
    (GameState.playerPosition GameState.defaultGameState)
  = Spec.planarDistance
      (GameState.bossPosition GameState.defaultGameState)
      (GameState.playerPosition GameState.defaultGameState).
Proof.
  exact (proj2 (proj2 (proj2
           (inAttackRange_euclidean unit (fun _ => BossAI.initBossAIState)
              GameState.defaultGameState tt))) eq_refl).
Defined.

End BossAIProps.

(* ================================================================= *)
(** ** Angles *)

Module AngleProps.

Lemma wrap_down_id (n : nat) (a : R) :
  (a <= PI)%R -> BossAI.wrap_down n a = a.
Proof.
  intros H. destruct n; simpl; destruct (Rlt_dec PI a); try reflexivity; lra.
Qed.

Lemma wrap_up_id (n : nat) (a : R) :
  (- PI <= a)%R -> BossAI.wrap_up n a = a.
Proof.
  intros H.
  destruct n; simpl; destruct (Rlt_dec a (- PI)); try reflexivity; lra.
Qed.

Lemma wrapAngle_id (a : R) :
  (- PI <= a <= PI)%R -> BossAI.wrapAngle a = a.
Proof.
  intros [H1 H2]. unfold BossAI.wrapAngle.
  rewrite (wrap_down_id _ a H2). apply wrap_up_id. exact H1.
Qed.

(** With enough rounds the first loop is left with its condition false. *)
Lemma wrap_down_exit (n : nat) :
  forall a : R,
    (a - 2 * PI * INR n <= PI)%R ->
    (BossAI.wrap_down n a <= PI)%R
    /\ (BossAI.wrap_down n a = a \/ (- PI < BossAI.wrap_down n a)%R).
Proof.
  induction n as [|n IH]; intros a H.
  - simpl in *. destruct (Rlt_dec PI a); split; try lra; now left.
  - cbn [BossAI.wrap_down]. destruct (Rlt_dec PI a) as [Hgt|Hle].
    + rewrite S_INR in H.
      destruct (IH (a - PI * 2)%R) as [H1 H2]; [lra|].
      split; [exact H1|]. right. destruct H2 as [-> | H2]; lra.
    + split; [lra|now left].
Qed.

Lemma wrap_up_exit (n : nat) :
  forall a : R,
    (- PI <= a + 2 * PI * INR n)%R ->
    (- PI <= BossAI.wrap_up n a)%R
    /\ (BossAI.wrap_up n a = a \/ (BossAI.wrap_up n a < PI)%R).
Proof.
  induction n as [|n IH]; intros a H.
  - simpl in *. destruct (Rlt_dec a (- PI)); split; try lra; now left.
  - cbn [BossAI.wrap_up]. destruct (Rlt_dec a (- PI)) as [Hlt|Hge].
    + rewrite S_INR in H.
      destruct (IH (a + PI * 2)%R) as [H1 H2]; [lra|].
      split; [exact H1|]. right. destruct H2 as [-> | H2]; lra.
    + split; [lra|now left].
Qed.

Lemma rounds_enough (a : R) : (Rabs a < 2 * PI * INR (BossAI.rounds a))%R.
Proof.
  unfold BossAI.rounds. pose proof PI_RGT_0 as Hpi.
  set (q := (Rabs a / (2 * PI))%R).
  assert (0 <= q)%R as Hq.
  { unfold q. apply Rmult_le_pos; [apply Rabs_pos|].
    left. apply Rinv_0_lt_compat. lra. }
  destruct (archimed q) as [Hup _].
  assert (0 < up q)%Z as Hpos.
  { apply lt_IZR. lra. }
  rewrite INR_IZR_INZ, Z2Nat.id by lia.
  assert (Rabs a = q * (2 * PI))%R as ->.
  { unfold q. field. lra. }
  nra.
Qed.


Lemma length_along_z (c : R) :
  Vector3.length (Vector3.new (0 - 0) 0 c) = Rabs c.
Proof.
  unfold Vector3.length. cbn [Vector3.x Vector3.y Vector3.z].
  replace ((0 - 0) * (0 - 0) + 0 * 0 + c * c)%R with (Rsqr c)
    by (unfold Rsqr; ring).
  apply sqrt_Rsqr_abs.
Qed.

(** The player straight ahead of a boss that looks down the negative Z
    axis: the bearing is PI. *)
Lemma angleToFacePlayer_ahead :
  BossAI.angleToFacePlayer (Vector3.new 0 0 5) (Vector3.new 0 0 0) = PI.
Proof.
  unfold BossAI.angleToFacePlayer, BossAI.directionToPlayer, Vector3.normalize.
  cbn [Vector3.x Vector3.y Vector3.z].
  rewrite length_along_z.
  replace (Rabs (0 - 5)) with 5%R by (rewrite Rabs_left; lra).
  destruct (Req_dec_T 5 0) as [E|_]; [lra|].
  unfold Vector3.divideScalar, Vector3.multiplyScalar.
  cbn [Vector3.x Vector3.y Vector3.z].
  unfold Math_atan2.
  destruct (Rlt_dec 0 ((0 - 5) * (1 / 5))) as [E|_]; [lra|].
  destruct (Rlt_dec ((0 - 5) * (1 / 5)) 0) as [_|E]; [|lra].
  destruct (Rle_dec 0 ((0 - 0) * (1 / 5))) as [_|E]; [|lra].
  replace ((0 - 0) * (1 / 5) / ((0 - 5) * (1 / 5)))%R with 0%R by field.
  rewrite atan_0. ring.
Qed.

Lemma isFacingPlayer_ahead :
  BossAI.isFacingPlayer (Euler.new 0 PI 0) (Vector3.new 0 0 5)
    (Vector3.new 0 0 0) (2 / 10) = true.
Proof.
  unfold BossAI.isFacingPlayer. rewrite angleToFacePlayer_ahead. cbn [Euler.y].
  replace (PI - PI)%R with 0%R by ring.
  pose proof PI_RGT_0.
  rewrite wrapAngle_id by lra.
  rewrite Rabs_R0. apply GeometryProps.Rltb_true. lra.
Qed.

End AngleProps.

(* ================================================================= *)
(** ** A tick of the boss's tree *)

Module TickProps.

Import BehaviorTree World Decisions.

Ltac tick :=
  cbn [execute selector_loop sequence_loop length Nat.leb Nat.ltb negb fst snd
       outcome
       BossAI.createBossBehaviorTree BossAI.attackSequence BossAI.chaseSequence
       BossAI.inAttackRange BossAI.attackOffCooldown BossAI.performAttack
       BossAI.isFacingPlayerNode BossAI.turnTowardsPlayer
       BossAI.moveTowardsPlayer].

Lemma Rltb_false_weaken (a b c : R) :
  (c <= b)%R -> Rltb a b = false -> Rltb a c = false.
Proof.
  intros Hcb H. apply GeometryProps.Rltb_false in H.
  apply GeometryProps.Rltb_false. lra.
Qed.

Section Tick.

Context {W : Type}.
Variable bossAIState : W -> BossAI.BossAIState.
Variable modify : (BossAI.BossAIState -> BossAI.BossAIState) -> W -> W.
Variable Date_now : W -> Z.
Variable gameState : GameState.GameStateType.
Variable setBossPosition : Vector3.t -> W -> W.
Variable setBossRotation : Euler.t -> W -> W.
Variable delta : R.

Abbreviation root trigger :=
  (BossAI.createBossBehaviorTree bossAIState modify Date_now gameState
     setBossPosition setBossRotation trigger delta).
Abbreviation in_range := (inRange bossAIState gameState).
Abbreviation off_cooldown := (offCooldown bossAIState Date_now).
Abbreviation turn :=
  (BossAI.turnTowardsPlayer bossAIState modify gameState setBossRotation delta).
Abbreviation move :=
  (BossAI.moveTowardsPlayer bossAIState modify gameState setBossPosition delta).

(** In range, off cooldown, not attacking: the attack is triggered. *)
Lemma tick_attack trigger w :
  in_range w = true -> off_cooldown w = true ->
  BossAI.isAttacking (bossAIState w) = false ->
  outcome (execute (root trigger) w)
  = (SUCCESS, trigger (attacking modify Date_now w)).
Proof.
  unfold inRange, offCooldown, attacking. intros H1 H2 H3.
  tick. rewrite H1. tick. rewrite H2. tick. rewrite H3. tick. reflexivity.
Qed.

(** In range, off cooldown, attacking: [performAttack] answers RUNNING. *)
Lemma tick_attack_running trigger w :
  in_range w = true -> off_cooldown w = true ->
  BossAI.isAttacking (bossAIState w) = true ->
  outcome (execute (root trigger) w) = (RUNNING, w).
Proof.
  unfold inRange, offCooldown. intros H1 H2 H3.
  tick. rewrite H1. tick. rewrite H2. tick. rewrite H3. tick. reflexivity.
Qed.

(** Otherwise the attack sequence fails and the tick is the chase. *)
Lemma tick_chase_turning trigger w :
  in_range w && off_cooldown w = false -> facing gameState = false ->
  outcome (execute (root trigger) w) = (RUNNING, snd (execute turn w)).
Proof.
  unfold inRange, offCooldown, facing, BossAI.isFacingPlayer.
  intros H1 H2.
  pose proof (Rltb_false_weaken _ (2 / 10) (1 / 10) ltac:(lra) H2) as H3.
  tick.
  destruct (Rleb _ _) eqn:E1; tick.
  - simpl in H1. rewrite H1. tick.
    unfold BossAI.isFacingPlayer. rewrite H2. tick. rewrite H3. tick.
    reflexivity.
  - unfold BossAI.isFacingPlayer. rewrite H2. tick. rewrite H3. tick.
    reflexivity.
Qed.

Lemma tick_chase_facing trigger w :
  in_range w && off_cooldown w = false -> facing gameState = true ->
  outcome (execute (root trigger) w) = outcome (execute move w).
Proof.
  unfold inRange, offCooldown, facing. intros H1 H2.
  tick.
  destruct (Rleb _ _) eqn:E1; tick.
  - simpl in H1. rewrite H1. tick. rewrite H2. tick.
    destruct (BossAI.isAttacking (bossAIState w)); tick; [reflexivity|].
    rewrite E1. tick. reflexivity.
  - rewrite H2. tick.
    destruct (BossAI.isAttacking (bossAIState w)); tick; [reflexivity|].
    rewrite E1. tick.
    match goal with
    | |- context [if ?c then SUCCESS else RUNNING] => destruct c
    end; tick; reflexivity.
Qed.

Lemma move_blocked w :
  BossAI.isAttacking (bossAIState w) = true ->
  outcome (execute move w) = (FAILURE, w).
Proof. intros H. tick. rewrite H. reflexivity. Qed.

(** Every tick is one of the four above. *)
Lemma tick_cases trigger w :
  outcome (execute (root trigger) w)
  = (if in_range w && off_cooldown w then
       if BossAI.isAttacking (bossAIState w) then (RUNNING, w)
       else (SUCCESS, trigger (attacking modify Date_now w))
     else if facing gameState then outcome (execute move w)
     else (RUNNING, snd (execute turn w))).
Proof.
  destruct (in_range w && off_cooldown w) eqn:E.
  - apply andb_true_iff in E as [E1 E2].
    destruct (BossAI.isAttacking (bossAIState w)) eqn:E3.
    + now apply tick_attack_running.
    + now apply tick_attack.
  - destruct (facing gameState) eqn:E4.
    + now apply tick_chase_facing.
    + now apply tick_chase_turning.
Qed.

End Tick.

(** *** The tree Boss.tsx builds *)

Lemma attacking_isAttacking (w : Game) :
  BossAI.isAttacking (bossAIRef (attacking Boss.modifyAI Date_now w)) = true.
Proof. reflexivity. Qed.

Lemma triggerBossAttack_bossAIRef (w : Game) :
  bossAIRef (Boss.triggerBossAttack w) = bossAIRef w.
Proof.
  unfold Boss.triggerBossAttack. destruct (bossAttackLoaded w); reflexivity.
Qed.

Lemma inRange_euclidean (gameState : GameState.GameStateType) (w : Game) :
  inRange bossAIRef gameState w = true
  <-> (Spec.euclideanDistance (GameState.bossPosition gameState)
         (GameState.playerPosition gameState)
       <= BossAI.attackRange (bossAIRef w))%R.
Proof.
  unfold inRange, BossAI.distanceToPlayer.
  rewrite GeometryProps.distanceTo_euclidean. apply GeometryProps.Rleb_true.
Qed.

Lemma offCooldown_elapsed (w : Game) :
  offCooldown bossAIRef Date_now w = true
  <-> (BossAI.attackCooldown (bossAIRef w)
       <= Date_now w - BossAI.lastAttackTime (bossAIRef w))%Z.
Proof. unfold offCooldown. apply Z.leb_le. Qed.

Lemma not_both (gameState : GameState.GameStateType) (w : Game) :
  ~ ((Spec.euclideanDistance (GameState.bossPosition gameState)
        (GameState.playerPosition gameState)
      <= BossAI.attackRange (bossAIRef w))%R
     /\ (BossAI.attackCooldown (bossAIRef w)
         <= Date_now w - BossAI.lastAttackTime (bossAIRef w))%Z) ->
  inRange bossAIRef gameState w && offCooldown bossAIRef Date_now w = false.
Proof.
  intros H. apply not_true_is_false. intros E.
  apply andb_true_iff in E as [E1 E2]. apply H. split.
  - now apply inRange_euclidean.
  - now apply offCooldown_elapsed.
Qed.

(** The situation [Scenario.inReach]. *)
Lemma inReach_inRange :
  inRange bossAIRef (GameState.state (store Scenario.inReach))
    Scenario.inReach = true.
Proof.
  apply GeometryProps.Rleb_true.
  unfold BossAI.distanceToPlayer, Vector3.distanceTo,
    Vector3.distanceToSquared. cbn.
  apply Evaluate.sqrt_le_of_sq; lra.
Qed.

Lemma inReach_tick :
  outcome (execute (Boss.behaviorTree Scenario.inReach Scenario.frameDelta)
             Scenario.inReach)
  = (SUCCESS,
     Boss.triggerBossAttack (attacking Boss.modifyAI Date_now Scenario.inReach)).
Proof.
  apply tick_attack; [exact inReach_inRange|reflexivity|reflexivity].
Qed.

Lemma attackStarted_eq :
  Scenario.attackStarted
  = Boss.triggerBossAttack (attacking Boss.modifyAI Date_now Scenario.inReach).
Proof.
  unfold Scenario.attackStarted.
  change (snd (outcome (execute (Boss.behaviorTree Scenario.inReach
                                   Scenario.frameDelta) Scenario.inReach))
          = Boss.triggerBossAttack
              (attacking Boss.modifyAI Date_now Scenario.inReach)).
  rewrite inReach_tick. reflexivity.
Qed.

(** C3 as stated fails.  In [Scenario.inReach] the first tick triggers the
    attack; a tick 60 ms later, with the attack still in progress, returns
    FAILURE, not RUNNING: the cooldown stamped by the first tick has not
    elapsed, so the attack sequence fails before it reaches [performAttack],
    and the chase fails in [moveTowardsPlayer]. *)
Lemma second_tick_returns_failure :
  fst (fst (execute (Boss.behaviorTree Scenario.inReach Scenario.frameDelta)
              Scenario.inReach)) = SUCCESS
  /\ BossAI.isAttacking (bossAIRef Scenario.nextTick) = true
  /\ fst (fst (execute
                 (Boss.behaviorTree Scenario.nextTick Scenario.frameDelta)
                 Scenario.nextTick)) = FAILURE.
Proof.
  split; [exact (f_equal fst inReach_tick)|].
  unfold Scenario.nextTick. rewrite attackStarted_eq.
  split; [reflexivity|].
  set (w := Events.elapse 60 _).
  change (fst (outcome (execute (Boss.behaviorTree w Scenario.frameDelta) w))
          = FAILURE).
  unfold Boss.behaviorTree. rewrite tick_chase_facing.
  - rewrite move_blocked; reflexivity.
  - replace (offCooldown bossAIRef Date_now w) with false by reflexivity.
    apply andb_false_r.
  - exact AngleProps.isFacingPlayer_ahead.
Qed.

(** C3, amended.  One tick of the root with the player within
    [attackRange], the cooldown elapsed and no attack in progress returns
    SUCCESS and leaves the world the attack trigger makes of the world in
    which [isAttacking] is true, [lastAttackTime] is now and [currentAction]
    is 'attack': the trigger has run once, and [isAttacking] is true
    afterwards.  A tick while [isAttacking] is true has the same status and
    world whatever the trigger is, so the trigger does not run; it returns
    RUNNING, changing nothing, when the player is in range and the cooldown
    has elapsed again; otherwise it returns FAILURE, changing nothing, when
    the boss faces the player, and RUNNING, with the boss turned, when it
    does not. *)
Theorem boss_attack_gating :
  forall (gameState : GameState.GameStateType)
         (setBossPosition : Vector3.t -> Game -> Game)
         (setBossRotation : Euler.t -> Game -> Game)
         (triggerBossAttack : Game -> Game) (delta : R) (w : Game),
    let root := fun trigger =>
      BossAI.createBossBehaviorTree bossAIRef Boss.modifyAI Date_now gameState
        setBossPosition setBossRotation trigger delta in
    let inRange :=
      (Spec.euclideanDistance (GameState.bossPosition gameState)
         (GameState.playerPosition gameState)
       <= BossAI.attackRange (bossAIRef w))%R in
    let offCooldown :=
      (BossAI.attackCooldown (bossAIRef w)
       <= Date_now w - BossAI.lastAttackTime (bossAIRef w))%Z in
    let facing :=
      BossAI.isFacingPlayer (GameState.bossRotation gameState)
        (GameState.bossPosition gameState)
        (GameState.playerPosition gameState) (2 / 10) in
    let started := attacking Boss.modifyAI Date_now w in
    (inRange -> offCooldown -> BossAI.isAttacking (bossAIRef w) = false ->
     outcome (execute (root triggerBossAttack) w)
     = (SUCCESS, triggerBossAttack started)
     /\ BossAI.isAttacking (bossAIRef started) = true
     /\ BossAI.isAttacking (bossAIRef (Boss.triggerBossAttack started)) = true)
    /\ (BossAI.isAttacking (bossAIRef w) = true ->
        (forall other : Game -> Game,
            outcome (execute (root other) w)
            = outcome (execute (root triggerBossAttack) w))
        /\ (inRange -> offCooldown ->
            outcome (execute (root triggerBossAttack) w) = (RUNNING, w))
        /\ (~ (inRange /\ offCooldown) -> facing = true ->
            outcome (execute (root triggerBossAttack) w) = (FAILURE, w))
        /\ (~ (inRange /\ offCooldown) -> facing = false ->
            outcome (execute (root triggerBossAttack) w)
            = (RUNNING,
               snd (execute
                      (BossAI.turnTowardsPlayer bossAIRef Boss.modifyAI
                         gameState setBossRotation delta) w)))).
Proof.
  intros gameState setBossPosition setBossRotation triggerBossAttack delta w
    root inRange offCooldown facing started.
  subst root inRange offCooldown facing started. split.
  - intros H1 H2 H3. split; [|split].
    + apply tick_attack; [now apply inRange_euclidean|
                          now apply offCooldown_elapsed|exact H3].
    + reflexivity.
    + rewrite triggerBossAttack_bossAIRef. reflexivity.
  - intros H3. split; [|split; [|split]].
    + intros other. rewrite !tick_cases, H3.
      destruct (_ && _); [reflexivity|].
      destruct (Decisions.facing gameState); reflexivity.
    + intros H1 H2.
      apply tick_attack_running; [now apply inRange_euclidean|
                                  now apply offCooldown_elapsed|exact H3].
    + intros H12 H4. rewrite tick_chase_facing.
      * now apply move_blocked.
      * now apply not_both.
      * exact H4.
    + intros H12 H4. apply tick_chase_turning; [now apply not_both|exact H4].
Qed.

(** In [Scenario.inReach] the three conditions of the first part hold. *)
Lemma boss_attack_gating_witness :
  outcome (execute (Boss.behaviorTree Scenario.inReach Scenario.frameDelta)
             Scenario.inReach)
  = (SUCCESS,
     Boss.triggerBossAttack (attacking Boss.modifyAI Date_now Scenario.inReach))
  /\ BossAI.isAttacking
       (bossAIRef (attacking Boss.modifyAI Date_now Scenario.inReach)) = true
  /\ BossAI.isAttacking
       (bossAIRef
          (Boss.triggerBossAttack
             (attacking Boss.modifyAI Date_now Scenario.inReach))) = true.
Proof.
  refine (proj1 (boss_attack_gating
                   (GameState.state (store Scenario.inReach))
                   (fun position => onStore (GameState.setBossPosition position))
                   (fun rotation => onStore (GameState.setBossRotation rotation))
                   Boss.triggerBossAttack
                   (Scenario.frameDelta
                    * (IZR Boss.AI_UPDATE_INTERVAL / (1667 / 100)))
                   Scenario.inReach) _ _ _).
  - apply inRange_euclidean. exact inReach_inRange.
  - vm_compute. discriminate.
  - reflexivity.
Defined.

End TickProps.

(* ================================================================= *)
(** ** Attack resolution *)

Module CombatProps.

Import World.

Lemma with_bossHp_same (s : GameState.GameStateType) :
  GameState.with_bossHp (GameState.bossHp s) s = s.
Proof. destruct s; reflexivity. Qed.

(** Applying damage to a boss that has no health left changes nothing. *)
Lemma applyDmgToBoss_dead (dmg : R) (s : GameState.Store) :
  GameState.bossHp (GameState.state s) = 0%R -> (0 <= dmg)%R ->
  GameState.applyDmgToBoss dmg s = s.
Proof.
  intros H0 Hd. destruct s as [st g].
  unfold GameState.applyDmgToBoss, GameState.setState. cbn in *.
  f_equal. rewrite H0.
  replace (Rmax (0 - dmg) 0) with (GameState.bossHp st).
  - apply with_bossHp_same.
  - rewrite H0. unfold Rmax. destruct (Rle_dec (0 - dmg) 0); lra.
Qed.

Lemma hit_store (w : Game) :
  store (Character.hit w)
  = GameState.applyDmgToBoss
      (random w (randomCalls w) * (120 - 69) + 69) (store w).
Proof. reflexivity. Qed.

(** What the player's callback tests is the overlap of the specification,
    on what the mirror holds. *)
Lemma Character_collision_overlap (g : Global.t) (yaw : R) :
  Global.playerRotation g = Euler.new 0 yaw 0 ->
  Character.collision g = true
  <-> Spec.attackOverlaps (Global.playerPosition g) yaw
        (Global.playerAttackSphereOffset g) (Global.playerAttackSphereRadius g)
        (Global.bossPosition g) (Global.bossCollisionSphereOffset g)
        (Global.bossCollisionSphereRadius g).
Proof.
  intros Hrot.
  unfold Character.collision, Collision.didSpheresCollide,
    Character.playerAttackSpherePosition.
  rewrite Hrot, Evaluate.applyMatrix4_yaw, GeometryProps.distanceTo_euclidean.
  unfold Spec.attackOverlaps, Spec.spheresOverlap.
  apply GeometryProps.Rleb_true.
Qed.

(** What the boss's callback tests is the overlap of another sphere: the
    one whose Z is the position's less the turned offset's. *)
Lemma Boss_collision_overlap (g : Global.t) (yaw : R) :
  Global.bossRotation g = Euler.new 0 yaw 0 ->
  let turned := Spec.rotateByYaw yaw (Global.bossAttackSphereOffset g) in
  Boss.collision g = true
  <-> Spec.spheresOverlap
        (Vector3.new (Vector3.x (Global.bossPosition g) + Vector3.x turned)
                     (Vector3.y (Global.bossPosition g) + Vector3.y turned)
                     (Vector3.z (Global.bossPosition g) - Vector3.z turned))
        (Global.bossAttackSphereRadius g)
        (Vector3.add (Global.playerPosition g)
           (Global.playerCollisionSphereOffset g))
        (Global.playerCollisionSphereRadius g).
Proof.
  intros Hrot turned. subst turned.
  unfold Boss.collision, Collision.didSpheresCollide,
    Boss.bossAttackSpherePosition.
  rewrite Hrot, Evaluate.applyMatrix4_yaw, GeometryProps.distanceTo_euclidean.
  unfold Spec.spheresOverlap.
  apply GeometryProps.Rleb_true.
Qed.

Lemma applyDmgToBoss_setBossHp (dmg : R) (s : GameState.Store) :
  GameState.applyDmgToBoss dmg s
  = GameState.setBossHp
      (Rmax (GameState.bossHp (GameState.state s) - dmg) 0) s.
Proof. reflexivity. Qed.

(** The player's callback, for every world in which the mirror is there
    and says the boss is alive. *)
Lemma player_callback_resolution (w : Game) (g : Global.t) (yaw : R) :
  GameState.vibenRingGlobalState (store w) = Some g ->
  Global.playerRotation g = Euler.new 0 yaw 0 ->
  (0 < Global.bossHp g)%R ->
  (0 <= GameState.bossHp (GameState.state (store w)))%R ->
  (0 <= random w (randomCalls w) < 1)%R ->
  let hp := GameState.bossHp (GameState.state (store w)) in
  let dmg := (69 + 51 * random w (randomCalls w))%R in
  let overlap :=
    Spec.attackOverlaps (Global.playerPosition g) yaw
      (Global.playerAttackSphereOffset g) (Global.playerAttackSphereRadius g)
      (Global.bossPosition g) (Global.bossCollisionSphereOffset g)
      (Global.bossCollisionSphereRadius g) in
  (69 <= dmg < 120)%R
  /\ (overlap -> (0 < hp)%R ->
      store (Character.damageCallback w)
      = GameState.setBossHp (Rmax (hp - dmg) 0) (store w))
  /\ (~ (overlap /\ (0 < hp)%R) ->
      store (Character.damageCallback w) = store w)
  /\ (~ overlap -> Character.damageCallback w = w).
Proof.
  intros Hg Hrot Hmirror Hhp Hr hp dmg overlap.
  assert ((random w (randomCalls w) * (120 - 69) + 69)%R = dmg) as Hdmg
    by (subst dmg; ring).
  pose proof (Character_collision_overlap g yaw Hrot) as Hc. fold overlap in Hc.
  assert (Character.damageCallback w
          = if Character.collision g then Character.hit w else w) as Hcb.
  { unfold Character.damageCallback. rewrite Hg.
    apply GeometryProps.Rltb_true in Hmirror.
    rewrite Hmirror, andb_true_r. reflexivity. }
  split; [subst dmg; lra|]. split; [|split].
  - intros Ho Hpos. apply Hc in Ho.
    rewrite Hcb, Ho, hit_store, Hdmg. apply applyDmgToBoss_setBossHp.
  - intros Hno. rewrite Hcb.
    destruct (Character.collision g) eqn:E; [|reflexivity].
    rewrite hit_store, Hdmg. apply applyDmgToBoss_dead.
    + assert (overlap) as Ho by now apply Hc.
      fold hp. fold hp in Hhp.
      destruct (Rle_lt_dec hp 0) as [Hle|Hlt]; [lra|].
      exfalso. apply Hno. now split.
    + subst dmg. lra.
  - intros Hno. rewrite Hcb.
    destruct (Character.collision g) eqn:E; [|reflexivity].
    exfalso. apply Hno, Hc. reflexivity.
Qed.

(** The boss's callback, for every world in which the mirror is there. *)
Lemma boss_callback_resolution (w : Game) (g : Global.t) (yaw : R) :
  GameState.vibenRingGlobalState (store w) = Some g ->
  Global.bossRotation g = Euler.new 0 yaw 0 ->
  let turned := Spec.rotateByYaw yaw (Global.bossAttackSphereOffset g) in
  let tested :=
    Spec.spheresOverlap
      (Vector3.new (Vector3.x (Global.bossPosition g) + Vector3.x turned)
                   (Vector3.y (Global.bossPosition g) + Vector3.y turned)
                   (Vector3.z (Global.bossPosition g) - Vector3.z turned))
      (Global.bossAttackSphereRadius g)
      (Vector3.add (Global.playerPosition g)
         (Global.playerCollisionSphereOffset g))
      (Global.playerCollisionSphereRadius g) in
  let hp := Global.playerHp g in
  (tested -> (0 < hp)%R ->
   Boss.damageCallback w
   = onStore (GameState.setPlayerHp (Rmax 0 (hp - 10))) w)
  /\ (~ (tested /\ (0 < hp)%R) -> Boss.damageCallback w = w).
Proof.
  intros Hg Hrot turned tested hp.
  pose proof (Boss_collision_overlap g yaw Hrot) as Hc.
  cbn zeta in Hc. fold turned in Hc. fold tested in Hc.
  unfold Boss.damageCallback. rewrite Hg. fold hp. split.
  - intros Ht Hpos. apply Hc in Ht. apply GeometryProps.Rltb_true in Hpos.
    rewrite Ht, Hpos. reflexivity.
  - intros Hno.
    destruct (Boss.collision g) eqn:E; [|reflexivity].
    destruct (Rltb 0 hp) eqn:E2; [|reflexivity].
    exfalso. apply Hno. split; [now apply Hc|].
    now apply GeometryProps.Rltb_true.
Qed.

(** The boss 10 units in front of the player and facing it: position plus
    turned offset puts its attack sphere on the player. *)
Lemma bossFacing_overlaps :
  Spec.bossAttackOverlaps (GameState.state (store Scenario.bossFacing)).
Proof.
  unfold Spec.bossAttackOverlaps, Spec.attackOverlaps, Spec.spheresOverlap,
    Spec.attackSphereWorldPosition, Spec.rotateByYaw, Spec.euclideanDistance,
    Vector3.add.
  cbn. rewrite cos_PI, sin_PI.
  apply Evaluate.sqrt_le_of_sq; lra.
Qed.

(** There the callback tests a sphere 20 units behind the player. *)
Lemma bossFacing_misses :
  Boss.damageCallback Scenario.bossFacing = Scenario.bossFacing.
Proof.
  refine (proj2 (boss_callback_resolution Scenario.bossFacing _ PI
                   eq_refl eq_refl) _).
  intros [Ht _]. revert Ht.
  unfold Spec.spheresOverlap, Spec.rotateByYaw, Spec.euclideanDistance,
    Vector3.add.
  cbn. rewrite cos_PI, sin_PI. apply Rlt_not_le.
  apply Evaluate.sqrt_gt_of_sq; lra.
Qed.

(** At the start the boss is 20 units from the player: the player's attack
    sphere is nowhere near it. *)
Lemma atStart_apart :
  ~ Spec.playerAttackOverlaps (GameState.state (store Scenario.atStart)).
Proof.
  unfold Spec.playerAttackOverlaps, Spec.attackOverlaps, Spec.spheresOverlap,
    Spec.attackSphereWorldPosition, Spec.rotateByYaw, Spec.euclideanDistance,
    Vector3.add.
  cbn. rewrite cos_0, sin_0. apply Rlt_not_le.
  apply Evaluate.sqrt_gt_of_sq; lra.
Qed.

(** The mirror still has the boss at the origin, on the player. *)
Lemma atStart_mirror_overlaps (g : Global.t) :
  GameState.vibenRingGlobalState (store Scenario.atStart) = Some g ->
  Spec.attackOverlaps (Global.playerPosition g) 0
    (Global.playerAttackSphereOffset g) (Global.playerAttackSphereRadius g)
    (Global.bossPosition g) (Global.bossCollisionSphereOffset g)
    (Global.bossCollisionSphereRadius g).
Proof.
  intros Hg. injection Hg as <-.
  unfold Spec.attackOverlaps, Spec.spheresOverlap,
    Spec.attackSphereWorldPosition, Spec.rotateByYaw, Spec.euclideanDistance,
    Vector3.add.
  cbn. rewrite cos_0, sin_0.
  apply Evaluate.sqrt_le_of_sq; lra.
Qed.

(** C4.  Attack resolution against the overlap of the specification (attack
    sphere at the attacker's position plus the offset turned by its yaw,
    collision sphere at the defender's position plus its offset, spheres
    overlapping when the centres are no farther apart than the radii sum).
    The player's callback, on the positions the mirror holds and with the
    mirror saying the boss is alive: the damage is 69 plus 51 times the
    draw, in [69, 120); with overlap and the boss's health positive the
    store afterwards is the store with [bossHp] max(bossHp - damage, 0);
    otherwise the store is unchanged, and without overlap nothing at all
    changes.  The boss's callback tests another sphere, the one whose Z is
    the position's less the turned offset's: when that one overlaps and the
    player's health is positive the health becomes max(0, health - 10), and
    otherwise nothing changes.  So the claim fails for the boss: 10 units in
    front of the player and facing it, its attack sphere is on the player,
    the player's health is 100, and the callback changes nothing.  It fails
    for the player too while the mirror has not been told where the boss is:
    at the start the boss is 20 units away, and the callback takes 94.5
    from its health. *)
Theorem attack_resolution_on_mirror :
  (forall (w : Game) (g : Global.t) (yaw : R),
      GameState.vibenRingGlobalState (store w) = Some g ->
      Global.playerRotation g = Euler.new 0 yaw 0 ->
      (0 < Global.bossHp g)%R ->
      (0 <= GameState.bossHp (GameState.state (store w)))%R ->
      (0 <= random w (randomCalls w) < 1)%R ->
      let hp := GameState.bossHp (GameState.state (store w)) in
      let dmg := (69 + 51 * random w (randomCalls w))%R in
      let overlap :=
        Spec.attackOverlaps (Global.playerPosition g) yaw
          (Global.playerAttackSphereOffset g)
          (Global.playerAttackSphereRadius g)
          (Global.bossPosition g) (Global.bossCollisionSphereOffset g)
          (Global.bossCollisionSphereRadius g) in
      (69 <= dmg < 120)%R
      /\ (overlap -> (0 < hp)%R ->
          store (Character.damageCallback w)
          = GameState.setBossHp (Rmax (hp - dmg) 0) (store w))
      /\ (~ (overlap /\ (0 < hp)%R) ->
          store (Character.damageCallback w) = store w)
      /\ (~ overlap -> Character.damageCallback w = w))
  /\ (forall (w : Game) (g : Global.t) (yaw : R),
         GameState.vibenRingGlobalState (store w) = Some g ->
         Global.bossRotation g = Euler.new 0 yaw 0 ->
         let turned :=
           Spec.rotateByYaw yaw (Global.bossAttackSphereOffset g) in
         let tested :=
           Spec.spheresOverlap
             (Vector3.new
                (Vector3.x (Global.bossPosition g) + Vector3.x turned)
                (Vector3.y (Global.bossPosition g) + Vector3.y turned)
                (Vector3.z (Global.bossPosition g) - Vector3.z turned))
             (Global.bossAttackSphereRadius g)
             (Vector3.add (Global.playerPosition g)
                (Global.playerCollisionSphereOffset g))
             (Global.playerCollisionSphereRadius g) in
         let hp := Global.playerHp g in
         (tested -> (0 < hp)%R ->
          Boss.damageCallback w
          = onStore (GameState.setPlayerHp (Rmax 0 (hp - 10))) w)
         /\ (~ (tested /\ (0 < hp)%R) -> Boss.damageCallback w = w))
  /\ (Invariants.inStep (store Scenario.bossFacing)
      /\ Spec.bossAttackOverlaps (GameState.state (store Scenario.bossFacing))
      /\ GameState.playerHp (GameState.state (store Scenario.bossFacing))
         = 100%R
      /\ Boss.damageCallback Scenario.bossFacing = Scenario.bossFacing)
  /\ (~ Spec.playerAttackOverlaps (GameState.state (store Scenario.atStart))
      /\ GameState.bossHp (GameState.state (store Scenario.atStart)) = 2000%R
      /\ GameState.bossHp
           (GameState.state
              (store (Character.damageCallback Scenario.atStart)))
         = (2000 - 945 / 10)%R).
Proof.
  split; [exact player_callback_resolution|].
  split; [exact boss_callback_resolution|]. split.
  - split; [|split; [exact bossFacing_overlaps|split]].
    + eexists. split; [reflexivity|]. cbn. now repeat split.
    + reflexivity.
    + exact bossFacing_misses.
  - split; [exact atStart_apart|]. split; [reflexivity|].
    destruct (player_callback_resolution Scenario.atStart _ 0 eq_refl eq_refl)
      as (_ & Hhit & _); [cbn; lra|cbn; lra|cbn; lra|].
    rewrite Hhit.
    + cbn. unfold Rmax. destruct (Rle_dec _ _); lra.
    + exact (atStart_mirror_overlaps _ eq_refl).
    + cbn. lra.
Qed.

(** The centres of the player's attack sphere and of the boss's collision
    sphere 5 apart, as the specification places them. *)
Lemma fiveApart_overlap (r : R) (g : Global.t) :
  GameState.vibenRingGlobalState (store (Scenario.fiveApart r)) = Some g ->
  Spec.attackOverlaps (Global.playerPosition g) 0
    (Global.playerAttackSphereOffset g) (Global.playerAttackSphereRadius g)
    (Global.bossPosition g) (Global.bossCollisionSphereOffset g)
    (Global.bossCollisionSphereRadius g)
  <-> (5 <= r + 2)%R.
Proof.
  intros Hg. injection Hg as <-.
  unfold Spec.attackOverlaps, Spec.spheresOverlap,
    Spec.attackSphereWorldPosition, Spec.rotateByYaw, Spec.euclideanDistance,
    Vector3.add.
  cbn [Global.playerPosition Global.playerAttackSphereOffset
       Global.playerAttackSphereRadius Global.bossPosition
       Global.bossCollisionSphereOffset Global.bossCollisionSphereRadius
       Vector3.x Vector3.y Vector3.z].
  rewrite cos_0, sin_0.
  match goal with
  | |- (sqrt ?e <= _)%R <-> _ => replace e with (5 * 5)%R by field
  end.
  rewrite sqrt_square by lra. reflexivity.
Qed.

(** Centres 5 apart: with radii summing to 4 nothing changes; with radii
    summing to 6 the boss's health drops by 69 + 51 / 2. *)
Lemma attack_resolution_witness :
  Character.damageCallback (Scenario.fiveApart 2) = Scenario.fiveApart 2
  /\ store (Character.damageCallback (Scenario.fiveApart 4))
     = GameState.setBossHp (Rmax (2000 - (69 + 51 * (1 / 2))) 0)
         (store (Scenario.fiveApart 4)).
Proof.
  split.
  - refine (proj2 (proj2 (proj2 (proj1 attack_resolution_on_mirror
              (Scenario.fiveApart 2) _ 0%R eq_refl eq_refl _ _ _))) _).
    + cbn. lra.
    + cbn. lra.
    + cbn. lra.
    + intros H. apply (fiveApart_overlap 2 _ eq_refl) in H. lra.
  - refine (proj1 (proj2 (proj1 attack_resolution_on_mirror
              (Scenario.fiveApart 4) _ 0%R eq_refl eq_refl _ _ _)) _ _).
    + cbn. lra.
    + cbn. lra.
    + cbn. lra.
    + apply (fiveApart_overlap 4 _ eq_refl). lra.
    + cbn. lra.
Defined.

End CombatProps.

(* ================================================================= *)
(** ** Timers, completion signals and the attacking flags *)

Module TimerProps.

Import BehaviorTree World Events Decisions.

(** *** The queue *)

Lemma enqueue_In (due : Z) (k : Timeout) (q : list (Z * Timeout))
  (x : Z * Timeout) :
  In x (enqueue due k q) <-> x = (due, k) \/ In x q.
Proof.
  induction q as [|[d k'] q IH]; simpl.
  - intuition.
  - destruct (d <=? due)%Z; simpl; rewrite ?IH; intuition.
Qed.

Lemma enqueue_ordered (due : Z) (k : Timeout) (q : list (Z * Timeout)) :
  ordered q -> ordered (enqueue due k q).
Proof.
  induction q as [|[d k'] q IH]; simpl; intros H.
  - split; [constructor|exact I].
  - destruct H as [Hd Hq]. destruct (d <=? due)%Z eqn:E.
    + apply Z.leb_le in E. simpl. split; [|now apply IH].
      apply Forall_forall. intros x Hx. apply enqueue_In in Hx.
      destruct Hx as [-> | Hx]; [exact E|].
      rewrite Forall_forall in Hd. now apply Hd.
    + apply Z.leb_gt in E. simpl. split; [|split; assumption].
      constructor; [simpl; lia|].
      rewrite Forall_forall in *. intros x Hx. specialize (Hd x Hx). lia.
Qed.

(** *** What the callbacks of the timers leave alone *)

Lemma fire_timeouts (k : Timeout) (w : Game) :
  timeouts (fire k w) = timeouts w.
Proof.
  destruct k; simpl.
  - unfold Boss.damageCallback.
    destruct (GameState.vibenRingGlobalState (store w)); [|reflexivity].
    destruct (_ && _); reflexivity.
  - unfold Character.damageCallback.
    destruct (GameState.vibenRingGlobalState (store w));
      destruct (_ && _); reflexivity.
  - unfold Character.backupTimeout.
    destruct (negb (isAttackingRef w)); reflexivity.
Qed.

Lemma fire_bossAIRef (k : Timeout) (w : Game) :
  bossAIRef (fire k w) = bossAIRef w.
Proof.
  destruct k; simpl.
  - unfold Boss.damageCallback.
    destruct (GameState.vibenRingGlobalState (store w)); [|reflexivity].
    destruct (_ && _); reflexivity.
  - unfold Character.damageCallback.
    destruct (GameState.vibenRingGlobalState (store w));
      destruct (_ && _); reflexivity.
  - unfold Character.backupTimeout.
    destruct (negb (isAttackingRef w)); reflexivity.
Qed.

(** No callback of a timer sets the player's flag. *)
Lemma fire_keeps_clear (k : Timeout) (w : Game) :
  isAttackingRef w = false -> isAttackingRef (fire k w) = false.
Proof.
  intros H. destruct k; simpl.
  - unfold Boss.damageCallback.
    destruct (GameState.vibenRingGlobalState (store w)); [|exact H].
    destruct (_ && _); exact H.
  - unfold Character.damageCallback.
    destruct (GameState.vibenRingGlobalState (store w));
      destruct (_ && _); exact H.
  - unfold Character.backupTimeout. rewrite H. exact H.
Qed.

(** The backup timeout leaves the player's flag clear, whatever it was. *)
Lemma backupTimeout_clears (listener : Z) (w : Game) :
  isAttackingRef (Character.backupTimeout listener w) = false.
Proof.
  unfold Character.backupTimeout.
  destruct (isAttackingRef w) eqn:E; simpl; [reflexivity|exact E].
Qed.

(** *** Firing the due timers *)

Lemma fireDue_keeps_clear (n : nat) (t : Z) :
  forall w : Game,
    isAttackingRef w = false -> isAttackingRef (fireDue n t w) = false.
Proof.
  induction n as [|n IH]; intros w H; simpl; [exact H|].
  destruct (timeouts w) as [|[due k] q]; [exact H|].
  destruct (due <=? t)%Z; [|exact H].
  apply IH. apply fire_keeps_clear. exact H.
Qed.

Lemma fireDue_bossAIRef (n : nat) (t : Z) :
  forall w : Game, bossAIRef (fireDue n t w) = bossAIRef w.
Proof.
  induction n as [|n IH]; intros w; simpl; [reflexivity|].
  destruct (timeouts w) as [|[due k] q]; [reflexivity|].
  destruct (due <=? t)%Z; [|reflexivity].
  rewrite IH, fire_bossAIRef. reflexivity.
Qed.

Lemma fireDue_ordered (n : nat) (t : Z) :
  forall w : Game,
    ordered (timeouts w) -> ordered (timeouts (fireDue n t w)).
Proof.
  induction n as [|n IH]; intros w H; simpl; [exact H|].
  destruct (timeouts w) as [|[due k] q] eqn:E; [now rewrite E|].
  destruct (due <=? t)%Z; [|now rewrite E].
  apply IH. rewrite fire_timeouts. simpl. apply H.
Qed.

(** A timer that is not yet due stays in the queue. *)
Lemma fireDue_keeps (n : nat) (t : Z) (x : Z * Timeout) :
  forall w : Game,
    (t < fst x)%Z -> In x (timeouts w) -> In x (timeouts (fireDue n t w)).
Proof.
  induction n as [|n IH]; intros w Hx H; simpl; [exact H|].
  destruct (timeouts w) as [|[due k] q] eqn:E; [now rewrite E|].
  destruct (due <=? t)%Z eqn:Ed; [|now rewrite E].
  apply IH; [exact Hx|]. rewrite fire_timeouts. simpl.
  destruct H as [<- | H]; [|exact H].
  apply Z.leb_le in Ed. simpl in Hx. lia.
Qed.

(** The bound on the timers fired is enough: after [elapse t] no timer due
    by [t] is left in the queue. *)
Lemma fireDue_exhausts (n : nat) (t : Z) :
  forall w : Game,
    length (timeouts w) <= n ->
    ordered (timeouts w) ->
    Forall (fun e => (t < fst e)%Z) (timeouts (fireDue n t w)).
Proof.
  induction n as [|n IH]; intros w Hn Ho.
  - simpl. destruct (timeouts w); [constructor|simpl in Hn; lia].
  - simpl. destruct (timeouts w) as [|[due k] q] eqn:E.
    + rewrite E. constructor.
    + simpl in Hn, Ho. destruct Ho as [Hall Ho].
      destruct (due <=? t)%Z eqn:Ed.
      * apply IH; rewrite fire_timeouts; simpl; [lia|exact Ho].
      * apply Z.leb_gt in Ed. rewrite E. constructor; [simpl; lia|].
        rewrite Forall_forall in *. intros x Hx. specialize (Hall x Hx). lia.
Qed.

Lemma elapse_exhausts (t : Z) (w : Game) :
  ordered (timeouts w) ->
  Forall (fun e => (t < fst e)%Z) (timeouts (elapse t w)).
Proof.
  intros Ho. unfold elapse. simpl.
  apply fireDue_exhausts; [apply Nat.le_refl|exact Ho].
Qed.

(** A backup timeout that is due fires, and the flag is clear after the
    timers have fired. *)
Lemma fireDue_backup (n : nat) (t d listener : Z) :
  forall w : Game,
    length (timeouts w) <= n ->
    ordered (timeouts w) ->
    In (d, PlayerBackup listener) (timeouts w) ->
    (d <= t)%Z ->
    isAttackingRef (fireDue n t w) = false.
Proof.
  induction n as [|n IH]; intros w Hn Ho Hin Hd.
  - destruct (timeouts w); [destruct Hin|simpl in Hn; lia].
  - simpl. destruct (timeouts w) as [|[due k] q] eqn:E; [destruct Hin|].
    simpl in Ho, Hn. destruct Ho as [Hall Ho].
    assert (due <= d)%Z as Hdue.
    { destruct Hin as [Heq | Hin]; [injection Heq; lia|].
      rewrite Forall_forall in Hall. exact (Hall _ Hin). }
    replace (due <=? t)%Z with true by (symmetry; apply Z.leb_le; lia).
    destruct Hin as [Heq | Hin].
    + injection Heq as -> ->. apply fireDue_keeps_clear.
      simpl. apply backupTimeout_clears.
    + apply IH; rewrite ?fire_timeouts; simpl; try assumption; lia.
Qed.

(** *** A frame of the boss *)

(** What holds of the world before a frame holds after it, when the few
    writes a tick can make keep it. *)
Lemma useFrame_preserves (P : Game -> Prop) :
  (forall w, P w -> P (Boss.modifyAI (BossAI.with_isAttacking true) w)) ->
  (forall t w, P w -> P (Boss.modifyAI (BossAI.with_lastAttackTime t) w)) ->
  (forall a w, P w -> P (Boss.modifyAI (BossAI.with_currentAction a) w)) ->
  (forall p w, P w -> P (onStore (GameState.setBossPosition p) w)) ->
  (forall r w, P w -> P (onStore (GameState.setBossRotation r) w)) ->
  (forall w, P w -> P (Boss.triggerBossAttack w)) ->
  (forall t w, P w -> P (with_lastAIUpdateTimeRef t w)) ->
  forall (delta : R) (w : Game), P w -> P (Boss.useFrame delta w).
Proof.
  intros Hatt Hlast Hact Hpos Hrot Htrig Hupd delta w Hw.
  unfold Boss.useFrame.
  destruct (_ <? _)%Z; [|exact Hw].
  destruct (Rltb _ _); [|now apply Hupd].
  set (w1 := with_lastAIUpdateTimeRef (clock w) w).
  assert (P w1) as H1 by now apply Hupd.
  change (P (snd (outcome (execute (Boss.behaviorTree w1 delta) w1)))).
  unfold Boss.behaviorTree. rewrite TickProps.tick_cases.
  destruct (_ && _).
  - destruct (BossAI.isAttacking (bossAIRef w1)); [exact H1|].
    cbn [snd]. apply Htrig. unfold attacking. now apply Hact, Hlast, Hatt.
  - destruct (facing _).
    + TickProps.tick.
      destruct (BossAI.isAttacking (bossAIRef w1)); [exact H1|].
      destruct (Rleb _ _); cbn [snd]; [now apply Hact|].
      now apply Hact, Hpos.
    + TickProps.tick. now apply Hact, Hrot.
Qed.

Lemma triggerBossAttack_queue (Q : list (Z * Timeout) -> Prop) (w : Game) :
  (forall due k q, Q q -> Q (enqueue due k q)) ->
  Q (timeouts w) -> Q (timeouts (Boss.triggerBossAttack w)).
Proof.
  intros HQ H. unfold Boss.triggerBossAttack.
  destruct (negb (bossAttackLoaded w)); [exact H|]. simpl. now apply HQ.
Qed.

Lemma boss_dispatchFinished_timeouts (w : Game) :
  timeouts (Boss.dispatchFinished w) = timeouts w.
Proof.
  unfold Boss.dispatchFinished.
  generalize (bossFinishedListeners w) as n.
  induction n as [|n IH]; simpl; [reflexivity|exact IH].
Qed.

Lemma player_dispatchFinished_timeouts (w : Game) :
  timeouts (Character.dispatchFinished w) = timeouts w.
Proof.
  unfold Character.dispatchFinished.
  generalize (playerFinishedListeners w) as ls. intros ls. revert w.
  induction ls as [|l ls IH]; intros w; simpl; [reflexivity|].
  rewrite IH. reflexivity.
Qed.

(** *** Events *)

(** A property of the queue that adding a timer keeps is kept by every
    event but the passing of time. *)
Lemma step_queue (Q : list (Z * Timeout) -> Prop) (e : Event) (w : Game) :
  (forall due k q, Q q -> Q (enqueue due k q)) ->
  (forall t, e <> Elapse t) ->
  Q (timeouts w) -> Q (timeouts (step e w)).
Proof.
  intros HQ He H. destruct e as [t|delta|button| |]; simpl.
  - now destruct (He t).
  - apply (useFrame_preserves (fun w => Q (timeouts w))); try (intros; assumption).
    intros w0 H0. now apply triggerBossAttack_queue.
  - unfold Character.handleMouseClick.
    destruct (negb _); [exact H|]. destruct (_ || _); [exact H|].
    simpl. now apply HQ, HQ.
  - now rewrite boss_dispatchFinished_timeouts.
  - now rewrite player_dispatchFinished_timeouts.
Qed.

Lemma step_ordered (e : Event) (w : Game) :
  ordered (timeouts w) -> ordered (timeouts (step e w)).
Proof.
  intros H. destruct e as [t| | | |];
    try (apply (step_queue ordered); [exact enqueue_ordered|discriminate|exact H]).
  simpl. unfold elapse. simpl. now apply fireDue_ordered.
Qed.

Lemma step_keeps (d : Z) (k : Timeout) (e : Event) (w : Game) :
  before d e ->
  In (d, k) (timeouts w) -> In (d, k) (timeouts (step e w)).
Proof.
  intros Hb H. destruct e as [t| | | |];
    try (apply (step_queue (In (d, k)));
         [intros; apply enqueue_In; now right|discriminate|exact H]).
  simpl. unfold elapse. simpl. apply fireDue_keeps; [exact Hb|exact H].
Qed.

Lemma run_keeps (d : Z) (k : Timeout) (es : list Event) :
  forall w : Game,
    Forall (before d) es ->
    ordered (timeouts w) -> In (d, k) (timeouts w) ->
    ordered (timeouts (run es w)) /\ In (d, k) (timeouts (run es w)).
Proof.
  induction es as [|e es IH]; intros w Hes Ho Hin; [now split|].
  inversion Hes; subst. simpl. apply IH; [assumption| |].
  - now apply step_ordered.
  - now apply step_keeps.
Qed.

(** Every state the game reaches from its start has its timers in order. *)
Lemma run_ordered (es : list Event) :
  forall w : Game, ordered (timeouts w) -> ordered (timeouts (run es w)).
Proof.
  induction es as [|e es IH]; intros w H; [exact H|].
  simpl. apply IH. now apply step_ordered.
Qed.

(** *** The boss's flag *)

Lemma step_keeps_attacking (e : Event) (w : Game) :
  e <> BossAttackFinished ->
  BossAI.isAttacking (bossAIRef w) = true ->
  BossAI.isAttacking (bossAIRef (step e w)) = true.
Proof.
  intros He H. destruct e as [t|delta|button| |]; simpl.
  - unfold elapse. simpl. now rewrite fireDue_bossAIRef.
  - apply (useFrame_preserves
             (fun w => BossAI.isAttacking (bossAIRef w) = true));
      try (intros; assumption); try reflexivity.
    intros w0 H0. now rewrite TickProps.triggerBossAttack_bossAIRef.
  - unfold Character.handleMouseClick.
    destruct (negb _); [exact H|]. destruct (_ || _); exact H.
  - now destruct He.
  - unfold Character.dispatchFinished.
    generalize (playerFinishedListeners w) at 1 as ls. intros ls. revert w H.
    induction ls as [|l ls IH]; intros w H; simpl; [exact H|]. now apply IH.
Qed.

Lemma run_keeps_attacking (es : list Event) :
  forall w : Game,
    Forall (fun e => e <> BossAttackFinished) es ->
    BossAI.isAttacking (bossAIRef w) = true ->
    BossAI.isAttacking (bossAIRef (run es w)) = true.
Proof.
  induction es as [|e es IH]; intros w Hes H; [exact H|].
  inversion Hes; subst. simpl. apply IH; [assumption|].
  now apply step_keeps_attacking.
Qed.

Lemma boss_onFinished_clears (n : nat) :
  forall w : Game,
    (0 < n)%nat ->
    BossAI.isAttacking (bossAIRef (Nat.iter n Boss.onFinished w)) = false.
Proof.
  destruct n as [|n]; intros w H; [lia|]. reflexivity.
Qed.

(** *** The attack callbacks find what they rely on *)

Lemma coherent_same_store (w w' : Game) :
  store w' = store w -> random w' = random w -> coherent w -> coherent w'.
Proof. unfold coherent. intros -> ->. exact (fun H => H). Qed.

Lemma coherent_moved (f : GameState.Store -> GameState.Store) (w : Game) :
  (forall s,
      GameState.bossHp (GameState.state (f s))
      = GameState.bossHp (GameState.state s)
      /\ GameState.playerHp (GameState.state (f s))
         = GameState.playerHp (GameState.state s)
      /\ option_map Global.bossHp (GameState.vibenRingGlobalState (f s))
         = option_map Global.bossHp (GameState.vibenRingGlobalState s)
      /\ option_map Global.playerHp (GameState.vibenRingGlobalState (f s))
         = option_map Global.playerHp (GameState.vibenRingGlobalState s)) ->
  coherent w -> coherent (onStore f w).
Proof.
  intros Hf [Hr (g & Hg & Hb & Hp & H0)].
  destruct (Hf (store w)) as (F1 & F2 & F3 & F4).
  split; [exact Hr|]. simpl. rewrite Hg in F3, F4.
  destruct (GameState.vibenRingGlobalState (f (store w))) as [g'|];
    [|discriminate].
  simpl in F3, F4. exists g'. split; [reflexivity|].
  rewrite F1, F2. repeat split; congruence.
Qed.

Lemma fire_coherent (k : Timeout) (w : Game) :
  coherent w -> coherent (fire k w).
Proof.
  intros H. destruct k; simpl.
  - unfold Boss.damageCallback.
    destruct H as [Hr (g & Hg & Hb & Hp & H0)]. rewrite Hg.
    destruct (_ && _); [|split; [exact Hr|now exists g]].
    split; [exact Hr|]. simpl. rewrite Hg. simpl.
    eexists. split; [reflexivity|]. simpl. repeat split; assumption.
  - assert (coherent (Character.hit w)) as Hhit.
    { destruct H as [Hr (g & Hg & Hb & Hp & H0)].
      split; [exact Hr|]. exists g. simpl. repeat split; try assumption.
      apply Rmax_r. }
    unfold Character.damageCallback.
    destruct (GameState.vibenRingGlobalState (store w));
      destruct (_ && _); assumption.
  - unfold Character.backupTimeout.
    destruct (negb (isAttackingRef w)); [exact H|].
    now apply (coherent_same_store w).
Qed.

Lemma fireDue_coherent (n : nat) (t : Z) :
  forall w : Game, coherent w -> coherent (fireDue n t w).
Proof.
  induction n as [|n IH]; intros w H; simpl; [exact H|].
  destruct (timeouts w) as [|[due k] q]; [exact H|].
  destruct (due <=? t)%Z; [|exact H].
  apply IH, fire_coherent. now apply (coherent_same_store w).
Qed.

Lemma step_coherent (e : Event) (w : Game) :
  coherent w -> coherent (step e w).
Proof.
  intros H. destruct e as [t|delta|button| |]; simpl.
  - unfold elapse.
    apply (coherent_same_store (fireDue (length (timeouts w)) t w));
      [reflexivity|reflexivity|]. now apply fireDue_coherent.
  - apply (useFrame_preserves coherent); try exact H;
      try (intros; now apply (coherent_same_store w0)).
    + intros p w0 H0. apply coherent_moved; [|exact H0].
      intros [st [g|]]; repeat split.
    + intros r w0 H0. apply coherent_moved; [|exact H0].
      intros [st [g|]]; repeat split.
    + intros w0 H0. unfold Boss.triggerBossAttack.
      destruct (negb _); [exact H0|]. now apply (coherent_same_store w0).
  - unfold Character.handleMouseClick.
    destruct (negb _); [exact H|]. destruct (_ || _); [exact H|].
    now apply (coherent_same_store w).
  - unfold Boss.dispatchFinished.
    generalize (bossFinishedListeners w) as n.
    induction n as [|n IH]; simpl; [exact H|].
    now apply (coherent_same_store (Nat.iter n Boss.onFinished w)).
  - unfold Character.dispatchFinished.
    generalize (playerFinishedListeners w) at 1 as ls. intros ls.
    revert w H. induction ls as [|l ls IH]; intros w H; simpl; [exact H|].
    apply IH. now apply (coherent_same_store w).
Qed.

(** Every state a game reaches from its start is coherent and has its
    timers in order. *)
Lemma run_coherent (es : list Event) (origin : Z) (rnd : nat -> R) :
  (forall n, 0 <= rnd n < 1)%R ->
  coherent (run es (start origin rnd))
  /\ ordered (timeouts (run es (start origin rnd))).
Proof.
  intros Hr. split; [|apply run_ordered; exact I].
  assert (coherent (start origin rnd)) as H.
  { split; [exact Hr|]. simpl. eexists. split; [reflexivity|].
    simpl. repeat split; lra. }
  revert H. generalize (start origin rnd) as w.
  induction es as [|e es IH]; intros w H; [exact H|].
  simpl. apply IH. now apply step_coherent.
Qed.

(** *** The player's flag *)

(** A click that starts an attack sets the backup timeout, 700 ms ahead. *)
Lemma handleMouseClick_starts (w : Game) :
  isAttackingRef w = false ->
  isAttackingRef (Character.handleMouseClick 0 w) = true ->
  timeouts (Character.handleMouseClick 0 w)
  = enqueue (clock w + 700) (PlayerBackup (Date_now w))
      (enqueue (clock w + 500) PlayerDamage (timeouts w)).
Proof.
  intros H0 H1. unfold Character.handleMouseClick in *. simpl in *.
  destruct (_ || _); [congruence|reflexivity].
Qed.

(** C9 as stated fails for the boss.  In [Scenario.attackStarted] the boss
    has started an attack at time 0; with no completion signal its flag is
    still set at 700 ms, and a minute of frames later. *)
Lemma boss_flag_stays_set :
  BossAI.isAttacking (bossAIRef Scenario.attackStarted) = true
  /\ BossAI.isAttacking
       (bossAIRef (run [Elapse 700] Scenario.attackStarted)) = true
  /\ BossAI.isAttacking
       (bossAIRef
          (run [Elapse 700; BossFrame Scenario.frameDelta; Elapse 60000;
                BossFrame Scenario.frameDelta]
             Scenario.attackStarted)) = true.
Proof.
  assert (BossAI.isAttacking (bossAIRef Scenario.attackStarted) = true) as H.
  { rewrite TickProps.attackStarted_eq. reflexivity. }
  split; [exact H|].
  split; (apply run_keeps_attacking; [|exact H]);
    repeat constructor; discriminate.
Qed.

(** C9, amended.  For the player: when a click starts an attack, a backup
    timeout is set 700 ms ahead, and whatever happens in between (frames,
    clicks, completion signals or none, time passing), once 700 ms have
    passed since the click the player's flag is clear.  For the boss there
    is no such timeout: its flag is cleared when the attack animation's
    completion signal reaches a listener, and for as long as that signal
    does not arrive the flag stays set, whatever else happens. *)
Theorem attack_flag_release :
  (forall (w : Game) (es : list Event),
      ordered (timeouts w) ->
      isAttackingRef w = false ->
      isAttackingRef (Character.handleMouseClick 0 w) = true ->
      Forall (before (clock w + 700)) es ->
      In (clock w + 700, PlayerBackup (Date_now w))%Z
         (timeouts (Character.handleMouseClick 0 w))
      /\ isAttackingRef
           (elapse (clock w + 700)
              (run es (Character.handleMouseClick 0 w))) = false)
  /\ (forall w : Game,
         (0 < bossFinishedListeners w)%nat ->
         BossAI.isAttacking (bossAIRef (Boss.dispatchFinished w)) = false)
  /\ (forall (w : Game) (es : list Event),
         BossAI.isAttacking (bossAIRef w) = true ->
         Forall (fun e => e <> BossAttackFinished) es ->
         BossAI.isAttacking (bossAIRef (run es w)) = true).
Proof.
  split; [|split].
  - intros w es Ho H0 H1 Hes.
    pose proof (handleMouseClick_starts w H0 H1) as Hq.
    assert (In (clock w + 700, PlayerBackup (Date_now w))%Z
              (timeouts (Character.handleMouseClick 0 w))) as Hin.
    { rewrite Hq. apply enqueue_In. now left. }
    split; [exact Hin|].
    destruct (run_keeps (clock w + 700) (PlayerBackup (Date_now w)) es
                (Character.handleMouseClick 0 w) Hes) as [Ho' Hin'].
    { rewrite Hq. now apply enqueue_ordered, enqueue_ordered. }
    { exact Hin. }
    unfold elapse. simpl.
    apply (fireDue_backup _ _ (clock w + 700) (Date_now w));
      [apply Nat.le_refl|exact Ho'|exact Hin'|apply Z.le_refl].
  - intros w H. unfold Boss.dispatchFinished.
    now apply boss_onFinished_clears.
  - intros w es H Hes. now apply run_keeps_attacking.
Qed.

(** At the start of a game: a click, then a frame, 300 ms, another click,
    350 ms more; at 700 ms the flag is clear without any completion
    signal. *)
Lemma attack_flag_release_witness :
  isAttackingRef
    (elapse 700
       (run [BossFrame Scenario.frameDelta; Elapse 300; MouseDown 0;
             Elapse 650]
          (Character.handleMouseClick 0
             (start 1700000000000 (fun _ => 0%R))))) = false.
Proof.
  refine (proj2 (proj1 attack_flag_release
                   (start 1700000000000 (fun _ => 0%R))
                   [BossFrame Scenario.frameDelta; Elapse 300; MouseDown 0;
                    Elapse 650] _ _ _ _)).
  - exact I.
  - reflexivity.
  - reflexivity.
  - repeat constructor; simpl; lia.
Defined.

End TimerProps.

(* ================================================================= *)
(** ** The call site of [setPlayerHp] *)

Module CallSiteProps.

Import World.

Lemma bossStrikes_collision (g : Global.t) :
  GameState.vibenRingGlobalState (store Scenario.bossStrikes) = Some g ->
  Boss.collision g = true.
Proof.
  intros Hg. injection Hg as <-.
  unfold Boss.collision, Collision.didSpheresCollide,
    Boss.bossAttackSpherePosition.
  cbn [Global.bossRotation Global.with_bossPosition].
  rewrite Evaluate.applyMatrix4_yaw.
  apply GeometryProps.Rleb_true.
  unfold Spec.rotateByYaw, Boss.playerCollisionSpherePosition,
    Vector3.distanceTo, Vector3.distanceToSquared.
  cbn. rewrite cos_0, sin_0.
  apply Evaluate.sqrt_le_of_sq; lra.
Qed.

(** In [Scenario.bossStrikes] the boss's callback hits: it stores
    max(0, 100 - 10). *)
Lemma setPlayerHp_witness :
  Boss.damageCallback Scenario.bossStrikes
  = onStore (GameState.setPlayerHp (Rmax 0 (100 - 10))) Scenario.bossStrikes.
Proof.
  refine (proj2 (proj2 (proj2 (proj2
            (GameStateProps.setPlayerHp_verbatim 0 GameState.mount))))
            Scenario.bossStrikes _ eq_refl _ _).
  - exact (bossStrikes_collision _ eq_refl).
  - cbn. lra.
Defined.

End CallSiteProps.

(* ================================================================= *)
(** ** More on the behavior-tree engine *)

Module TreeProps.

Import BehaviorTree TreeShape.

Section Engine.

Context {W : Type}.

(** Induction on a tree, with the property known of every child. *)
Lemma node_induction (P : BehaviorNode W -> Prop) :
  (forall type action, P (LeafNode type action)) ->
  (forall type children currentChild,
      Forall P children -> P (CompositeNode type children currentChild)) ->
  forall n, P n.
Proof.
  intros Hleaf Hcomp. fix rec 1. intros [type action|type children cur].
  - apply Hleaf.
  - apply Hcomp. induction children as [|c cs IH]; constructor;
      [apply rec|exact IH].
Qed.

Lemma entry_cursor_fresh (children : list (BehaviorNode W)) :
  entry_cursor children 0 = 0.
Proof. unfold entry_cursor. destruct (length children <=? 0); reflexivity. Qed.

Lemma entry_cursor_valid (children : list (BehaviorNode W)) (cur : nat) :
  entry_cursor children cur = 0 \/ entry_cursor children cur < length children.
Proof.
  unfold entry_cursor. destruct (length children <=? cur) eqn:E; [now left|].
  right. now apply Nat.leb_gt in E.
Qed.

(** *** What a tick keeps *)

Section Loop.

Variable N : Type.
Variable exec : N -> W -> NodeStatus * N * W.

Lemma loopShape_skip (c : N) (rest rest' : list N) (i cur cur' : nat)
  (status : NodeStatus) (w' : W) :
  i < cur ->
  loopShape rest (S i) cur (status, rest', cur', w') ->
  loopShape (c :: rest) i cur (status, c :: rest', cur', w').
Proof.
  intros Hlt (Hlen & Hpre & Hrun & Hdone).
  split; [simpl; now rewrite Hlen|]. split.
  { replace (cur - i) with (S (cur - S i)) by lia. simpl. now rewrite Hpre. }
  split; [|exact Hdone].
  intros H. destruct (Hrun H) as (H1 & H2 & H3).
  split; [lia|]. split; [simpl; lia|].
  replace (cur' - i) with (S (cur' - S i)) by lia. exact H3.
Qed.

Lemma loopShape_next (c c' : N) (rest rest' : list N) (i cur' : nat)
  (status : NodeStatus) (w' : W) :
  loopShape rest (S i) (S i) (status, rest', cur', w') ->
  loopShape (c :: rest) i i (status, c' :: rest', cur', w').
Proof.
  intros (Hlen & Hpre & Hrun & Hdone).
  split; [simpl; now rewrite Hlen|]. split; [now rewrite Nat.sub_diag|].
  split; [|exact Hdone].
  intros H. destruct (Hrun H) as (H1 & H2 & H3).
  split; [lia|]. split; [simpl; lia|].
  replace (cur' - i) with (S (cur' - S i)) by lia. exact H3.
Qed.

Lemma loopShape_stop (c c' : N) (rest : list N) (i : nat)
  (status : NodeStatus) (w' : W) :
  status <> RUNNING ->
  loopShape (c :: rest) i i (status, c' :: rest, 0, w').
Proof.
  intros H. split; [reflexivity|]. split; [now rewrite Nat.sub_diag|].
  split; [intros; congruence|reflexivity].
Qed.

Lemma loopShape_running (c c' : N) (rest : list N) (i : nat) (w' : W) :
  loopShape (c :: rest) i i (RUNNING, c' :: rest, i, w').
Proof.
  split; [reflexivity|]. split; [now rewrite Nat.sub_diag|].
  split; [|intros; congruence].
  intros _. split; [lia|]. split; [simpl; lia|].
  now rewrite Nat.sub_diag.
Qed.

Lemma loopShape_empty (i cur : nat) (status : NodeStatus) (w : W) :
  status <> RUNNING -> loopShape (N := N) [] i cur (status, [], 0, w).
Proof.
  intros H. split; [reflexivity|]. split; [reflexivity|].
  split; [intros; congruence|reflexivity].
Qed.

Lemma selector_loop_shape (cs : list N) :
  forall i cur w,
    i <= cur -> loopShape cs i cur (selector_loop N exec cs i cur w).
Proof.
  induction cs as [|c rest IH]; intros i cur w Hle.
  - apply loopShape_empty. discriminate.
  - cbn [selector_loop]. destruct (i <? cur) eqn:Hlt.
    + apply Nat.ltb_lt in Hlt. specialize (IH (S i) cur w Hlt).
      destruct (selector_loop N exec rest (S i) cur w) as [[[st rest'] cur'] w'].
      now apply loopShape_skip.
    + apply Nat.ltb_ge in Hlt. assert (cur = i) as -> by lia.
      destruct (exec c w) as [[st c'] w']. destruct st.
      * apply loopShape_stop. discriminate.
      * specialize (IH (S i) (S i) w' (Nat.le_refl _)).
        destruct (selector_loop N exec rest (S i) (S i) w')
          as [[[st rest'] cur'] w''].
        now apply loopShape_next.
      * apply loopShape_running.
Qed.

Lemma sequence_loop_shape (cs : list N) :
  forall i cur w,
    i <= cur -> loopShape cs i cur (sequence_loop N exec cs i cur w).
Proof.
  induction cs as [|c rest IH]; intros i cur w Hle.
  - apply loopShape_empty. discriminate.
  - cbn [sequence_loop]. destruct (i <? cur) eqn:Hlt.
    + apply Nat.ltb_lt in Hlt. specialize (IH (S i) cur w Hlt).
      destruct (sequence_loop N exec rest (S i) cur w) as [[[st rest'] cur'] w'].
      now apply loopShape_skip.
    + apply Nat.ltb_ge in Hlt. assert (cur = i) as -> by lia.
      destruct (exec c w) as [[st c'] w']. destruct st.
      * specialize (IH (S i) (S i) w' (Nat.le_refl _)).
        destruct (sequence_loop N exec rest (S i) (S i) w')
          as [[[st rest'] cur'] w''].
        now apply loopShape_next.
      * apply loopShape_stop. discriminate.
      * apply loopShape_running.
Qed.

End Loop.

Lemma loopShape_keepsShape (type : NodeType) (children : list (BehaviorNode W))
  (currentChild : nat) (w : W) (r : NodeStatus * list (BehaviorNode W) * nat * W) :
  execute (CompositeNode type children currentChild) w
  = (let '(status, children', cur', w') := r in
     (status, CompositeNode type children' cur', w')) ->
  loopShape children 0 (entry_cursor children currentChild) r ->
  keepsShape type children currentChild w.
Proof.
  destruct r as [[[st cs'] cur'] w']. intros He (Hlen & Hpre & Hrun & Hdone).
  exists st, cs', cur', w'. rewrite Nat.sub_0_r in Hpre.
  split; [exact He|]. split; [exact Hlen|]. split; [exact Hpre|].
  split; [|exact Hdone].
  intros H. destruct (Hrun H) as (H1 & H2 & H3).
  rewrite Nat.sub_0_r in H3. now repeat split.
Qed.

(** X1.  A tick of a selector or of a sequence keeps the number of children
    and leaves the children before the cursor it started from as they
    were; after SUCCESS or FAILURE the cursor is 0, and after RUNNING it is
    on a child, at or after the one the tick started from, and the children
    after it are as they were. *)
Theorem tick_keeps_shape :
  forall (children : list (BehaviorNode W)) (currentChild : nat) (w : W),
    keepsShape SELECTOR children currentChild w
    /\ keepsShape SEQUENCE children currentChild w.
Proof.
  intros children currentChild w. split.
  - apply (loopShape_keepsShape SELECTOR children currentChild w
             (selector_loop (BehaviorNode W) execute children 0
                (entry_cursor children currentChild) w)).
    + reflexivity.
    + apply selector_loop_shape. lia.
  - apply (loopShape_keepsShape SEQUENCE children currentChild w
             (sequence_loop (BehaviorNode W) execute children 0
                (entry_cursor children currentChild) w)).
    + reflexivity.
    + apply sequence_loop_shape. lia.
Qed.

(** *** Trees that hold no state *)

Lemma fresh_children (type : NodeType) (children : list (BehaviorNode W))
  (cur : nat) :
  fresh (CompositeNode type children cur) ->
  cur = 0 /\ Forall fresh children.
Proof.
  simpl. intros [H0 Hall]. split; [exact H0|].
  induction children as [|c cs IH]; constructor; [apply Hall|apply IH, Hall].
Qed.

Lemma instant_children (type : NodeType) (children : list (BehaviorNode W))
  (cur : nat) :
  instant (CompositeNode type children cur) -> Forall instant children.
Proof.
  simpl. intros Hall.
  induction children as [|c cs IH]; constructor; [apply Hall|apply IH, Hall].
Qed.

Lemma selector_loop_settles (cs : list (BehaviorNode W)) :
  Forall settles cs ->
  forall i w, exists status w',
    selector_loop (BehaviorNode W) execute cs i i w = (status, cs, 0, w')
    /\ status <> RUNNING.
Proof.
  induction 1 as [|c rest Hc _ IH]; intros i w.
  - exists FAILURE, w. split; [reflexivity|discriminate].
  - cbn [selector_loop]. rewrite Nat.ltb_irrefl.
    destruct (Hc w) as (st & w1 & He & Hst). rewrite He.
    destruct st; [|destruct (IH (S i) w1) as (st' & w2 & Hl & Hst')|congruence].
    + exists SUCCESS, w1. split; [reflexivity|discriminate].
    + rewrite Hl. exists st', w2. split; [reflexivity|exact Hst'].
Qed.

Lemma sequence_loop_settles (cs : list (BehaviorNode W)) :
  Forall settles cs ->
  forall i w, exists status w',
    sequence_loop (BehaviorNode W) execute cs i i w = (status, cs, 0, w')
    /\ status <> RUNNING.
Proof.
  induction 1 as [|c rest Hc _ IH]; intros i w.
  - exists SUCCESS, w. split; [reflexivity|discriminate].
  - cbn [sequence_loop]. rewrite Nat.ltb_irrefl.
    destruct (Hc w) as (st & w1 & He & Hst). rewrite He.
    destruct st; [destruct (IH (S i) w1) as (st' & w2 & Hl & Hst')| |congruence].
    + rewrite Hl. exists st', w2. split; [reflexivity|exact Hst'].
    + exists FAILURE, w1. split; [reflexivity|discriminate].
Qed.

Lemma fresh_instant_settles (n : BehaviorNode W) :
  fresh n -> instant n -> settles n.
Proof.
  induction n as [type action|type children cur IH] using node_induction;
    intros Hf Hi w.
  - simpl in Hi. specialize (Hi w). cbn [execute].
    destruct (action w) as [st w']. exists st, w'. split; [reflexivity|exact Hi].
  - apply fresh_children in Hf as [-> Hf]. apply instant_children in Hi.
    assert (Forall settles children) as Hs.
    { rewrite Forall_forall in *. intros c Hc. now apply IH; auto. }
    cbn [execute]. fold (entry_cursor children 0).
    rewrite entry_cursor_fresh. destruct type.
    + destruct (selector_loop_settles children Hs 0 w) as (st & w' & Hl & Hst).
      rewrite Hl. exists st, w'. split; [reflexivity|exact Hst].
    + destruct (sequence_loop_settles children Hs 0 w) as (st & w' & Hl & Hst).
      rewrite Hl. exists st, w'. split; [reflexivity|exact Hst].
    + exists FAILURE, w. split; [reflexivity|discriminate].
    + exists FAILURE, w. split; [reflexivity|discriminate].
Qed.

(** X2.  A freshly built tree none of whose leaves ever answers RUNNING
    holds no state: every tick ends with SUCCESS or FAILURE and leaves the
    tree exactly as it was, every cursor at 0. *)
Theorem instant_tree_is_stateless :
  forall (n : BehaviorNode W) (w : W),
    fresh n -> instant n ->
    exists status w', execute n w = (status, n, w') /\ status <> RUNNING.
Proof. intros n w Hf Hi. exact (fresh_instant_settles n Hf Hi w). Qed.

(** *** The mirror image *)

Lemma wellTyped_children (type : NodeType) (children : list (BehaviorNode W))
  (cur : nat) :
  wellTyped (CompositeNode type children cur) ->
  (type = SELECTOR \/ type = SEQUENCE) /\ Forall wellTyped children.
Proof.
  simpl. intros [Ht Hall]. split; [exact Ht|].
  induction children as [|c cs IH]; constructor; [apply Hall|apply IH, Hall].
Qed.

Lemma selector_loop_mirror (cs : list (BehaviorNode W)) :
  Forall mirrors cs ->
  forall i cur w,
    sequence_loop (BehaviorNode W) execute (map mirror cs) i cur w
    = (let '(status, cs', cur', w') :=
         selector_loop (BehaviorNode W) execute cs i cur w in
       (swap status, map mirror cs', cur', w')).
Proof.
  induction 1 as [|c rest Hc _ IH]; intros i cur w; [reflexivity|].
  cbn [map sequence_loop selector_loop]. destruct (i <? cur).
  - rewrite IH.
    destruct (selector_loop _ execute rest (S i) cur w) as [[[st r'] c'] w'].
    reflexivity.
  - rewrite (Hc w). destruct (execute c w) as [[st c'] w'].
    destruct st; cbn [swap]; try reflexivity.
    rewrite IH.
    destruct (selector_loop _ execute rest (S i) (S cur) w')
      as [[[st r'] c''] w''].
    reflexivity.
Qed.

Lemma sequence_loop_mirror (cs : list (BehaviorNode W)) :
  Forall mirrors cs ->
  forall i cur w,
    selector_loop (BehaviorNode W) execute (map mirror cs) i cur w
    = (let '(status, cs', cur', w') :=
         sequence_loop (BehaviorNode W) execute cs i cur w in
       (swap status, map mirror cs', cur', w')).
Proof.
  induction 1 as [|c rest Hc _ IH]; intros i cur w; [reflexivity|].
  cbn [map sequence_loop selector_loop]. destruct (i <? cur).
  - rewrite IH.
    destruct (sequence_loop _ execute rest (S i) cur w) as [[[st r'] c'] w'].
    reflexivity.
  - rewrite (Hc w). destruct (execute c w) as [[st c'] w'].
    destruct st; cbn [swap]; try reflexivity.
    rewrite IH.
    destruct (sequence_loop _ execute rest (S i) (S cur) w')
      as [[[st r'] c''] w''].
    reflexivity.
Qed.

Lemma wellTyped_mirrors (n : BehaviorNode W) : wellTyped n -> mirrors n.
Proof.
  induction n as [type action|type children cur IH] using node_induction;
    intros Hw w.
  - cbn [mirror execute]. destruct (action w) as [st w']. reflexivity.
  - apply wellTyped_children in Hw as [Ht Hw].
    assert (Forall mirrors children) as Hm.
    { rewrite Forall_forall in *. intros c Hc. now apply IH; auto. }
    cbn [mirror execute]. rewrite length_map.
    destruct Ht as [-> | ->]; cbn [swapType].
    + rewrite (selector_loop_mirror children Hm).
      destruct (selector_loop _ execute children 0 _ w) as [[[st r'] c'] w'].
      reflexivity.
    + rewrite (sequence_loop_mirror children Hm).
      destruct (sequence_loop _ execute children 0 _ w) as [[[st r'] c'] w'].
      reflexivity.
Qed.

(** X3.  A sequence is a selector with SUCCESS and FAILURE exchanged: for a
    tree made of selectors, sequences and leaves, a tick of its mirror image
    (selectors and sequences exchanged, each leaf answering the opposite)
    returns the opposite status, leaves the same world, and leaves the
    mirror image of the tree the original tick leaves, cursors included. *)
Theorem mirror_tick :
  forall (n : BehaviorNode W) (w : W),
    wellTyped n ->
    execute (mirror n) w
    = (let '(status, n', w') := execute n w in (swap status, mirror n', w')).
Proof. intros n w Hw. exact (wellTyped_mirrors n Hw w). Qed.

End Engine.

(** The guard of the boss's attack is such a tree. *)
Lemma instant_tree_witness :
  exists status w',
    execute (Samples.attackGuard (GameState.state (World.store Scenario.inReach)))
      Scenario.inReach
    = (status,
       Samples.attackGuard (GameState.state (World.store Scenario.inReach)), w')
    /\ status <> RUNNING.
Proof.
  apply instant_tree_is_stateless.
  - simpl. auto.
  - simpl. repeat split; intros w.
    + destruct (Rleb _ _); discriminate.
    + destruct (_ <=? _)%Z; discriminate.
Defined.

Lemma boss_tree_wellTyped {W : Type}
  (bossAIState : W -> BossAI.BossAIState)
  (modify : (BossAI.BossAIState -> BossAI.BossAIState) -> W -> W)
  (Date_now : W -> Z) (gameState : GameState.GameStateType)
  (setBossPosition : Vector3.t -> W -> W) (setBossRotation : Euler.t -> W -> W)
  (trigger : W -> W) (delta : R) :
  wellTyped (BossAI.createBossBehaviorTree bossAIState modify Date_now
               gameState setBossPosition setBossRotation trigger delta).
Proof. simpl. intuition. Qed.

(** The boss's tree is made of selectors, sequences and leaves. *)
Lemma mirror_tick_witness :
  execute (mirror (Boss.behaviorTree Scenario.inReach Scenario.frameDelta))
    Scenario.inReach
  = (let '(status, n', w') :=
       execute (Boss.behaviorTree Scenario.inReach Scenario.frameDelta)
         Scenario.inReach in
     (swap status, mirror n', w')).
Proof.
  apply mirror_tick. apply boss_tree_wellTyped.
Defined.

End TreeProps.

(* ================================================================= *)
(** ** More on spheres and on where the attack spheres are *)

Module SphereProps.

Lemma distanceTo_sym (a b : Vector3.t) :
  Vector3.distanceTo a b = Vector3.distanceTo b a.
Proof.
  unfold Vector3.distanceTo, Vector3.distanceToSquared. f_equal. ring.
Qed.

(** X4.  The overlap test does not depend on the order of the two
    spheres. *)
Theorem didSpheresCollide_symmetric :
  forall (A : Vector3.t) (rA : R) (B : Vector3.t) (rB : R),
    Collision.didSpheresCollide A rA B rB
    = Collision.didSpheresCollide B rB A rA.
Proof.
  intros A rA B rB. unfold Collision.didSpheresCollide.
  rewrite (distanceTo_sym A B), (Rplus_comm rA rB). reflexivity.
Qed.

(** X5.  Moving both spheres by the same vector does not change the answer
    of the overlap test. *)
Theorem didSpheresCollide_translated :
  forall (A : Vector3.t) (rA : R) (B : Vector3.t) (rB : R) (t : Vector3.t),
    Collision.didSpheresCollide (Vector3.add A t) rA (Vector3.add B t) rB
    = Collision.didSpheresCollide A rA B rB.
Proof.
  intros A rA B rB t. unfold Collision.didSpheresCollide.
  replace (Vector3.distanceTo (Vector3.add A t) (Vector3.add B t))
    with (Vector3.distanceTo A B); [reflexivity|].
  unfold Vector3.distanceTo, Vector3.distanceToSquared, Vector3.add.
  cbn [Vector3.x Vector3.y Vector3.z]. f_equal. ring.
Qed.

Lemma turned_length (yaw x y z : R) :
  ((x * cos yaw + z * sin yaw) * (x * cos yaw + z * sin yaw) + y * y
   + (z * cos yaw - x * sin yaw) * (z * cos yaw - x * sin yaw))%R
  = (x * x + y * y + z * z)%R.
Proof.
  pose proof (sin2_cos2 yaw) as H. unfold Rsqr in H.
  replace ((x * cos yaw + z * sin yaw) * (x * cos yaw + z * sin yaw) + y * y
           + (z * cos yaw - x * sin yaw) * (z * cos yaw - x * sin yaw))%R
    with ((x * x + z * z) * (sin yaw * sin yaw + cos yaw * cos yaw) + y * y)%R
    by ring.
  rewrite H. ring.
Qed.

(** X6.  Whatever the yaw, an attack sphere is placed as far from its owner
    as its offset is long: the player's, and the boss's too, although its Z
    component is mirrored. *)
Theorem attackSphere_at_reach :
  (forall (position : Vector3.t) (yaw : R) (offset : Vector3.t),
      Vector3.distanceTo
        (Character.playerAttackSpherePosition position (Euler.new 0 yaw 0)
           offset)
        position
      = Vector3.length offset)
  /\ (forall (g : Global.t) (yaw : R),
         Global.bossRotation g = Euler.new 0 yaw 0 ->
         Vector3.distanceTo (Boss.bossAttackSpherePosition g)
           (Global.bossPosition g)
         = Vector3.length (Global.bossAttackSphereOffset g)).
Proof.
  split.
  - intros position yaw offset.
    unfold Character.playerAttackSpherePosition.
    rewrite Evaluate.applyMatrix4_yaw.
    unfold Spec.rotateByYaw, Vector3.distanceTo, Vector3.distanceToSquared,
      Vector3.length.
    cbn [Vector3.x Vector3.y Vector3.z]. f_equal.
    rewrite <- (turned_length yaw (Vector3.x offset) (Vector3.y offset)
                  (Vector3.z offset)).
    ring.
  - intros g yaw Hrot. unfold Boss.bossAttackSpherePosition.
    rewrite Hrot, Evaluate.applyMatrix4_yaw.
    unfold Spec.rotateByYaw, Vector3.distanceTo, Vector3.distanceToSquared,
      Vector3.length.
    cbn [Vector3.x Vector3.y Vector3.z]. f_equal.
    rewrite <- (turned_length yaw (Vector3.x (Global.bossAttackSphereOffset g))
                  (Vector3.y (Global.bossAttackSphereOffset g))
                  (Vector3.z (Global.bossAttackSphereOffset g))).
    ring.
Qed.

Lemma attackSphere_at_reach_witness :
  Vector3.distanceTo (Boss.bossAttackSpherePosition Scenario.mirrorAtSpawn)
    (Global.bossPosition Scenario.mirrorAtSpawn)
  = Vector3.length (Global.bossAttackSphereOffset Scenario.mirrorAtSpawn).
Proof.
  exact (proj2 attackSphere_at_reach Scenario.mirrorAtSpawn PI eq_refl).
Defined.

End SphereProps.

(* ================================================================= *)
(** ** More on the boss's policy: angles, turning, moving *)

Module PolicyProps.

Import BehaviorTree World.




(** Rounds that are enough for one input are enough whichever their
    number: the loop has left by its condition. *)
Lemma wrap_down_enough (n : nat) :
  forall (m : nat) (a : R),
    (a - 2 * PI * INR n <= PI)%R -> (a - 2 * PI * INR m <= PI)%R ->
    BossAI.wrap_down n a = BossAI.wrap_down m a.
Proof.
  induction n as [|n IH]; intros m a Hn Hm.
  - simpl in Hn. rewrite !AngleProps.wrap_down_id; [reflexivity|lra|lra].
  - destruct m as [|m].
    + simpl in Hm. rewrite !AngleProps.wrap_down_id; [reflexivity|lra|lra].
    + cbn [BossAI.wrap_down]. destruct (Rlt_dec PI a); [|reflexivity].
      rewrite S_INR in Hn, Hm. apply IH; lra.
Qed.

Lemma wrap_up_enough (n : nat) :
  forall (m : nat) (a : R),
    (- PI <= a + 2 * PI * INR n)%R -> (- PI <= a + 2 * PI * INR m)%R ->
    BossAI.wrap_up n a = BossAI.wrap_up m a.
Proof.
  induction n as [|n IH]; intros m a Hn Hm.
  - simpl in Hn. rewrite !AngleProps.wrap_up_id; [reflexivity|lra|lra].
  - destruct m as [|m].
    + simpl in Hm. rewrite !AngleProps.wrap_up_id; [reflexivity|lra|lra].
    + cbn [BossAI.wrap_up]. destruct (Rlt_dec a (- PI)); [|reflexivity].
      rewrite S_INR in Hn, Hm. apply IH; lra.
Qed.

(** The rounds a loop makes. *)
Lemma wrap_down_count (n : nat) :
  forall a : R,
    exists j : nat,
      j <= n /\ BossAI.wrap_down n a = (a - 2 * PI * INR j)%R.
Proof.
  induction n as [|n IH]; intros a; cbn [BossAI.wrap_down];
    destruct (Rlt_dec PI a);
    try (exists 0; split; [lia|simpl; ring]).
  destruct (IH (a - PI * 2)%R) as (j & Hj & E). exists (S j).
  split; [lia|]. rewrite E, S_INR. ring.
Qed.

Lemma wrap_up_count (n : nat) :
  forall a : R,
    exists j : nat,
      j <= n /\ BossAI.wrap_up n a = (a + 2 * PI * INR j)%R.
Proof.
  induction n as [|n IH]; intros a; cbn [BossAI.wrap_up];
    destruct (Rlt_dec a (- PI));
    try (exists 0; split; [lia|simpl; ring]).
  destruct (IH (a + PI * 2)%R) as (j & Hj & E). exists (S j).
  split; [lia|]. rewrite E, S_INR. ring.
Qed.

(** X7.  For an angle difference of magnitude at most (2 n + 1) PI, with n
    at most a million (angles large enough for a round to leave a
    JavaScript number as it is are left out: there the loops of the source
    do not end): each of the two wrap-around loops has left by its own
    condition after at most n rounds, what they leave lies in [-PI, PI] and
    is the input less [down] turns plus [up] turns, with [down] and [up] at
    most n; it is what [wrapAngle] returns. *)
Theorem wrapAngle_bounded_rounds :
  forall (a : R) (n : nat),
    (INR n <= 1000000)%R ->
    (Rabs a <= PI * (2 * INR n + 1))%R ->
    let first := BossAI.wrap_down n a in
    let second := BossAI.wrap_up n first in
    (first <= PI)%R
    /\ (- PI <= second <= PI)%R
    /\ (exists down up : nat,
           down <= n /\ up <= n
           /\ first = (a - 2 * PI * INR down)%R
           /\ second = (first + 2 * PI * INR up)%R)
    /\ BossAI.wrapAngle a = second.
Proof.
  intros a n _ Ha first second. pose proof PI_RGT_0 as Hpi.
  assert (- (PI * (2 * INR n + 1)) <= a <= PI * (2 * INR n + 1))%R as Hb.
  { unfold Rabs in Ha. destruct (Rcase_abs a); lra. }
  destruct (AngleProps.wrap_down_exit n a) as [H1 H2]; [lra|].
  fold first in H1, H2.
  assert (- PI <= first + 2 * PI * INR n)%R as Hup.
  { destruct H2 as [-> | H2]; [lra|]. pose proof (pos_INR n). nra. }
  destruct (AngleProps.wrap_up_exit n first Hup) as [H3 H4].
  fold second in H3, H4.
  split; [exact H1|]. split; [split; [exact H3|]|split].
  - destruct H4 as [-> | H4]; lra.
  - destruct (wrap_down_count n a) as (down & Hd & Ed).
    destruct (wrap_up_count n first) as (up & Hu & Eu).
    exists down, up. now repeat split.
  - unfold BossAI.wrapAngle.
    pose proof (AngleProps.rounds_enough a) as Ra.
    assert (BossAI.wrap_down (BossAI.rounds a) a = first) as ->.
    { apply wrap_down_enough; [|lra].
      pose proof (Rle_abs a). lra. }
    pose proof (AngleProps.rounds_enough first) as Rf.
    apply wrap_up_enough; [|exact Hup].
    pose proof (Rle_abs (- first)) as Hf. rewrite Rabs_Ropp in Hf. lra.
Qed.

(** An angle difference of two turns and a half: two rounds of the first
    loop. *)
Lemma wrapAngle_bounded_rounds_witness :
  (- PI <= BossAI.wrap_up 2 (BossAI.wrap_down 2 (5 * PI)) <= PI)%R
  /\ BossAI.wrapAngle (5 * PI) = BossAI.wrap_up 2 (BossAI.wrap_down 2 (5 * PI)).
Proof.
  assert (Rabs (5 * PI) <= PI * (2 * INR 2 + 1))%R as H.
  { pose proof PI_RGT_0. rewrite Rabs_right by lra. simpl. lra. }
  pose proof (wrapAngle_bounded_rounds (5 * PI) 2 ltac:(simpl; lra) H) as R.
  split; [exact (proj1 (proj2 R))|exact (proj2 (proj2 (proj2 R)))].
Defined.



(** *** The direction to the player *)

Lemma planar_length (dx dz : R) :
  Vector3.length (Vector3.new dx 0 dz) = sqrt (dx * dx + dz * dz).
Proof.
  unfold Vector3.length. cbn [Vector3.x Vector3.y Vector3.z]. f_equal. ring.
Qed.

Lemma planar_length_zero (dx dz : R) :
  Vector3.length (Vector3.new dx 0 dz) = 0%R <-> dx = 0%R /\ dz = 0%R.
Proof.
  rewrite planar_length. split.
  - intros H. apply sqrt_eq_0 in H; [|nra]. split; nra.
  - intros [-> ->]. replace (0 * 0 + 0 * 0)%R with 0%R by ring. apply sqrt_0.
Qed.

(** X9.  The direction to the player lies in the XZ plane; it has length 1
    when boss and player differ in X or Z, and is the zero vector when the
    player is straight above or below the boss. *)
Theorem directionToPlayer_unit :
  forall bossPosition playerPosition : Vector3.t,
    let direction := BossAI.directionToPlayer bossPosition playerPosition in
    Vector3.y direction = 0%R
    /\ ((Vector3.x playerPosition <> Vector3.x bossPosition
         \/ Vector3.z playerPosition <> Vector3.z bossPosition) ->
        Vector3.length direction = 1%R)
    /\ (Vector3.x playerPosition = Vector3.x bossPosition ->
        Vector3.z playerPosition = Vector3.z bossPosition ->
        Vector3.x direction = 0%R /\ Vector3.z direction = 0%R).
Proof.
  intros b p direction. subst direction.
  unfold BossAI.directionToPlayer, Vector3.normalize, Vector3.divideScalar,
    Vector3.multiplyScalar.
  set (dx := (Vector3.x p - Vector3.x b)%R).
  set (dz := (Vector3.z p - Vector3.z b)%R).
  cbn [Vector3.x Vector3.y Vector3.z].
  split; [ring|]. split.
  - intros Hne.
    destruct (Req_dec_T (Vector3.length (Vector3.new dx 0 dz)) 0) as [E|E].
    + apply planar_length_zero in E. unfold dx, dz in E. lra.
    + rewrite planar_length in *. set (L := sqrt (dx * dx + dz * dz)) in *.
      assert (L * L = dx * dx + dz * dz)%R as HL by (apply sqrt_sqrt; nra).
      assert (0 < L)%R as Hpos.
      { pose proof (sqrt_pos (dx * dx + dz * dz)). fold L in H. lra. }
      unfold Vector3.length. cbn [Vector3.x Vector3.y Vector3.z].
      replace (dx * (1 / L) * (dx * (1 / L)) + 0 * (1 / L) * (0 * (1 / L))
               + dz * (1 / L) * (dz * (1 / L)))%R
        with ((dx * dx + dz * dz) / (L * L))%R by (field; lra).
      rewrite <- HL.
      replace (L * L / (L * L))%R with 1%R by (field; lra).
      apply sqrt_1.
  - intros Hx Hz. unfold dx, dz. rewrite Hx, Hz.
    split; ring.
Qed.

Lemma directionToPlayer_witness :
  Vector3.length
    (BossAI.directionToPlayer (Vector3.new 0 0 20) (Vector3.new 0 0 0))
  = 1%R.
Proof.
  refine (proj1 (proj2 (directionToPlayer_unit (Vector3.new 0 0 20)
                          (Vector3.new 0 0 0))) _).
  right. simpl. lra.
Defined.

(** *** A step of turning and a step of moving *)

Lemma turn_amount (d m : R) :
  (0 <= m)%R ->
  let turned := (Math_sign d * Rmin (Rabs d) m)%R in
  (Rabs turned <= m)%R
  /\ (Rabs turned <= Rabs d)%R
  /\ Rabs (d - turned) = (Rabs d - Rabs turned)%R.
Proof.
  intros Hm turned. subst turned. unfold Math_sign, Rmin.
  destruct (Rlt_dec 0 d); [|destruct (Rlt_dec d 0)];
    destruct (Rle_dec (Rabs d) m) as [Hle|Hgt];
    unfold Rabs in *; repeat destruct (Rcase_abs _); lra.
Qed.

(** X10.  A step of [turnTowardsPlayer] turns the boss about the Y axis
    only, towards the bearing of the player, by no more than
    [turnSpeed * delta] and never past the bearing; it marks the boss as
    turning and does not move it. *)
Theorem turn_step :
  forall (gameState : GameState.GameStateType) (delta : R) (w : Game),
    (0 <= BossAI.turnSpeed (bossAIRef w) * delta)%R ->
    let node :=
      BossAI.turnTowardsPlayer bossAIRef Boss.modifyAI gameState
        (fun rotation => onStore (GameState.setBossRotation rotation)) delta in
    let w' := snd (execute node w) in
    let old := GameState.bossRotation gameState in
    let new := GameState.bossRotation (GameState.state (store w')) in
    let diff :=
      BossAI.wrapAngle
        (BossAI.angleToFacePlayer (GameState.bossPosition gameState)
           (GameState.playerPosition gameState) - Euler.y old) in
    let turned := (Euler.y new - Euler.y old)%R in
    Euler.x new = Euler.x old /\ Euler.z new = Euler.z old
    /\ (Rabs turned <= BossAI.turnSpeed (bossAIRef w) * delta)%R
    /\ (Rabs turned <= Rabs diff)%R
    /\ Rabs (diff - turned) = (Rabs diff - Rabs turned)%R
    /\ BossAI.currentAction (bossAIRef w') = "turning"%string
    /\ GameState.bossPosition (GameState.state (store w'))
       = GameState.bossPosition (GameState.state (store w)).
Proof.
  intros gameState delta w Hm node w' old new diff turned.
  subst node w' new turned. cbn.
  fold old. fold diff.
  destruct (turn_amount diff _ Hm) as (H1 & H2 & H3).
  replace (Euler.y old
           + Math_sign diff
             * Rmin (Rabs diff) (BossAI.turnSpeed (bossAIRef w) * delta)
           - Euler.y old)%R
    with (Math_sign diff
          * Rmin (Rabs diff) (BossAI.turnSpeed (bossAIRef w) * delta))%R
    by ring.
  repeat split; assumption.
Qed.

Lemma turn_step_witness :
  (Rabs
     (Euler.y
        (GameState.bossRotation
           (GameState.state
              (store
                 (snd (execute
                         (BossAI.turnTowardsPlayer bossAIRef Boss.modifyAI
                            GameState.defaultGameState
                            (fun rotation =>
                               onStore (GameState.setBossRotation rotation))
                            (1 / 10))
                         Scenario.inReach)))))
      - Euler.y (GameState.bossRotation GameState.defaultGameState))
   <= 25 / 10 * (1 / 10))%R.
Proof.
  refine (proj1 (proj2 (proj2
            (turn_step GameState.defaultGameState (1 / 10) Scenario.inReach _)))).
  cbn. lra.
Defined.

(** X11.  A step of [moveTowardsPlayer] for a boss that is not attacking
    and is out of range: the boss keeps its height and is marked as
    moving; when it differs from the player in X or Z, the planar distance
    to the player afterwards is the distance before less
    [moveSpeed * delta], in absolute value (it can step past the player);
    when the player is straight above or below, the boss stays where it
    is.  The step answers RUNNING. *)
Theorem move_step :
  forall (gameState : GameState.GameStateType) (delta : R) (w : Game),
    BossAI.isAttacking (bossAIRef w) = false ->
    (BossAI.attackRange (bossAIRef w)
     < Vector3.distanceTo (GameState.bossPosition gameState)
         (GameState.playerPosition gameState))%R ->
    let node :=
      BossAI.moveTowardsPlayer bossAIRef Boss.modifyAI gameState
        (fun position => onStore (GameState.setBossPosition position)) delta in
    let w' := snd (execute node w) in
    let old := GameState.bossPosition gameState in
    let new := GameState.bossPosition (GameState.state (store w')) in
    let player := GameState.playerPosition gameState in
    let step := (BossAI.moveSpeed (bossAIRef w) * delta)%R in
    fst (fst (execute node w)) = RUNNING
    /\ Vector3.y new = Vector3.y old
    /\ BossAI.currentAction (bossAIRef w') = "moving"%string
    /\ ((Vector3.x player <> Vector3.x old \/ Vector3.z player <> Vector3.z old) ->
        Spec.planarDistance new player
        = Rabs (Spec.planarDistance old player - step))
    /\ (Vector3.x player = Vector3.x old ->
        Vector3.z player = Vector3.z old -> new = old).
Proof.
  intros gameState delta w Hatt Hfar node w' old new player step.
  apply GeometryProps.Rleb_false in Hfar.
  subst node w' new. cbn [execute BossAI.moveTowardsPlayer].
  rewrite Hatt. unfold BossAI.distanceToPlayer. rewrite Hfar.
  cbn. rewrite ?Hfar. fold old player.
  split; [reflexivity|].
  unfold BossAI.directionToPlayer, Vector3.normalize, Vector3.divideScalar,
    Vector3.multiplyScalar, Vector3.add.
  fold old player. fold step.
  set (dx := (Vector3.x player - Vector3.x old)%R).
  set (dz := (Vector3.z player - Vector3.z old)%R).
  cbn [Vector3.x Vector3.y Vector3.z].
  split; [ring|]. split; [reflexivity|]. split.
  - intros Hne.
    destruct (Req_dec_T (Vector3.length (Vector3.new dx 0 dz)) 0) as [E|E].
    { apply planar_length_zero in E. unfold dx, dz in E. lra. }
    rewrite planar_length in *. set (L := sqrt (dx * dx + dz * dz)) in *.
    assert (L * L = dx * dx + dz * dz)%R as HL by (apply sqrt_sqrt; nra).
    assert (0 < L)%R as Hpos.
    { pose proof (sqrt_pos (dx * dx + dz * dz)). fold L in H. lra. }
    unfold Spec.planarDistance. cbn [Vector3.x Vector3.y Vector3.z].
    replace ((Vector3.x old - Vector3.x player) ^ 2
             + (Vector3.z old - Vector3.z player) ^ 2)%R
      with (dx * dx + dz * dz)%R by (unfold dx, dz; ring).
    fold L.
    replace ((Vector3.x old + dx * (1 / L) * step - Vector3.x player) ^ 2
             + (Vector3.z old + dz * (1 / L) * step - Vector3.z player) ^ 2)%R
      with ((dx * dx + dz * dz)
            * ((1 - step * (1 / L)) * (1 - step * (1 / L))))%R
      by (unfold dx, dz; ring).
    rewrite <- HL.
    replace (L * L * ((1 - step * (1 / L)) * (1 - step * (1 / L))))%R
      with (Rsqr (L - step)) by (unfold Rsqr; field; lra).
    apply sqrt_Rsqr_abs.
  - intros Hx Hz. destruct old as [ox oy oz]. unfold dx, dz.
    cbn [Vector3.x Vector3.y Vector3.z] in *. rewrite Hx, Hz.
    f_equal; ring.
Qed.

Lemma move_step_witness :
  Spec.planarDistance
    (GameState.bossPosition
       (GameState.state
          (store
             (snd (execute
                     (BossAI.moveTowardsPlayer bossAIRef Boss.modifyAI
                        GameState.defaultGameState
                        (fun position =>
                           onStore (GameState.setBossPosition position))
                        (1 / 10))
                     Scenario.inReach)))))
    (GameState.playerPosition GameState.defaultGameState)
  = Rabs (Spec.planarDistance
            (GameState.bossPosition GameState.defaultGameState)
            (GameState.playerPosition GameState.defaultGameState)
          - 35 / 10 * (1 / 10)).
Proof.
  refine (proj1 (proj2 (proj2 (proj2
            (move_step GameState.defaultGameState (1 / 10) Scenario.inReach
               eq_refl _)))) _).
  - unfold Vector3.distanceTo, Vector3.distanceToSquared. cbn.
    apply Evaluate.sqrt_gt_of_sq; lra.
  - right. cbn. lra.
Defined.

End PolicyProps.

(* ================================================================= *)
(** ** Histories of events *)

Module HistoryProps.

Import BehaviorTree World Events Decisions Invariants.

(** *** What each kind of event can write *)

Lemma fireDue_preserves (P : Game -> Prop) (t : Z) :
  (forall k q c w, P w -> (c <= Z.max (clock w) t)%Z ->
                   P (fire k (with_clock c (with_timeouts q w)))) ->
  forall (n : nat) (w : Game), P w -> P (fireDue n t w).
Proof.
  intros Hfire. induction n as [|n IH]; intros w H; cbn [fireDue]; [exact H|].
  destruct (timeouts w) as [|[due k] q]; [exact H|].
  destruct (due <=? t)%Z eqn:E; [|exact H].
  apply IH. apply Hfire; [exact H|]. apply Z.leb_le in E. simpl. lia.
Qed.

Lemma elapse_preserves (P : Game -> Prop) (t : Z) (w : Game) :
  (forall k q c w, P w -> (c <= Z.max (clock w) t)%Z ->
                   P (fire k (with_clock c (with_timeouts q w)))) ->
  (forall c w, P w -> (c <= Z.max (clock w) t)%Z -> P (with_clock c w)) ->
  P w -> P (elapse t w).
Proof.
  intros Hfire Hclock H. unfold elapse.
  apply Hclock; [now apply fireDue_preserves|lia].
Qed.

Lemma fire_writes (P : Game -> Prop) (k : Timeout) (w : Game) :
  (forall hp w, P w -> P (onStore (GameState.setPlayerHp hp) w)) ->
  (forall dmg w, P w -> P (onStore (GameState.applyDmgToBoss dmg) w)) ->
  (forall n w, P w -> P (with_randomCalls n w)) ->
  (forall ls w, P w -> P (with_playerFinishedListeners ls w)) ->
  (forall b w, P w -> P (with_isAttackingRef b w)) ->
  P w -> P (fire k w).
Proof.
  intros Hhp Hdmg Hrnd Hls Hflag H. destruct k; cbn [fire].
  - unfold Boss.damageCallback.
    destruct (GameState.vibenRingGlobalState (store w)); [|exact H].
    destruct (_ && _); [now apply Hhp|exact H].
  - assert (P (Character.hit w)) as Hhit.
    { unfold Character.hit, Math_random. now apply Hdmg, Hrnd. }
    unfold Character.damageCallback.
    destruct (GameState.vibenRingGlobalState (store w));
      destruct (_ && _); assumption.
  - unfold Character.backupTimeout, Character.removeEventListener.
    destruct (negb (isAttackingRef w)); [exact H|]. now apply Hflag, Hls.
Qed.

Lemma click_writes (P : Game -> Prop) (button : Z) (w : Game) :
  (forall b w, P w -> P (with_isAttackingRef b w)) ->
  (forall t w, P w -> P (with_lastAttackTimeRef t w)) ->
  (forall q w, P w -> P (with_timeouts q w)) ->
  (forall ls w, P w -> P (with_playerFinishedListeners ls w)) ->
  P w -> P (Character.handleMouseClick button w).
Proof.
  intros Hflag Hlast Hq Hls H. unfold Character.handleMouseClick.
  destruct (negb _); [exact H|]. destruct (_ || _); [exact H|].
  unfold setTimeout. now apply Hq, Hls, Hq, Hlast, Hflag.
Qed.

Lemma boss_dispatch_writes (P : Game -> Prop) (w : Game) :
  (forall w, P w -> P (Boss.onFinished w)) ->
  P w -> P (Boss.dispatchFinished w).
Proof.
  intros Hfin H. unfold Boss.dispatchFinished.
  generalize (bossFinishedListeners w) as n.
  induction n as [|n IH]; cbn [Nat.iter nat_rect]; [exact H|now apply Hfin].
Qed.

Lemma player_dispatch_writes (P : Game -> Prop) (w : Game) :
  (forall b w, P w -> P (with_isAttackingRef b w)) ->
  (forall ls w, P w -> P (with_playerFinishedListeners ls w)) ->
  P w -> P (Character.dispatchFinished w).
Proof.
  intros Hflag Hls. unfold Character.dispatchFinished.
  generalize (playerFinishedListeners w) at 1 as ls. intros ls. revert w.
  induction ls as [|l ls IH]; intros w H; cbn [fold_left]; [exact H|].
  apply IH. unfold Character.onFinished, Character.removeEventListener.
  now apply Hls, Hflag.
Qed.

(** A frame while the boss's flag is set: the tree can only turn the
    boss. *)
Lemma useFrame_attacking (P : Game -> Prop) :
  (forall a w, P w -> P (Boss.modifyAI (BossAI.with_currentAction a) w)) ->
  (forall r w, P w -> P (onStore (GameState.setBossRotation r) w)) ->
  (forall t w, P w -> P (with_lastAIUpdateTimeRef t w)) ->
  forall (delta : R) (w : Game),
    BossAI.isAttacking (bossAIRef w) = true -> P w -> P (Boss.useFrame delta w).
Proof.
  intros Hact Hrot Hupd delta w Hatt Hw. unfold Boss.useFrame.
  destruct (_ <? _)%Z; [|exact Hw].
  destruct (Rltb _ _); [|now apply Hupd].
  set (w1 := with_lastAIUpdateTimeRef (clock w) w).
  assert (P w1) as H1 by now apply Hupd.
  assert (BossAI.isAttacking (bossAIRef w1) = true) as Hatt1 by exact Hatt.
  change (P (snd (outcome (execute (Boss.behaviorTree w1 delta) w1)))).
  unfold Boss.behaviorTree. rewrite TickProps.tick_cases, Hatt1.
  destruct (_ && _); [exact H1|].
  destruct (facing _).
  - rewrite TickProps.move_blocked; [exact H1|exact Hatt1].
  - TickProps.tick. now apply Hact, Hrot.
Qed.

(** A frame while the boss's cooldown has not elapsed: the tree can only
    turn or move the boss. *)
Lemma useFrame_cooling (P : Game -> Prop) :
  (forall a w, P w -> P (Boss.modifyAI (BossAI.with_currentAction a) w)) ->
  (forall p w, P w -> P (onStore (GameState.setBossPosition p) w)) ->
  (forall r w, P w -> P (onStore (GameState.setBossRotation r) w)) ->
  (forall t w, P w -> P (with_lastAIUpdateTimeRef t w)) ->
  forall (delta : R) (w : Game),
    offCooldown bossAIRef Date_now w = false -> P w -> P (Boss.useFrame delta w).
Proof.
  intros Hact Hpos Hrot Hupd delta w Hoff Hw. unfold Boss.useFrame.
  destruct (_ <? _)%Z; [|exact Hw].
  destruct (Rltb _ _); [|now apply Hupd].
  set (w1 := with_lastAIUpdateTimeRef (clock w) w).
  assert (P w1) as H1 by now apply Hupd.
  assert (offCooldown bossAIRef Date_now w1 = false) as Hoff1 by exact Hoff.
  change (P (snd (outcome (execute (Boss.behaviorTree w1 delta) w1)))).
  unfold Boss.behaviorTree. rewrite TickProps.tick_cases, Hoff1, andb_false_r.
  destruct (facing _).
  - TickProps.tick.
    destruct (BossAI.isAttacking (bossAIRef w1)); [exact H1|].
    destruct (Rleb _ _); cbn [snd]; [now apply Hact|].
    now apply Hact, Hpos.
  - TickProps.tick. now apply Hact, Hrot.
Qed.

Lemma run_preserves (P : Game -> Prop) (Q : Event -> Prop) :
  (forall e w, Q e -> P w -> P (step e w)) ->
  forall (es : list Event) (w : Game), Forall Q es -> P w -> P (run es w).
Proof.
  intros Hstep. induction es as [|e es IH]; intros w Hes H; [exact H|].
  inversion Hes; subst. cbn [run fold_left]. apply IH; [assumption|].
  now apply Hstep.
Qed.

Lemma Forall_any (es : list Event) : Forall (fun _ => True) es.
Proof. induction es; constructor; [exact I|assumption]. Qed.

(** *** Health *)

Lemma healthWithin_same_store (p b : R) (w w' : Game) :
  store w' = store w -> random w' = random w ->
  healthWithin p b w -> healthWithin p b w'.
Proof. unfold healthWithin, coherent. intros -> ->. exact (fun H => H). Qed.

Lemma fire_health (p b : R) (k : Timeout) (w : Game) :
  healthWithin p b w -> healthWithin p b (fire k w).
Proof.
  intros [Hc [Hp1 Hb1]]. split; [now apply TimerProps.fire_coherent|].
  destruct Hc as [Hr (g & Hg & Hb & Hp & H0)]. destruct k; cbn [fire].
  - unfold Boss.damageCallback. rewrite Hg.
    destruct (_ && _); [|now split]. cbn.
    split; [|exact Hb1]. unfold Boss.ATTACK_DAMAGE. rewrite Hp.
    unfold Rmax. destruct (Rle_dec _ _); lra.
  - unfold Character.damageCallback. rewrite Hg.
    destruct (_ && _); [|now split]. cbn.
    split; [exact Hp1|]. specialize (Hr (randomCalls w)).
    unfold Character.MAX_ATTACK_DAMAGE, Character.MIN_ATTACK_DAMAGE.
    unfold Rmax. destruct (Rle_dec _ _); lra.
  - unfold Character.backupTimeout.
    destruct (negb (isAttackingRef w)); now split.
Qed.

Lemma step_health (p b : R) (e : Event) (w : Game) :
  healthWithin p b w -> healthWithin p b (step e w).
Proof.
  intros H. destruct e as [t|delta|button| |]; cbn [step].
  - apply elapse_preserves; [| |exact H].
    + intros k q c w0 H0 _. apply fire_health.
      now apply (healthWithin_same_store p b w0).
    + intros c w0 H0 _. now apply (healthWithin_same_store p b w0).
  - apply (TimerProps.useFrame_preserves (healthWithin p b)); try exact H;
      try (intros; now apply (healthWithin_same_store p b w0)).
    + intros pos w0 [Hc Hh]. split; [|exact Hh].
      apply TimerProps.coherent_moved; [|exact Hc].
      intros [st [g|]]; repeat split.
    + intros r w0 [Hc Hh]. split; [|exact Hh].
      apply TimerProps.coherent_moved; [|exact Hc].
      intros [st [g|]]; repeat split.
    + intros w0 H0. unfold Boss.triggerBossAttack.
      destruct (negb _); [exact H0|].
      now apply (healthWithin_same_store p b w0).
  - apply click_writes; try exact H;
      intros; now apply (healthWithin_same_store p b w0).
  - apply boss_dispatch_writes; [|exact H].
    intros w0 H0. now apply (healthWithin_same_store p b w0).
  - apply player_dispatch_writes; try exact H;
      intros; now apply (healthWithin_same_store p b w0).
Qed.

(** X12.  Along every history of events (time passing and timers firing,
    frames of the boss, clicks, completion signals) from a coherent game in
    which the player's health is not negative, neither health ever rises
    and neither drops below 0. *)
Theorem health_never_rises :
  forall (w : Game) (es : list Event),
    coherent w ->
    (0 <= GameState.playerHp (GameState.state (store w)))%R ->
    let playerHp w := GameState.playerHp (GameState.state (store w)) in
    let bossHp w := GameState.bossHp (GameState.state (store w)) in
    (0 <= playerHp (run es w) <= playerHp w)%R
    /\ (0 <= bossHp (run es w) <= bossHp w)%R.
Proof.
  intros w es Hc Hp playerHp bossHp.
  assert (healthWithin (playerHp w) (bossHp w) (run es w)) as [Hc' [H1 H2]].
  { apply (run_preserves _ (fun _ => True)); [|apply Forall_any|].
    - intros e w0 _. apply step_health.
    - split; [exact Hc|]. subst playerHp bossHp. cbn beta. lra. }
  split; [exact H1|]. split; [|exact H2].
  destruct Hc' as [_ (g & _ & _ & _ & H0)]. exact H0.
Qed.

Lemma health_never_rises_witness :
  let w := start 1700000000000 (fun _ => 0%R) in
  let es := [MouseDown 0; BossFrame Scenario.frameDelta; Elapse 500;
             BossAttackFinished; Elapse 1300] in
  (0 <= GameState.playerHp (GameState.state (store (run es w)))
   <= GameState.playerHp (GameState.state (store w)))%R
  /\ (0 <= GameState.bossHp (GameState.state (store (run es w)))
      <= GameState.bossHp (GameState.state (store w)))%R.
Proof.
  intros w es. apply (health_never_rises w es).
  - apply (proj1 (TimerProps.run_coherent [] 1700000000000 (fun _ => 0%R)
                    ltac:(intros; lra))).
  - cbn. lra.
Defined.

(** *** A dead player *)

Lemma leftAlone_same_store (w0 w w' : Game) :
  store w' = store w -> random w' = random w ->
  bossFinishedListeners w' = bossFinishedListeners w ->
  bossAIRef w' = bossAIRef w ->
  leftAlone w0 w -> leftAlone w0 w'.
Proof.
  unfold leftAlone, coherent. intros -> -> -> ->. exact (fun H => H).
Qed.

Lemma fire_leftAlone (w0 : Game) (k : Timeout) (w : Game) :
  (GameState.playerHp (GameState.state (store w0)) <= 0)%R ->
  leftAlone w0 w -> leftAlone w0 (fire k w).
Proof.
  intros Hdead (Hc & Hp1 & Hpos & Hrot & Hn & Ha).
  split; [now apply TimerProps.fire_coherent|].
  destruct Hc as [Hr (g & Hg & Hb & Hp & H0)]. destruct k; cbn [fire].
  - unfold Boss.damageCallback. rewrite Hg.
    replace (Rltb 0 (Global.playerHp g)) with false.
    + rewrite andb_false_r. now repeat split.
    + symmetry. apply GeometryProps.Rltb_false. lra.
  - unfold Character.damageCallback. rewrite Hg.
    destruct (_ && _); now repeat split.
  - unfold Character.backupTimeout.
    destruct (negb (isAttackingRef w)); now repeat split.
Qed.

Lemma step_leftAlone (w0 : Game) (e : Event) (w : Game) :
  (GameState.playerHp (GameState.state (store w0)) <= 0)%R ->
  leftAlone w0 w -> leftAlone w0 (step e w).
Proof.
  intros Hdead H. destruct e as [t|delta|button| |]; cbn [step].
  - apply elapse_preserves; [| |exact H].
    + intros k q c w1 H1 _. apply fire_leftAlone; [exact Hdead|].
      now apply (leftAlone_same_store w0 w1).
    + intros c w1 H1 _. now apply (leftAlone_same_store w0 w1).
  - unfold Boss.useFrame. destruct (_ <? _)%Z; [|exact H].
    replace (Rltb 0 _) with false.
    + now apply (leftAlone_same_store w0 w).
    + symmetry. apply GeometryProps.Rltb_false.
      destruct H as (_ & Hp & _). cbn. rewrite Hp. exact Hdead.
  - apply click_writes; try exact H;
      intros; now apply (leftAlone_same_store w0 w1).
  - apply boss_dispatch_writes; [|exact H].
    intros w1 (Hc & Hp & Hpos & Hrot & Hn & Ha).
    split; [now apply (TimerProps.coherent_same_store w1)|].
    repeat split; try assumption. cbn. lia.
  - apply player_dispatch_writes; try exact H;
      intros; now apply (leftAlone_same_store w0 w1).
Qed.

(** X13.  Once the player's health is 0 (or less) in a coherent game, no
    history of events changes it, moves or turns the boss, adds a listener
    for the end of a boss attack, or sets the boss's flag: frames of the
    boss do not run the tree, and the boss's damage callback does
    nothing. *)
Theorem dead_player_left_alone :
  forall (w : Game) (es : list Event),
    coherent w ->
    (GameState.playerHp (GameState.state (store w)) <= 0)%R ->
    GameState.playerHp (GameState.state (store (run es w)))
    = GameState.playerHp (GameState.state (store w))
    /\ GameState.bossPosition (GameState.state (store (run es w)))
       = GameState.bossPosition (GameState.state (store w))
    /\ GameState.bossRotation (GameState.state (store (run es w)))
       = GameState.bossRotation (GameState.state (store w))
    /\ bossFinishedListeners (run es w) <= bossFinishedListeners w
    /\ (BossAI.isAttacking (bossAIRef w) = false ->
        BossAI.isAttacking (bossAIRef (run es w)) = false).
Proof.
  intros w es Hc Hdead.
  assert (leftAlone w (run es w)) as (_ & H).
  { apply (run_preserves _ (fun _ => True)); [|apply Forall_any|].
    - intros e w0 _. now apply step_leftAlone.
    - split; [exact Hc|]. repeat split; [apply Nat.le_refl|exact (fun H => H)]. }
  exact H.
Qed.

Lemma dead_player_witness :
  let es := [Elapse 60; BossFrame Scenario.frameDelta; MouseDown 0;
             Elapse 2000; BossFrame Scenario.frameDelta] in
  GameState.bossPosition (GameState.state (store (run es Samples.playerDead)))
  = GameState.bossPosition (GameState.state (store Samples.playerDead))
  /\ BossAI.isAttacking (bossAIRef (run es Samples.playerDead)) = false.
Proof.
  intros es.
  assert (coherent Samples.playerDead) as Hc.
  { split; [cbn; intros; lra|]. cbn. eexists. split; [reflexivity|].
    cbn. repeat split; lra. }
  assert (GameState.playerHp (GameState.state (store Samples.playerDead)) <= 0)%R
    as Hd by (cbn; lra).
  pose proof (dead_player_left_alone Samples.playerDead es Hc Hd) as H.
  split; [exact (proj1 (proj2 H))|].
  exact (proj2 (proj2 (proj2 (proj2 H))) eq_refl).
Defined.

(** *** An attack nothing will end *)

Lemma step_stuck (w0 : Game) (e : Event) (w : Game) :
  stuck w0 w -> stuck w0 (step e w).
Proof.
  intros H. destruct e as [t|delta|button| |]; cbn [step].
  - apply elapse_preserves; [| |exact H].
    + intros k q c w1 H1 _.
      apply fire_writes; try (intros ? w2 H2; exact H2). exact H1.
    + intros c w1 H1 _. exact H1.
  - apply (useFrame_attacking (stuck w0));
      try (intros ? w1 H1; exact H1); [apply H|exact H].
  - apply click_writes; try (intros ? w1 H1; exact H1). exact H.
  - unfold Boss.dispatchFinished.
    replace (bossFinishedListeners w) with 0 by (symmetry; apply H). exact H.
  - apply player_dispatch_writes; try (intros ? w1 H1; exact H1). exact H.
Qed.

(** X14.  When [performAttack] runs while the boss's attack animation is
    not loaded and nothing listens for the end of an attack,
    [triggerBossAttack] returns without registering [onFinished]; from the
    world that leaves, no history of events (completion signals included)
    clears the boss's flag, registers a listener or moves the boss. *)
Theorem attack_before_load_sticks :
  forall (w : Game) (es : list Event),
    bossAttackLoaded w = false ->
    bossFinishedListeners w = 0 ->
    let started :=
      Boss.triggerBossAttack (attacking Boss.modifyAI Date_now w) in
    BossAI.isAttacking (bossAIRef (run es started)) = true
    /\ bossFinishedListeners (run es started) = 0
    /\ GameState.bossPosition (GameState.state (store (run es started)))
       = GameState.bossPosition (GameState.state (store w)).
Proof.
  intros w es Hload Hn started.
  assert (started = attacking Boss.modifyAI Date_now w) as Hs.
  { subst started. unfold Boss.triggerBossAttack.
    replace (bossAttackLoaded (attacking Boss.modifyAI Date_now w))
      with false by (symmetry; exact Hload).
    reflexivity. }
  change (stuck w (run es started)).
  apply (run_preserves _ (fun _ => True)); [|apply Forall_any|].
  - intros e w0 _. apply step_stuck.
  - rewrite Hs. repeat split. exact Hn.
Qed.

Lemma attack_before_load_witness :
  BossAI.isAttacking
    (bossAIRef
       (run [Elapse 1200; BossAttackFinished; BossFrame Scenario.frameDelta;
             Elapse 60000; BossFrame Scenario.frameDelta]
          (Boss.triggerBossAttack
             (attacking Boss.modifyAI Date_now Samples.notLoaded)))) = true.
Proof.
  exact (proj1 (attack_before_load_sticks Samples.notLoaded
                  [Elapse 1200; BossAttackFinished;
                   BossFrame Scenario.frameDelta; Elapse 60000;
                   BossFrame Scenario.frameDelta] eq_refl eq_refl)).
Defined.

(** *** The boss's cooldown *)

Lemma step_cooling (origin cooldown since : Z) (e : Event) (w : Game) :
  before (since - origin + cooldown) e ->
  cooling origin cooldown since w -> cooling origin cooldown since (step e w).
Proof.
  intros Hb H. destruct e as [t|delta|button| |]; cbn [step].
  - apply elapse_preserves; [| |exact H].
    + intros k q c w1 H1 Hc.
      apply fire_writes; try (intros ? w2 H2; exact H2).
      destruct H1 as (Ho & Hcd & Hs & Ha & Hn & Hlt).
      repeat split; try assumption.
      unfold Date_now in *. cbn in *. lia.
    + intros c w1 (Ho & Hcd & Hs & Ha & Hn & Hlt) Hc.
      repeat split; try assumption.
      unfold Date_now in *. cbn in *. lia.
  - apply (useFrame_cooling (cooling origin cooldown since));
      try (intros ? w1 H1; exact H1); [|exact H].
    destruct H as (Ho & Hcd & Hs & Ha & Hn & Hlt).
    unfold offCooldown. apply Z.leb_gt. lia.
  - apply click_writes; try (intros ? w1 H1; exact H1). exact H.
  - unfold Boss.dispatchFinished.
    replace (bossFinishedListeners w) with 0 by (symmetry; apply H). exact H.
  - apply player_dispatch_writes; try (intros ? w1 H1; exact H1). exact H.
Qed.

Lemma boss_dispatchFinished_cooling (w : Game) :
  0 < bossFinishedListeners w ->
  (0 < BossAI.attackCooldown (bossAIRef w))%Z ->
  cooling (timeOrigin w) (BossAI.attackCooldown (bossAIRef w)) (Date_now w)
    (Boss.dispatchFinished w).
Proof.
  intros Hn Hcd. unfold Boss.dispatchFinished.
  assert (forall n,
             let w' := Nat.iter n Boss.onFinished w in
             timeOrigin w' = timeOrigin w /\ clock w' = clock w
             /\ BossAI.attackCooldown (bossAIRef w')
                = BossAI.attackCooldown (bossAIRef w)
             /\ bossFinishedListeners w' = bossFinishedListeners w - n
             /\ (0 < n ->
                 BossAI.lastAttackTime (bossAIRef w') = Date_now w
                 /\ BossAI.isAttacking (bossAIRef w') = false)) as Hiter.
  { induction n as [|n IH]; cbn zeta.
    - cbn [Nat.iter nat_rect]. repeat split; try reflexivity; lia.
    - cbn zeta in IH. destruct IH as (H1 & H2 & H3 & H4 & H5).
      cbn [Nat.iter nat_rect]. unfold Boss.onFinished at 1. cbn.
      fold (Nat.iter n Boss.onFinished w).
      repeat split; try assumption.
      + rewrite H4. lia.
      + unfold Date_now. rewrite H1, H2. reflexivity. }
  destruct (Hiter (bossFinishedListeners w)) as (H1 & H2 & H3 & H4 & H5).
  destruct (H5 Hn) as [H6 H7].
  repeat split; try assumption.
  - rewrite H4. lia.
  - unfold Date_now. rewrite H1, H2. unfold Date_now. lia.
Qed.

(** X15.  The boss's cooldown also counts from the end of an attack: when
    the completion signal reaches a listener, [lastAttackTime] is stamped
    again, and through every history in which less than [attackCooldown]
    passes from then on the boss starts no attack: its flag stays clear, no
    listener is registered and the stamp stays. *)
Theorem cooldown_counts_from_finish :
  forall (w : Game) (es : list Event),
    0 < bossFinishedListeners w ->
    (0 < BossAI.attackCooldown (bossAIRef w))%Z ->
    Forall (before (clock w + BossAI.attackCooldown (bossAIRef w))) es ->
    let w' := run es (Boss.dispatchFinished w) in
    BossAI.isAttacking (bossAIRef w') = false
    /\ bossFinishedListeners w' = 0
    /\ BossAI.lastAttackTime (bossAIRef w') = Date_now w.
Proof.
  intros w es Hn Hcd Hes w'.
  assert (cooling (timeOrigin w) (BossAI.attackCooldown (bossAIRef w))
            (Date_now w) w') as (_ & _ & Hs & Ha & Hl & _).
  { subst w'.
    apply (run_preserves _
             (before (clock w + BossAI.attackCooldown (bossAIRef w))));
      [|exact Hes|now apply boss_dispatchFinished_cooling].
    intros e w0 Hb. apply step_cooling.
    replace (Date_now w - timeOrigin w + BossAI.attackCooldown (bossAIRef w))%Z
      with (clock w + BossAI.attackCooldown (bossAIRef w))%Z
      by (unfold Date_now; lia).
    exact Hb. }
  now repeat split.
Qed.

Lemma cooldown_counts_from_finish_witness :
  BossAI.isAttacking
    (bossAIRef
       (run [Elapse 1500; BossFrame Scenario.frameDelta; Elapse 1999;
             BossFrame Scenario.frameDelta]
          (Boss.dispatchFinished
             (Boss.triggerBossAttack
                (attacking Boss.modifyAI Date_now Scenario.inReach)))))
  = false.
Proof.
  refine (proj1 (cooldown_counts_from_finish
                   (Boss.triggerBossAttack
                      (attacking Boss.modifyAI Date_now Scenario.inReach))
                   [Elapse 1500; BossFrame Scenario.frameDelta; Elapse 1999;
                    BossFrame Scenario.frameDelta] _ _ _)).
  - cbn. lia.
  - cbn. lia.
  - repeat constructor; cbn; lia.
Defined.

(** *** The player's cooldown *)

Lemma click_refused (origin since button : Z) (w : Game) :
  recentClick origin since w -> Character.handleMouseClick button w = w.
Proof.
  intros (Ho & Hs & Hlt). unfold Character.handleMouseClick.
  destruct (negb _); [reflexivity|].
  replace (Date_now w - lastAttackTimeRef w <? Character.ATTACK_COOLDOWN)%Z
    with true by (symmetry; apply Z.ltb_lt; lia).
  rewrite orb_true_r. reflexivity.
Qed.

Lemma step_recentClick (origin since : Z) (e : Event) (w : Game) :
  before (since - origin + Character.ATTACK_COOLDOWN) e ->
  recentClick origin since w -> recentClick origin since (step e w).
Proof.
  intros Hb H. destruct e as [t|delta|button| |]; cbn [step].
  - apply elapse_preserves; [| |exact H].
    + intros k q c w1 H1 Hc.
      apply fire_writes; try (intros ? w2 H2; exact H2).
      destruct H1 as (Ho & Hs & Hlt). repeat split; try assumption.
      unfold Date_now in *. cbn in *. lia.
    + intros c w1 (Ho & Hs & Hlt) Hc. repeat split; try assumption.
      unfold Date_now in *. cbn in *. lia.
  - apply (TimerProps.useFrame_preserves (recentClick origin since));
      try (intros ? w1 H1; exact H1); try (intros w1 H1; exact H1); [|exact H].
    intros w1 H1. unfold Boss.triggerBossAttack.
    destruct (negb _); exact H1.
  - now rewrite (click_refused origin since).
  - apply boss_dispatch_writes; [|exact H]. intros w1 H1. exact H1.
  - apply player_dispatch_writes; try (intros ? w1 H1; exact H1). exact H.
Qed.

(** X16.  After a click that starts an attack, every click is ignored,
    whatever the button, through every history in which less than
    [ATTACK_COOLDOWN] (600 ms) passes since that click, also when the attack
    has finished meanwhile; [lastAttackTimeRef] stays the time of that
    click. *)
Theorem clicks_within_cooldown_ignored :
  forall (w : Game) (es : list Event) (button : Z),
    isAttackingRef w = false ->
    isAttackingRef (Character.handleMouseClick 0 w) = true ->
    Forall (before (clock w + Character.ATTACK_COOLDOWN)) es ->
    let w' := run es (Character.handleMouseClick 0 w) in
    Character.handleMouseClick button w' = w'
    /\ lastAttackTimeRef w' = Date_now w.
Proof.
  intros w es button H0 H1 Hes w'.
  assert (recentClick (timeOrigin w) (Date_now w) w') as H.
  { subst w'.
    apply (run_preserves _ (before (clock w + Character.ATTACK_COOLDOWN)));
      [|exact Hes|].
    - intros e w0 Hb. apply step_recentClick.
      replace (Date_now w - timeOrigin w + Character.ATTACK_COOLDOWN)%Z
        with (clock w + Character.ATTACK_COOLDOWN)%Z
        by (unfold Date_now; lia).
      exact Hb.
    - unfold Character.handleMouseClick in *. cbn [Z.eqb negb] in *.
      destruct (_ || _); [congruence|].
      repeat split. unfold Date_now, Character.ATTACK_COOLDOWN. cbn. lia. }
  split; [exact (click_refused _ _ button w' H)|].
  apply H.
Qed.

Lemma clicks_within_cooldown_witness :
  let w' :=
    run [Elapse 300; PlayerAttackFinished; Elapse 599]
      (Character.handleMouseClick 0 (start 1700000000000 (fun _ => 0%R))) in
  Character.handleMouseClick 0 w' = w'.
Proof.
  refine (proj1 (clicks_within_cooldown_ignored
                   (start 1700000000000 (fun _ => 0%R))
                   [Elapse 300; PlayerAttackFinished; Elapse 599] 0 _ _ _)).
  - reflexivity.
  - reflexivity.
  - repeat constructor; cbn; lia.
Defined.

End HistoryProps.
(* ================================================================= *)
(** ** The store and its mirror *)

Module StoreProps.

Import GameState StoreOps Invariants.

Lemma apply_mirror_bossHp (s : Store) (op : Op) :
  option_map Global.bossHp (vibenRingGlobalState (apply s op))
  = option_map Global.bossHp (vibenRingGlobalState s).
Proof. destruct s as [st [g|]]; destruct op; reflexivity. Qed.

(** X17.  No operation of the store (camera setters apart, which are left
    out here and write camera fields only) writes the [bossHp] of the
    mirror: after any sequence of them, [setBossHp], [applyDmgToBoss] and
    [resetGameState] included, it is what it was, and the mirror is there
    exactly when it was. *)
Theorem mirror_bossHp_never_written :
  forall (ops : list Op) (s : Store),
    option_map Global.bossHp (vibenRingGlobalState (applyAll ops s))
    = option_map Global.bossHp (vibenRingGlobalState s).
Proof.
  unfold applyAll. induction ops as [|op ops IH]; intros s; [reflexivity|].
  cbn [fold_left]. rewrite IH. apply apply_mirror_bossHp.
Qed.

Lemma apply_inStep (s : Store) (op : Op) :
  op <> ResetGameState -> inStep s -> inStep (apply s op).
Proof.
  intros Hop (g & Hg & H1 & H2 & H3 & H4 & H5).
  destruct s as [st m]. cbn in Hg. subst m. cbn in H1, H2, H3, H4, H5.
  destruct op; try (now destruct Hop);
    (eexists; split; [reflexivity|]); cbn; now repeat split.
Qed.

(** X18.  The setters keep the mirror in step with the state: when the
    mirror holds the player's health and the positions and rotations of the
    state, it still does after any sequence of operations without
    [resetGameState] (which resets the state and leaves the mirror). *)
Theorem setters_keep_mirror_in_step :
  forall (ops : list Op) (s : Store),
    Forall (fun op => op <> ResetGameState) ops ->
    inStep s -> inStep (applyAll ops s).
Proof.
  unfold applyAll. induction ops as [|op ops IH]; intros s Hops H; [exact H|].
  inversion Hops; subst. cbn [fold_left]. apply IH; [assumption|].
  now apply apply_inStep.
Qed.

Lemma setters_keep_mirror_witness :
  inStep
    (applyAll [SetPlayerPosition (Vector3.new 1 0 2); ApplyDmgToBoss 69;
               SetPlayerHp 90; ToggleDebugMode; SyncCollisionParameters]
       (setBossRotation (Euler.new 0 PI 0)
          (setBossPosition (Vector3.new 0 0 20) mount))).
Proof.
  apply setters_keep_mirror_in_step.
  - repeat constructor; discriminate.
  - eexists. split; [reflexivity|]. cbn. now repeat split.
Defined.

(** X19.  Damage accumulates: two hits, the second one not negative, leave
    the store that one hit of their sum leaves. *)
Theorem applyDmgToBoss_accumulates :
  forall (d1 d2 : R) (s : Store),
    (0 <= d2)%R ->
    applyDmgToBoss d2 (applyDmgToBoss d1 s) = applyDmgToBoss (d1 + d2) s.
Proof.
  intros d1 d2 [st g] Hd. unfold applyDmgToBoss, setState. cbn.
  f_equal. destruct st. unfold with_bossHp. cbn. f_equal.
  unfold Rmax. repeat destruct (Rle_dec _ _); lra.
Qed.

Lemma applyDmgToBoss_accumulates_witness :
  applyDmgToBoss 120 (applyDmgToBoss 69 mount) = applyDmgToBoss (69 + 120) mount.
Proof. apply applyDmgToBoss_accumulates. lra. Defined.

(** X20.  The debug flag survives a reload: the string [toggleDebugMode]
    writes to [localStorage] is read back by the mount effect as the flag
    the toggle left in the state; and toggling twice restores the state. *)
Theorem debug_flag_round_trip :
  forall (s s0 : Store) (saved : Storage),
    let toggled := toggleDebugModeStored s saved in
    isDebugMode (state (loadDebugMode (snd toggled) s0))
    = isDebugMode (state (fst toggled))
    /\ fst (toggleDebugModeStored (fst toggled) (snd toggled)) = s.
Proof.
  intros [st g] s0 saved. cbn. split.
  - destruct (isDebugMode st); reflexivity.
  - unfold toggleDebugMode, setState. cbn. f_equal.
    destruct st. unfold with_isDebugMode. cbn. now rewrite negb_involutive.
Qed.

End StoreProps.

(* ================================================================= *)
(** ** Keys and the player's movement *)

Module MovementProps.

Import World Movement.

Lemma setKey_again (code : string) (v v' : bool) (m : Keys) :
  setKey code v (setKey code v' m) = setKey code v m.
Proof.
  unfold setKey.
  repeat (destruct (String.eqb code _); [reflexivity|]). reflexivity.
Qed.

(** X21.  On each key the last event wins: releasing a key after pressing
    it leaves what releasing alone leaves, pressing after releasing leaves
    what pressing alone leaves, and a repeated 'keydown' changes nothing
    more; in particular from all keys released, a press and a release of
    any key lead back there. *)
Theorem last_key_event_wins :
  forall (code : string) (m : Keys),
    handleKeyUp code (handleKeyDown code m) = handleKeyUp code m
    /\ handleKeyDown code (handleKeyUp code m) = handleKeyDown code m
    /\ handleKeyDown code (handleKeyDown code m) = handleKeyDown code m
    /\ handleKeyUp code (handleKeyDown code released) = released.
Proof.
  intros code m. unfold handleKeyUp, handleKeyDown.
  rewrite !setKey_again. repeat split.
  unfold setKey, released.
  repeat (destruct (String.eqb code _); [reflexivity|]). reflexivity.
Qed.

(** X22.  A frame of the character with [delta] not negative: the height
    is kept; the character moves by at most 3.5 * delta along X and by
    between -3 * delta and 5 * delta along Z; left and right held together
    cancel, forward and backward held together do not (the character
    advances by 2 * delta); while the attack flag is set nothing changes;
    otherwise the position of the state, and that of the mirror when it is
    there, is the new position of the character. *)
Theorem player_frame_displacement :
  forall (delta : R) (m : Keys) (body : Body) (w : Game),
    (0 <= delta)%R ->
    let r := useFrame delta m body w in
    let p := position body in
    let p' := position (fst r) in
    Vector3.y p' = Vector3.y p
    /\ (Rabs (Vector3.x p' - Vector3.x p) <= 35 / 10 * delta)%R
    /\ (- 3 * delta <= Vector3.z p' - Vector3.z p <= 5 * delta)%R
    /\ (left m = right m -> Vector3.x p' = Vector3.x p)
    /\ (forward m = true -> backward m = true -> isAttackingRef w = false ->
        Vector3.z p' = (Vector3.z p + 2 * delta)%R)
    /\ (isAttackingRef w = true -> r = (body, w))
    /\ (isAttackingRef w = false ->
        GameState.playerPosition (GameState.state (store (snd r))) = p'
        /\ option_map Global.playerPosition
             (GameState.vibenRingGlobalState (store (snd r)))
           = option_map (fun _ => p')
               (GameState.vibenRingGlobalState (store w))).
Proof.
  intros delta m [[x y z] rot] w Hd r p p'. subst r p p'.
  unfold useFrame.
  destruct (isAttackingRef w); cbn [negb];
    [cbn; rewrite Rminus_diag, Rabs_R0;
     repeat split; try reflexivity; try lra; discriminate|].
  destruct m as [[|] [|] [|] [|]]; cbn;
    (split; [reflexivity|]);
    (split; [unfold Rabs; destruct (Rcase_abs _); lra|]);
    (split; [lra|]);
    (split; [intros; try discriminate; lra|]);
    (split; [intros; try discriminate; lra|]);
    (split; [discriminate|]);
    intros _; (split; [reflexivity|]);
    destruct (GameState.vibenRingGlobalState (store w)); reflexivity.
Qed.

Lemma player_frame_witness :
  Vector3.z
    (position
       (fst (useFrame (1 / 60) (mkKeys true true false false)
               (mkBody (Vector3.new 0 0 0) (Euler.new 0 0 0))
               (Events.start 1700000000000 (fun _ => 0%R)))))
  = (0 + 2 * (1 / 60))%R.
Proof.
  refine (proj1 (proj2 (proj2 (proj2 (proj2
            (player_frame_displacement (1 / 60) (mkKeys true true false false)
               (mkBody (Vector3.new 0 0 0) (Euler.new 0 0 0))
               (Events.start 1700000000000 (fun _ => 0%R)) _)))))
            eq_refl eq_refl eq_refl).
  lra.
Defined.

End MovementProps.
